(** * prepreproc: change detection and trigger scheduling

    A shallow embedding of the engine of the [prepreproc] directory monitor
    ([actions.py], [monitor.py], [events.py], [config.py]) together with the
    properties its specification states about it.

    Layout: the Python values the engine relies on ([datetime], [timedelta],
    [calendar.monthrange], exceptions) come first, then the embedded source
    functions under their own names, then the lemmas. *)

From Stdlib Require Import ZArith Lia Bool Ascii String.
From stdpp Require Import gmap strings list fin_maps pretty.

(** ** Python exceptions and fallible results *)

Module Py.

(** The exceptions that travel through the engine, all of them instances of
    [Exception]: [ValueError] and [OverflowError] are raised by [datetime],
    [RuntimeError] by the action loader, and [UserError] stands for whatever
    instance of [Exception] a callback raises.  [KeyboardInterrupt] and
    [SystemExit] derive from [BaseException] only; they cancel the whole
    monitor ([DirectoryMonitor.run] handles the first around its loop) and are
    not part of this model. *)
Inductive exn : Type :=
  | ValueError
  | OverflowError
  | RuntimeError (msg : string)
  | UserError (msg : string).

Inductive result (A : Type) : Type :=
  | Ok (a : A)
  | Raise (e : exn).

Arguments Ok {A} a.
Arguments Raise {A} e.

Definition bind {A B : Type} (r : result A) (k : A -> result B) : result B :=
  match r with
  | Ok a => k a
  | Raise e => Raise e
  end.

End Py.

Import Py.

Notation "x <-? c ;; k" := (Py.bind c (fun x => k))
  (at level 100, c at next level, right associativity).

(** ** The [datetime] and [calendar] modules *)

Module Datetime.

Local Open Scope Z_scope.

Definition MINYEAR : Z := 1.
Definition MAXYEAR : Z := 9999.

(** [calendar.isleap] / [datetime._is_leap]. *)
Definition _is_leap (year : Z) : bool :=
  (year mod 4 =? 0) && (negb (year mod 100 =? 0) || (year mod 400 =? 0)).

Definition _DAYS_IN_MONTH (month : Z) : Z :=
  match month with
  | 1 => 31 | 2 => 28 | 3 => 31 | 4 => 30 | 5 => 31 | 6 => 30
  | 7 => 31 | 8 => 31 | 9 => 30 | 10 => 31 | 11 => 30 | 12 => 31
  | _ => 0
  end.

Definition _DAYS_BEFORE_MONTH (month : Z) : Z :=
  match month with
  | 1 => 0 | 2 => 31 | 3 => 59 | 4 => 90 | 5 => 120 | 6 => 151
  | 7 => 181 | 8 => 212 | 9 => 243 | 10 => 273 | 11 => 304 | 12 => 334
  | _ => 0
  end.

Definition _days_in_month (year month : Z) : Z :=
  if (month =? 2) && _is_leap year then 29 else _DAYS_IN_MONTH month.

(** [calendar.monthrange(year, month)[1]]: the number of days of the month.
    The calendar module accepts any year. *)
Definition monthrange_ndays (year month : Z) : Z :=
  _DAYS_IN_MONTH month + (if (month =? 2) && _is_leap year then 1 else 0).

Definition _days_before_year (year : Z) : Z :=
  let y := year - 1 in y * 365 + y / 4 - y / 100 + y / 400.

Definition _days_before_month (year month : Z) : Z :=
  _DAYS_BEFORE_MONTH month + (if (2 <? month) && _is_leap year then 1 else 0).

Definition _ymd2ord (year month day : Z) : Z :=
  _days_before_year year + _days_before_month year month + day.

(** [datetime.time] as the configuration builds it (microsecond always 0). *)
Record dt_time : Type := mk_time {
  t_hour : Z;
  t_minute : Z;
  t_second : Z
}.

Definition valid_time (t : dt_time) : bool :=
  (0 <=? t_hour t) && (t_hour t <=? 23) &&
  (0 <=? t_minute t) && (t_minute t <=? 59) &&
  (0 <=? t_second t) && (t_second t <=? 59).

(** A naive [datetime.datetime]. *)
Record datetime : Type := mk_datetime {
  year : Z;
  month : Z;
  day : Z;
  hour : Z;
  minute : Z;
  second : Z;
  microsecond : Z
}.

(** [_check_date_fields]. *)
Definition check_date_fields (y m d : Z) : bool :=
  (MINYEAR <=? y) && (y <=? MAXYEAR) &&
  (1 <=? m) && (m <=? 12) &&
  (1 <=? d) && (d <=? _days_in_month y m).

(** [_check_time_fields]. *)
Definition check_time_fields (h mi s us : Z) : bool :=
  (0 <=? h) && (h <=? 23) &&
  (0 <=? mi) && (mi <=? 59) &&
  (0 <=? s) && (s <=? 59) &&
  (0 <=? us) && (us <=? 999999).

(** The invariant of every [datetime] object. *)
Definition valid_datetime (d : datetime) : bool :=
  check_date_fields (year d) (month d) (day d) &&
  check_time_fields (hour d) (minute d) (second d) (microsecond d).

(** The constructor [datetime(year, month, day, hour, minute, second,
    microsecond)]: out-of-range fields raise [ValueError]. *)
Definition datetime_new (y m d h mi s us : Z) : result datetime :=
  if check_date_fields y m d && check_time_fields h mi s us
  then Ok (mk_datetime y m d h mi s us)
  else Raise ValueError.

(** [self.replace(hour=.., minute=.., second=.., microsecond=..)]: absent
    arguments keep the field, and the result goes through the constructor. *)
Definition replace (self : datetime) (h mi s us : option Z) : result datetime :=
  datetime_new (year self) (month self) (day self)
    (default (hour self) h) (default (minute self) mi)
    (default (second self) s) (default (microsecond self) us).

(** Comparison of naive datetimes: lexicographic on the seven fields. *)
Definition lex (c1 c2 : comparison) : comparison :=
  match c1 with
  | Eq => c2
  | _ => c1
  end.

Definition date_compare (a b : datetime) : comparison :=
  lex (year a ?= year b) (lex (month a ?= month b) (day a ?= day b)).

Definition tod_compare (a b : datetime) : comparison :=
  lex (hour a ?= hour b)
    (lex (minute a ?= minute b)
       (lex (second a ?= second b) (microsecond a ?= microsecond b))).

Definition datetime_compare (a b : datetime) : comparison :=
  lex (date_compare a b) (tod_compare a b).

(** [a <= b] and [a < b]. *)
Definition datetime_le (a b : datetime) : bool :=
  match datetime_compare a b with
  | Gt => false
  | _ => true
  end.

Definition datetime_lt (a b : datetime) : bool :=
  match datetime_compare a b with
  | Lt => true
  | _ => false
  end.

(** [self.toordinal()] and [self.weekday()] (Monday is 0). *)
Definition toordinal (d : datetime) : Z := _ymd2ord (year d) (month d) (day d).

Definition weekday (d : datetime) : Z := (toordinal d + 6) mod 7.

(** A normalised [timedelta]; the engine only builds non-negative ones. *)
Record timedelta : Type := mk_timedelta {
  days : Z;
  seconds : Z;
  microseconds : Z
}.

(** [timedelta(days=d, hours=h, minutes=mi, seconds=s)]. *)
Definition timedelta_new (d h mi s : Z) : timedelta :=
  let total := h * 3600 + mi * 60 + s in
  mk_timedelta (d + total / 86400) (total mod 86400) 0.

(** The calendar date following (y, m, d); [OverflowError] after
    9999-12-31 ([date.fromordinal] beyond [_MAXORDINAL]). *)
Definition next_day (ymd : Z * Z * Z) : result (Z * Z * Z) :=
  let '(y, m, d) := ymd in
  if d <? _days_in_month y m then Ok (y, m, d + 1)
  else if m <? 12 then Ok (y, m + 1, 1)
  else if y <? MAXYEAR then Ok (y + 1, 1, 1)
  else Raise OverflowError.

(** [date.fromordinal(ymd.toordinal() + n)] for [n >= 0], by stepping through
    the calendar; [date_add_days_inv] below relates it to ordinals. *)
Fixpoint date_add_days (ymd : Z * Z * Z) (n : nat) : result (Z * Z * Z) :=
  match n with
  | O => Ok ymd
  | S n' => ymd' <-? next_day ymd ;; date_add_days ymd' n'
  end.

(** [self + delta] for a non-negative [delta]: carry microseconds into
    seconds, seconds into days, then move the date. *)
Definition datetime_add (self : datetime) (delta : timedelta) : result datetime :=
  let us := microsecond self + microseconds delta in
  let s := hour self * 3600 + minute self * 60 + second self
           + seconds delta + us / 1000000 in
  let d := days delta + s / 86400 in
  let rem := s mod 86400 in
  ymd <-? date_add_days (year self, month self, day self) (Z.to_nat d) ;;
  let '(y, m, dd) := ymd in
  Ok (mk_datetime y m dd (rem / 3600) (rem mod 3600 / 60) (rem mod 60)
        (us mod 1000000)).

End Datetime.

(** ** config.py *)

Module Config.

Import Datetime.

Inductive TriggerType : Type :=
  | EVENT | MINUTELY | HOURLY | DAILY | WEEKLY | MONTHLY.

#[global] Instance TriggerType_eq_dec : EqDecision TriggerType.
Proof. solve_decision. Defined.

(** [ActionTriggerConfig]. *)
Record ActionTriggerConfig : Type := mk_trigger {
  type : TriggerType;
  time : option dt_time;
  weekday : option Z;
  day : option Z;
  minute : option Z
}.

Local Open Scope Z_scope.

(** The field ranges [_parse_action_trigger] lets through: a time of day is a
    valid [datetime.time], [_parse_weekday_field] yields 0..6,
    [_parse_month_day_field] 1..31 and [_parse_minute_field] 0..59. *)
Definition opt_in_range (lo hi : Z) (o : option Z) : bool :=
  match o with
  | Some v => (lo <=? v) && (v <=? hi)
  | None => true
  end.

Definition validated_trigger (t : ActionTriggerConfig) : bool :=
  match time t with Some tod => valid_time tod | None => true end &&
  opt_in_range 0 6 (weekday t) &&
  opt_in_range 1 31 (day t) &&
  opt_in_range 0 59 (minute t).

End Config.

(** ** actions.py: the trigger scheduler *)

Module Scheduler.

Import Datetime Config.
Local Open Scope Z_scope.

(** [_DEFAULT_TIME]: midnight. *)
Definition _DEFAULT_TIME : dt_time := mk_time 0 0 0.

Definition _clamped_month_datetime (year month day : Z) (time_of_day : dt_time)
  : result datetime :=
  let last_day := monthrange_ndays year month in
  let target_day := Z.min day last_day in
  datetime_new year month target_day
    (t_hour time_of_day) (t_minute time_of_day) (t_second time_of_day) 0.

Definition _compute_next_run (trigger : ActionTriggerConfig) (reference : datetime)
  : result (option datetime) :=
  if decide (type trigger = EVENT) then Ok None
  else if decide (type trigger = MINUTELY) then
    let second := match Config.time trigger with Some t => t_second t | None => 0 end in
    base <-? replace reference None None (Some second) (Some 0) ;;
    if datetime_le base reference
    then base' <-? datetime_add base (timedelta_new 0 0 1 0) ;; Ok (Some base')
    else Ok (Some base)
  else if decide (type trigger = HOURLY) then
    let minute := match Config.minute trigger with Some m => m | None => 0 end in
    let second := match Config.time trigger with Some t => t_second t | None => 0 end in
    base <-? replace reference None (Some minute) (Some second) (Some 0) ;;
    if datetime_le base reference
    then base' <-? datetime_add base (timedelta_new 0 1 0 0) ;; Ok (Some base')
    else Ok (Some base)
  else
    let time_of_day :=
      match Config.time trigger with Some t => t | None => _DEFAULT_TIME end in
    base <-? replace reference (Some (t_hour time_of_day))
               (Some (t_minute time_of_day)) (Some (t_second time_of_day)) (Some 0) ;;
    if decide (type trigger = DAILY) then
      if datetime_le base reference
      then base' <-? datetime_add base (timedelta_new 1 0 0 0) ;; Ok (Some base')
      else Ok (Some base)
    else if decide (type trigger = WEEKLY) then
      let weekday :=
        match Config.weekday trigger with
        | Some w => w
        | None => Datetime.weekday reference
        end in
      let days_ahead := (weekday - Datetime.weekday base) mod 7 in
      candidate <-? datetime_add base (timedelta_new days_ahead 0 0 0) ;;
      if datetime_le candidate reference
      then candidate' <-? datetime_add candidate (timedelta_new 7 0 0 0) ;;
           Ok (Some candidate')
      else Ok (Some candidate)
    else if decide (type trigger = MONTHLY) then
      let day :=
        match Config.day trigger with
        | Some d => d
        | None => Datetime.day reference
        end in
      let year := Datetime.year base in
      let month := Datetime.month base in
      candidate <-? _clamped_month_datetime year month day time_of_day ;;
      if datetime_le candidate reference
      then
        let month1 := month + 1 in
        let '(year', month') := if 12 <? month1 then (year + 1, 1) else (year, month1) in
        candidate' <-? _clamped_month_datetime year' month' day time_of_day ;;
        Ok (Some candidate')
      else Ok (Some candidate)
    else Ok None.

End Scheduler.

(** ** events.py *)

(** A [pathlib.Path] is kept as the list of its components below the
    filesystem root: [/data/raw/a.fits] is [["data"; "raw"; "a.fits"]]. *)
Abbreviation Path := (list string).

(** [Snapshot = Dict[Path, Tuple[float, int]]]: path to (mtime, size).  The
    engine only tests modification times for equality; [os.stat] never yields a
    NaN, so a timestamp is represented by an integer tick count on which [!=]
    is the negation of equality.  A Python dict iterates in insertion order
    and a [gmap] in an order of its own; the loops below run over
    [map_to_list], and nothing that is stated about them depends on the order
    of the entries. *)
Abbreviation Snapshot := (gmap Path (Z * Z)).

Module Events.

Inductive EventType : Type :=
  | CREATED | MODIFIED | DELETED | MOVED.

#[global] Instance EventType_eq_dec : EqDecision EventType.
Proof. solve_decision. Defined.

Record FileEvent : Type := mk_event {
  event_type : EventType;
  path : Path;
  previous_path : option Path;
  size : option Z;
  mtime : option Z
}.

#[global] Instance FileEvent_eq_dec : EqDecision FileEvent.
Proof. solve_decision. Defined.

End Events.

(** ** monitor.py: the snapshot scanner and its filter *)

Module Monitor.

(** [str(path)] and [path.name]. *)
Definition path_str (p : Path) : string :=
  match p with
  | [] => "/"
  | _ => foldr (fun part acc => "/" +:+ part +:+ acc) "" p
  end.

Definition path_name (p : Path) : string := List.last p "".

(** [fnmatch.fnmatchcase] for patterns made of literal characters, [*] and
    [?] (on POSIX, [fnmatch.fnmatch] is [fnmatchcase]).  The match is anchored
    at both ends and [*] also runs across [/]. *)
Fixpoint glob (pat s : list ascii) : bool :=
  match pat with
  | [] => match s with [] => true | _ => false end
  | c :: pat' =>
      if Ascii.eqb c "*" then
        (fix star (s : list ascii) : bool :=
           glob pat' s || match s with [] => false | _ :: s' => star s' end) s
      else
        match s with
        | [] => false
        | d :: s' => (Ascii.eqb c "?" || Ascii.eqb c d) && glob pat' s'
        end
  end.

Definition fnmatchcase (name pat : string) : bool :=
  glob (list_ascii_of_string pat) (list_ascii_of_string name).

(** [MonitorConfig]; [poll_interval] only paces the loop and is left out. *)
Record MonitorConfig : Type := mk_monitor_config {
  root_path : Path;
  recursive : bool;
  include_patterns : list string;
  exclude_patterns : list string
}.

(** What the filesystem shows during one scan: whether the root exists, and
    for [root.rglob("*")] and [root.glob("*")] the paths they yield, each with
    [is_file()] and the result of [stat()] ([None]: [FileNotFoundError]). *)
Record DirEntry : Type := mk_entry {
  entry_path : Path;
  is_file : bool;
  stat : option (Z * Z)
}.

Record Filesystem : Type := mk_fs {
  root_exists : bool;
  rglob : list DirEntry;
  glob_top : list DirEntry
}.

Section Filter.

(** [fnmatch.fnmatch name pat]; the engine does not depend on which glob
    dialect it implements. *)
Variable fnmatch : string -> string -> bool.

Definition _matches_patterns (path : Path) (include_patterns exclude_patterns : list string)
  : bool :=
  let relative := path_name path in
  let rel_from_root := path_str path in
  if negb (bool_decide (exclude_patterns = []))
     && existsb (fun pat => fnmatch relative pat || fnmatch rel_from_root pat)
          exclude_patterns
  then false
  else if bool_decide (include_patterns = []) then true
  else existsb (fun pat => fnmatch relative pat || fnmatch rel_from_root pat)
         include_patterns.

Definition _iter_paths (fs : Filesystem) (recursive : bool) : list DirEntry :=
  if recursive then rglob fs else glob_top fs.

(** Body of the loop of [_scan]. *)
Definition scan_step (config : MonitorConfig) (results : Snapshot) (e : DirEntry)
  : Snapshot :=
  if negb (is_file e) then results
  else if negb (_matches_patterns (entry_path e)
                  (include_patterns config) (exclude_patterns config))
  then results
  else
    match stat e with
    | None => results
    | Some (st_mtime, st_size) => <[entry_path e := (st_mtime, st_size)]> results
    end.

Definition _scan (config : MonitorConfig) (fs : Filesystem) : Snapshot :=
  if negb (root_exists fs) then ∅
  else foldl (scan_step config) ∅ (_iter_paths fs (recursive config)).

End Filter.

(** *** The change detector of monitor.py *)

Import Events.
Local Open Scope Z_scope.

(** [_diff_snapshots], the generator of monitor.py: the state of its first
    loop is the list of values yielded so far and the [seen] set.  [old[path]]
    is only evaluated when [path in old], so its [KeyError] branch is dead. *)
Definition scan_new (old : Snapshot) (st : list FileEvent * gset Path)
    (item : Path * (Z * Z)) : list FileEvent * gset Path :=
  let '(yielded, seen) := st in
  let '(path, (mtime, size)) := item in
  let yielded' :=
    if decide (path ∉ dom old)
    then yielded ++ [mk_event CREATED path None (Some size) (Some mtime)]
    else
      match old !! path with
      | Some (old_mtime, old_size) =>
          if negb (old_mtime =? mtime) || negb (old_size =? size)
          then yielded ++ [mk_event MODIFIED path None (Some size) (Some mtime)]
          else yielded
      | None => yielded
      end in
  (yielded', seen ∪ {[path]}).

Definition scan_old (seen : gset Path) (yielded : list FileEvent)
    (item : Path * (Z * Z)) : list FileEvent :=
  let '(path, (mtime, size)) := item in
  if decide (path ∉ seen)
  then yielded ++ [mk_event DELETED path None (Some size) (Some mtime)]
  else yielded.

Definition _diff_snapshots (old new : Snapshot) : list FileEvent :=
  let '(yielded, seen) := foldl (scan_new old) ([], ∅) (map_to_list new) in
  foldl (scan_old seen) yielded (map_to_list old).

End Monitor.

(** ** actions.py: actions, contexts and the registry *)

Module Actions.

Import Datetime Config Scheduler Events.

(** *** The change detector of actions.py *)

Local Open Scope Z_scope.

(** Body of the loop over [new.items()]: the state is the event list and the
    [seen] set. *)
Definition scan_new (old : Snapshot) (st : list FileEvent * gset Path)
    (item : Path * (Z * Z)) : list FileEvent * gset Path :=
  let '(events, seen) := st in
  let '(path, (mtime, size)) := item in
  let events' :=
    match old !! path with
    | None => events ++ [mk_event CREATED path None (Some size) (Some mtime)]
    | Some (old_mtime, old_size) =>
        if negb (old_mtime =? mtime) || negb (old_size =? size)
        then events ++ [mk_event MODIFIED path None (Some size) (Some mtime)]
        else events
    end in
  (events', seen ∪ {[path]}).

(** Body of the loop over [old.items()]. *)
Definition scan_old (seen : gset Path) (events : list FileEvent)
    (item : Path * (Z * Z)) : list FileEvent :=
  let '(path, (mtime, size)) := item in
  if decide (path ∉ seen)
  then events ++ [mk_event DELETED path None (Some size) (Some mtime)]
  else events.

Definition _diff_snapshots (old new : Snapshot) : list FileEvent :=
  let '(events, seen) := foldl (scan_new old) ([], ∅) (map_to_list new) in
  foldl (scan_old seen) events (map_to_list old).

Local Close Scope Z_scope.

(** *** Actions and contexts *)

(** [ActionContext] (a frozen dataclass). *)
Record ActionContext : Type := mk_context {
  root_path : Path;
  snapshot : Snapshot;
  event : option FileEvent;
  modified_events : list FileEvent
}.

(** What one call of a callback does, as far as the registry can tell: it
    returns, or it raises.  Its other effects are its own business. *)
Inductive outcome : Type :=
  | Returned
  | Raised (e : exn).

Abbreviation Options := (gmap string string).

Definition ActionCallback : Type := ActionContext -> Options -> outcome.

(** [Action]: a mutable object; the registry's three lists share it. *)
Record Action : Type := mk_action {
  name : string;
  callback : ActionCallback;
  options : Options;
  trigger : ActionTriggerConfig;
  next_run_at : option datetime;
  previous_snapshot : option Snapshot
}.

Definition is_event_trigger (self : Action) : bool :=
  bool_decide (type (trigger self) = EVENT).

(** [ActionConfig], and the importable modules with their attributes. *)
Record ActionConfig : Type := mk_action_config {
  cfg_name : string;
  cfg_module : string;
  cfg_function : string;
  cfg_trigger : ActionTriggerConfig;
  cfg_options : Options
}.

Inductive attribute : Type :=
  | Callable (f : ActionCallback)
  | NotCallable.

Abbreviation Modules := (gmap string (gmap string attribute)).

(** Observable effects, in program order: a callback is entered (action
    object, context object), or a record is logged. *)
Inductive effect : Type :=
  | Invoked (action context : nat)
  | LogDebug (action_name : string) (trigger_type : TriggerType)
  | LogException (action_name : string) (event_hint : option FileEvent).

(** The store: action objects and context objects by allocation number. *)
Record World : Type := mk_world {
  objs : list Action;
  contexts : list ActionContext;
  trace : list effect
}.

(** Computations on the store that may raise; a raise keeps the store as it
    was when the exception left. *)
Definition M (A : Type) : Type := World -> result A * World.

Definition ret {A : Type} (a : A) : M A := fun w => (Ok a, w).

Definition raise {A : Type} (e : exn) : M A := fun w => (Raise e, w).

Definition mbind {A B : Type} (m : M A) (k : A -> M B) : M B :=
  fun w =>
    match m w with
    | (Ok a, w') => k a w'
    | (Raise e, w') => (Raise e, w')
    end.

Definition lift {A : Type} (r : result A) : M A := fun w => (r, w).

(** [try: m  except Exception: h]. *)
Definition try_except {A : Type} (m : M A) (h : exn -> M A) : M A :=
  fun w =>
    match m w with
    | (Ok a, w') => (Ok a, w')
    | (Raise e, w') => h e w'
    end.

Notation "x <~ c ;; k" := (mbind c (fun x => k))
  (at level 100, c at next level, right associativity).
Notation "c ;;; k" := (mbind c (fun _ => k))
  (at level 100, right associativity).

Fixpoint for_each {A : Type} (l : list A) (body : A -> M unit) : M unit :=
  match l with
  | [] => ret tt
  | x :: l' => body x ;;; for_each l' body
  end.

(** Reading and writing an action object.  The constructor only hands out
    references into the store, so the [None] branch is never taken from a
    registry it built. *)
Definition get_action (r : nat) : M Action :=
  fun w =>
    match objs w !! r with
    | Some a => (Ok a, w)
    | None => (Raise (RuntimeError "no such object"), w)
    end.

Definition put_action (r : nat) (a : Action) : M unit :=
  fun w => (Ok tt, mk_world (<[r := a]> (objs w)) (contexts w) (trace w)).

Definition new_action (a : Action) : M nat :=
  fun w => (Ok (length (objs w)), mk_world (objs w ++ [a]) (contexts w) (trace w)).

Definition new_context (c : ActionContext) : M nat :=
  fun w => (Ok (length (contexts w)), mk_world (objs w) (contexts w ++ [c]) (trace w)).

Definition get_context (c : nat) : M ActionContext :=
  fun w =>
    match contexts w !! c with
    | Some ctx => (Ok ctx, w)
    | None => (Raise (RuntimeError "no such object"), w)
    end.

Definition emit (e : effect) : M unit :=
  fun w => (Ok tt, mk_world (objs w) (contexts w) (trace w ++ [e])).

(** [Action.schedule_next_run]. *)
Definition schedule_next_run (self : nat) (reference : datetime) : M unit :=
  a <~ get_action self ;;
  next <~ lift (_compute_next_run (trigger a) reference) ;;
  put_action self
    (mk_action (name a) (callback a) (options a) (trigger a) next (previous_snapshot a)).

(** [Action.invoke]. *)
Definition invoke (self : nat) (context : nat) : M unit :=
  a <~ get_action self ;;
  emit (LogDebug (name a) (type (trigger a))) ;;;
  ctx <~ get_context context ;;
  emit (Invoked self context) ;;;
  match callback a ctx (options a) with
  | Returned => ret tt
  | Raised e => raise e
  end.

(** [ActionRegistry]: three lists of references to action objects. *)
Record ActionRegistry : Type := mk_registry {
  _actions : list nat;
  _event_actions : list nat;
  _scheduled_actions : list nat
}.

Definition _safe_invoke (action : nat) (context : nat) (event_hint : option FileEvent)
  : M unit :=
  try_except (invoke action context)
    (fun _ => a <~ get_action action ;; emit (LogException (name a) event_hint)).

Definition dispatch_event (self : ActionRegistry) (event : FileEvent)
    (root_path : Path) (snapshot : Snapshot) : M unit :=
  if bool_decide (_event_actions self = []) then ret tt
  else
    context <~ new_context (mk_context root_path snapshot (Some event) []) ;;
    for_each (_event_actions self)
      (fun action => _safe_invoke action context (Some event)).

(** Body of the loop of [dispatch_scheduled]. *)
Definition dispatch_one (now : datetime) (root_path : Path) (snapshot : Snapshot)
    (action : nat) : M unit :=
  a <~ get_action action ;;
  match next_run_at a with
  | None => schedule_next_run action now
  | Some _ => ret tt
  end ;;;
  a <~ get_action action ;;
  match next_run_at a with
  | None => ret tt
  | Some due =>
      if datetime_lt now due then ret tt
      else
        let modified_events :=
          match previous_snapshot a with
          | Some previous => _diff_snapshots previous snapshot
          | None => []
          end in
        context <~ new_context (mk_context root_path snapshot None modified_events) ;;
        _safe_invoke action context None ;;;
        a <~ get_action action ;;
        put_action action
          (mk_action (name a) (callback a) (options a) (trigger a) (next_run_at a)
             (Some snapshot)) ;;;
        reference <~ lift (datetime_add now (timedelta_new 0 0 0 1)) ;;
        schedule_next_run action reference
  end.

Definition dispatch_scheduled (self : ActionRegistry) (now : datetime)
    (root_path : Path) (snapshot : Snapshot) : M unit :=
  if bool_decide (_scheduled_actions self = []) then ret tt
  else for_each (_scheduled_actions self) (dispatch_one now root_path snapshot).

Definition prime_scheduled_snapshots (self : ActionRegistry) (snapshot : Snapshot)
  : M unit :=
  for_each (_scheduled_actions self)
    (fun action =>
       a <~ get_action action ;;
       match previous_snapshot a with
       | None =>
           put_action action
             (mk_action (name a) (callback a) (options a) (trigger a) (next_run_at a)
                (Some snapshot))
       | Some _ => ret tt
       end).

Definition _import_module (modules : Modules) (module_path : string)
  : result (gmap string attribute) :=
  match modules !! module_path with
  | Some m => Ok m
  | None => Raise (RuntimeError "Unable to import action module")
  end.

Definition _load_action (modules : Modules) (config : ActionConfig) : result Action :=
  module <-? _import_module modules (cfg_module config) ;;
  match module !! cfg_function config with
  | None => Raise (RuntimeError "could not find function")
  | Some NotCallable => Raise (RuntimeError "is not callable")
  | Some (Callable f) =>
      Ok (mk_action (cfg_name config) f (cfg_options config) (cfg_trigger config)
            None None)
  end.

(** [[x for x in refs if keep(x)]] over action objects. *)
Fixpoint select (keep : Action -> bool) (refs : list nat) : M (list nat) :=
  match refs with
  | [] => ret []
  | r :: refs' =>
      a <~ get_action r ;;
      rest <~ select keep refs' ;;
      ret (if keep a then r :: rest else rest)
  end.

Fixpoint load_all (modules : Modules) (configs : list ActionConfig) : M (list nat) :=
  match configs with
  | [] => ret []
  | cfg :: configs' =>
      a <~ lift (_load_action modules cfg) ;;
      r <~ new_action a ;;
      rest <~ load_all modules configs' ;;
      ret (r :: rest)
  end.

(** [ActionRegistry.__init__]; [clock] is what [datetime.now()] returns. *)
Definition __init__ (modules : Modules) (actions : list ActionConfig)
    (reference_time : option datetime) (clock : datetime) : M ActionRegistry :=
  all <~ load_all modules actions ;;
  event_actions <~ select is_event_trigger all ;;
  scheduled_actions <~ select (fun a => negb (is_event_trigger a)) all ;;
  let now := default clock reference_time in
  for_each scheduled_actions (fun action => schedule_next_run action now) ;;;
  ret (mk_registry all event_actions scheduled_actions).

End Actions.

(** ** Definitions used to state the properties

    None of these is part of the program: they name the quantities the
    statements below talk about, and word the rules the way the
    specification does. *)

Module Spec.

Import Py Datetime Config Scheduler Events Actions.
Local Open Scope Z_scope.

(** *** Instants on a line *)

(** Microseconds since the start of 0001-01-01, less one day. *)
Definition to_micro (d : datetime) : Z :=
  (toordinal d * 86400 + hour d * 3600 + Datetime.minute d * 60 + second d) * 1000000
  + microsecond d.

Definition delta_micro (t : timedelta) : Z :=
  (days t * 86400 + seconds t) * 1000000 + microseconds t.

Definition nonneg_delta (t : timedelta) : Prop :=
  0 <= days t /\ 0 <= seconds t /\ 0 <= microseconds t.

(** [date.max.toordinal()], i.e. 9999-12-31. *)
Definition MAXORDINAL : Z := 3652059.

(** One past the last microsecond of the datetime range. *)
Definition END_OF_TIME : Z := (MAXORDINAL + 1) * 86400000000.

(** 9999-11-30, the last day from which every period still fits. *)
Definition LAST_SAFE_ORDINAL : Z := 3652028.

(** The shape shared by the minutely, hourly and daily branches and by the
    second half of the weekly one. *)
Definition advance_if_due (base reference : datetime) (delta : timedelta)
  : result (option datetime) :=
  if datetime_le base reference
  then base' <-? datetime_add base delta ;; Ok (Some base')
  else Ok (Some base).

(** *** The calendar rules in the words of the specification *)

Definition valid_time_of_day (tod : dt_time) : Prop :=
  0 <= t_hour tod <= 23 /\ 0 <= t_minute tod <= 59 /\ 0 <= t_second tod <= 59.

(** The configured time of day, midnight by default. *)
Definition trigger_time_of_day (t : ActionTriggerConfig) : dt_time :=
  match Config.time t with Some x => x | None => _DEFAULT_TIME end.

(** The configured weekday, the reference's own by default. *)
Definition trigger_weekday (t : ActionTriggerConfig) (reference : datetime) : Z :=
  match Config.weekday t with Some w => w | None => Datetime.weekday reference end.

Definition at_time (y m d : Z) (tod : dt_time) : datetime :=
  mk_datetime y m d (t_hour tod) (t_minute tod) (t_second tod) 0.

(** The month after (y, m), wrapping the year after December. *)
Definition following_month (y m : Z) : Z * Z :=
  if m =? 12 then (y + 1, 1) else (y, m + 1).

(** Day [d] clamped to the last valid day of month (y, m), at time [tod]. *)
Definition clamped (y m d : Z) (tod : dt_time) : datetime :=
  at_time y m (Z.min d (_days_in_month y m)) tod.

(** Monthly: the candidate of the current month if it is strictly after the
    reference, otherwise the candidate of the following month, clamped anew. *)
Definition monthly_next (d : Z) (tod : dt_time) (reference : datetime) : datetime :=
  let candidate := clamped (year reference) (month reference) d tod in
  if datetime_lt reference candidate then candidate
  else
    let '(y, m) := following_month (year reference) (month reference) in
    clamped y m d tod.

(** Weekly: the candidate at the target time on the current date, shifted
    forward by (target weekday - candidate weekday) mod 7 days, and by seven
    more days if that is not strictly after the reference. *)
Definition weekly_next (target_weekday : Z) (tod : dt_time) (reference : datetime)
  : result datetime :=
  let base := at_time (year reference) (month reference) (Datetime.day reference) tod in
  let days_ahead := (target_weekday - Datetime.weekday base) mod 7 in
  candidate <-? datetime_add base (timedelta_new days_ahead 0 0 0) ;;
  if datetime_lt reference candidate then Ok candidate
  else datetime_add candidate (timedelta_new 7 0 0 0).

(** *** The change set *)

(** The records the specification asks of [diff old new]. *)
Inductive is_change (old new : Snapshot) : FileEvent -> Prop :=
  | change_created p m s :
      new !! p = Some (m, s) -> old !! p = None ->
      is_change old new (mk_event CREATED p None (Some s) (Some m))
  | change_modified p m s m' s' :
      new !! p = Some (m, s) -> old !! p = Some (m', s') -> (m', s') <> (m, s) ->
      is_change old new (mk_event MODIFIED p None (Some s) (Some m))
  | change_deleted p m s :
      old !! p = Some (m, s) -> new !! p = None ->
      is_change old new (mk_event DELETED p None (Some s) (Some m)).

(** What one entry of [new] contributes, and what one entry of [old] does. *)
Definition new_records (old : Snapshot) (item : Path * (Z * Z)) : list FileEvent :=
  let '(path, (mtime, size)) := item in
  match old !! path with
  | None => [mk_event CREATED path None (Some size) (Some mtime)]
  | Some (old_mtime, old_size) =>
      if negb (old_mtime =? mtime) || negb (old_size =? size)
      then [mk_event MODIFIED path None (Some size) (Some mtime)]
      else []
  end.

Definition old_records (seen : gset Path) (item : Path * (Z * Z)) : list FileEvent :=
  let '(path, (mtime, size)) := item in
  if decide (path ∉ seen)
  then [mk_event DELETED path None (Some size) (Some mtime)]
  else [].

(** *** The scanner's filter *)

(** The filter as the specification words it: the path that is matched is the
    one relative to the monitored root. *)
Definition relative_to (root path : Path) : Path := drop (length root) path.

Local Open Scope string_scope.

Definition rel_str (p : Path) : string :=
  match p with
  | [] => "."
  | part :: rest => foldl (fun acc q => acc +:+ "/" +:+ q) part rest
  end.

Definition spec_filter (fnmatch : string -> string -> bool) (root path : Path)
    (include_patterns exclude_patterns : list string) : bool :=
  let matches pat :=
    fnmatch (rel_str (relative_to root path)) pat || fnmatch (Monitor.path_name path) pat in
  if existsb matches exclude_patterns then false
  else if bool_decide (include_patterns = []) then true
  else existsb matches include_patterns.

Local Close Scope string_scope.

(** A pattern matches the file name or the path as scanned. *)
Definition hit (fnmatch : string -> string -> bool) (path : Path) (pat : string) : bool :=
  fnmatch (Monitor.path_name path) pat || fnmatch (Monitor.path_str path) pat.

(** *** Dispatch *)

(** The well-formedness that [__init__] establishes and the dispatch methods
    keep: [_actions] lists distinct objects of the store, whose triggers carry
    validated fields and whose due times are datetimes; [_event_actions] and
    [_scheduled_actions] are its event triggered and its time triggered
    members, in order. *)
Definition action_ok (a : Action) : bool :=
  validated_trigger (trigger a) &&
  match next_run_at a with
  | Some t => valid_datetime t
  | None => true
  end.

Definition event_ref (w : World) (r : nat) : bool :=
  match objs w !! r with
  | Some a => is_event_trigger a
  | None => false
  end.

Definition registry_ok (w : World) (self : ActionRegistry) : bool :=
  forallb (fun r => match objs w !! r with Some a => action_ok a | None => false end)
    (_actions self) &&
  bool_decide (NoDup (_actions self)) &&
  bool_decide (_event_actions self = List.filter (event_ref w) (_actions self)) &&
  bool_decide (_scheduled_actions self
               = List.filter (fun r => negb (event_ref w r)) (_actions self)).

(** The callbacks entered, in order: (action object, context object). *)
Definition invocations (tr : list effect) : list (nat * nat) :=
  omap (fun e => match e with Invoked a c => Some (a, c) | _ => None end) tr.

(** [now >= action.next_run_at], for an action whose due time is set. *)
Definition is_due (now : datetime) (a : Action) : bool :=
  match next_run_at a with
  | Some due => negb (datetime_lt now due)
  | None => false
  end.

(** What one guarded call adds to the trace. *)
Definition call_effects (r ctx : nat) (a : Action) (c : ActionContext)
    (hint : option FileEvent) : list effect :=
  [LogDebug (name a) (type (trigger a)); Invoked r ctx] ++
  match callback a c (options a) with
  | Returned => []
  | Raised _ => [LogException (name a) hint]
  end.

(** The context a scheduled firing of [a] is given. *)
Definition fired (root : Path) (snap : Snapshot) (a : Action) : ActionContext :=
  mk_context root snap None
    (match previous_snapshot a with
     | Some previous => Actions._diff_snapshots previous snap
     | None => []
     end).

(** How one pass of the loop of [dispatch_scheduled] at [now] leaves an
    action that it found as [a]. *)
Definition stepped (now : datetime) (snap : Snapshot) (a a' : Action) : Prop :=
  name a' = name a /\ callback a' = callback a /\ options a' = options a /\
  trigger a' = trigger a /\ action_ok a' = true /\
  (exists next, next_run_at a' = Some next /\ datetime_lt now next = true) /\
  if is_due now a
  then previous_snapshot a' = Some snap /\
       exists reference,
         datetime_add now (timedelta_new 0 0 0 1) = Ok reference /\
         _compute_next_run (trigger a) reference = Ok (next_run_at a')
  else previous_snapshot a' = previous_snapshot a /\
       match next_run_at a with
       | Some _ => next_run_at a' = next_run_at a
       | None => _compute_next_run (trigger a) now = Ok (next_run_at a')
       end.

(** Context objects are numbered in allocation order. *)
Fixpoint numbered (n : nat) (l : list nat) : list (nat * nat) :=
  match l with
  | [] => []
  | r :: l' => (r, n) :: numbered (S n) l'
  end.

Definition due_ref (now : datetime) (w : World) (r : nat) : bool :=
  match objs w !! r with
  | Some a => is_due now a
  | None => false
  end.

Definition context_for (root : Path) (snap : Snapshot) (w : World) (r : nat)
  : ActionContext :=
  match objs w !! r with
  | Some a => fired root snap a
  | None => mk_context root snap None []
  end.

Definition time_triggered (w : World) (r : nat) : Prop :=
  exists a, objs w !! r = Some a /\ action_ok a = true /\ is_event_trigger a = false.

End Spec.

(** ** Sample data *)

Module Samples.

Import Py Datetime Config Scheduler Events Actions.
Local Open Scope string_scope.

Definition hourly_at_30 : ActionTriggerConfig := mk_trigger HOURLY None None None (Some 30%Z).
Definition quarter_to_eleven : datetime := mk_datetime 2024 5 6 10 45 0 0.

Definition monthly_on_31 : ActionTriggerConfig :=
  mk_trigger MONTHLY (Some (mk_time 9 0 0)) None (Some 31%Z) None.
Definition end_of_january : datetime := mk_datetime 2023 1 31 10 0 0 0.

(** 2024-05-08 is a Wednesday (weekday 2). *)
Definition wednesday_morning : ActionTriggerConfig :=
  mk_trigger WEEKLY (Some (mk_time 9 0 0)) (Some 2%Z) None None.
Definition wednesday_night : datetime := mk_datetime 2024 5 8 23 0 0 0.

Definition every_minute : ActionTriggerConfig := mk_trigger MINUTELY None None None None.
Definition on_change : ActionTriggerConfig := mk_trigger EVENT None None None None.

Definition an_evening : datetime := mk_datetime 2024 5 8 22 59 30 0.
Definition eleven_pm : datetime := mk_datetime 2024 5 8 23 0 0 0.

(** The last minute of the datetime range. *)
Definition last_half_minute : datetime := mk_datetime 9999 12 31 23 58 30 0.
Definition last_minute : datetime := mk_datetime 9999 12 31 23 59 0 0.
Definition last_second : datetime := mk_datetime 9999 12 31 23 59 59 0.

Definition sample_root : Path := ["data"].
Definition sample_file : Path := ["data"; "raw"; "img.fits"].
Definition sample_snapshot : Snapshot := {[ ["data"; "a.txt"] := (100, 10)%Z ]}.
Definition sample_event : FileEvent :=
  mk_event CREATED ["data"; "a.txt"] None (Some 10%Z) (Some 100%Z).

Definition failing : ActionCallback := fun _ _ => Raised (UserError "boom").
Definition quiet : ActionCallback := fun _ _ => Returned.

Definition sample_modules : Modules :=
  {[ "hooks" := {[ "failing" := Callable failing; "quiet" := Callable quiet ]} ]}.

Definition two_timers : list ActionConfig :=
  [ mk_action_config "first" "hooks" "failing" every_minute ∅;
    mk_action_config "second" "hooks" "quiet" every_minute ∅ ].

Definition listeners_and_timer : list ActionConfig :=
  [ mk_action_config "notify" "hooks" "failing" on_change ∅;
    mk_action_config "tick" "hooks" "quiet" every_minute ∅;
    mk_action_config "index" "hooks" "quiet" on_change ∅ ].

Definition empty_world : World := mk_world [] [] [].

(** What [ActionRegistry(two_timers, reference_time=...)] leaves behind when
    the first due time is [due]. *)
Definition timer (n : string) (f : ActionCallback) (due : datetime) : Action :=
  mk_action n f ∅ every_minute (Some due) None.

Definition timers_world (due : datetime) : World :=
  mk_world [timer "first" failing due; timer "second" quiet due] [] [].

Definition timers_registry : ActionRegistry := mk_registry [0; 1] [] [0; 1].

(** Likewise for [listeners_and_timer]. *)
Definition listeners_world : World :=
  mk_world
    [ mk_action "notify" failing ∅ on_change None None;
      mk_action "tick" quiet ∅ every_minute (Some eleven_pm) None;
      mk_action "index" quiet ∅ on_change None None ] [] [].

Definition listeners_registry : ActionRegistry := mk_registry [0; 1; 2] [0; 2] [1].

End Samples.

(** ** config.py: the validators *)

Module Loader.

Import Datetime Config.
Local Open Scope string_scope.
Local Open Scope Z_scope.

(** What [yaml.safe_load] hands to the validators.  A mapping is only ever
    read with [.get] on a string key, so entries under other keys are left
    out; [YOther] stands for the values no validator accepts (floats, dates,
    byte strings, sets). *)
#[local] Set Warnings "-register-all".
Inductive yaml : Type :=
  | YNone
  | YBool (b : bool)
  | YInt (n : Z)
  | YStr (s : string)
  | YSeq (items : list yaml)
  | YMap (items : gmap string yaml)
  | YOther.
#[local] Set Warnings "+register-all".

(** [isinstance(value, int)]: [bool] is a subclass of [int], with [False] and
    [True] worth 0 and 1. *)
Definition as_int (value : yaml) : option Z :=
  match value with
  | YInt n => Some n
  | YBool b => Some (if b then 1 else 0)
  | _ => None
  end.

(** [mapping.get(key)], with [None] for a missing key. *)
Definition get (mapping : gmap string yaml) (key : string) : yaml :=
  default YNone (mapping !! key).

(** The result of a validator: a value, or [ConfigError(message)]. *)
Inductive checked (A : Type) : Type :=
  | Valid (a : A)
  | ConfigError (message : string).

Arguments Valid {A} a.
Arguments ConfigError {A} message.

Definition cbind {A B : Type} (c : checked A) (k : A -> checked B) : checked B :=
  match c with
  | Valid a => k a
  | ConfigError message => ConfigError message
  end.

Notation "x <-! c ;; k" := (cbind c (fun x => k))
  (at level 100, c at next level, right associativity).

(** [TriggerType(value)], [None] for its [ValueError], and [member.value]. *)
Definition TriggerType_value (member : TriggerType) : string :=
  match member with
  | EVENT => "event"
  | MINUTELY => "minutely"
  | HOURLY => "hourly"
  | DAILY => "daily"
  | WEEKLY => "weekly"
  | MONTHLY => "monthly"
  end.

Definition TriggerType_of (value : yaml) : option TriggerType :=
  match value with
  | YStr s =>
      List.find (fun member => String.eqb (TriggerType_value member) s)
        [EVENT; MINUTELY; HOURLY; DAILY; WEEKLY; MONTHLY]
  | _ => None
  end.

(** [s.split(sep)] for a one-character separator. *)
Fixpoint split (sep : ascii) (s : string) : list string :=
  match s with
  | EmptyString => [EmptyString]
  | String c s' =>
      if Ascii.eqb c sep then EmptyString :: split sep s'
      else
        match split sep s' with
        | part :: parts => String c part :: parts
        | [] => [String c EmptyString]
        end
  end.

Definition weekday_lookup : gmap string Z :=
  {[ "monday" := 0; "tuesday" := 1; "wednesday" := 2; "thursday" := 3;
     "friday" := 4; "saturday" := 5; "sunday" := 6 ]}.

(** Body of the loop of [_ensure_str_list]: [items] so far, or the error that
    left the loop. *)
Definition ensure_str (field_name : string) (items : checked (list string))
    (elem : yaml) : checked (list string) :=
  items <-! items ;;
  match elem with
  | YStr s => Valid (items ++ [s])%list
  | _ => ConfigError (field_name +:+ " must contain only strings")
  end.

Definition _ensure_str_list (value : yaml) (field_name : string)
  : checked (list string) :=
  match value with
  | YNone => Valid []
  | YStr s => Valid [s]
  | YSeq elems => foldl (ensure_str field_name) (Valid []) elems
  | _ => ConfigError (field_name +:+ " must be a list of strings")
  end.

Section Builtins.

(** [int(s)] on a string, [None] for its [ValueError]; [s.strip()] and
    [s.lower()].  The validators do not depend on what these accept. *)
Variable int : string -> option Z.
Variable strip : string -> string.
Variable lower : string -> string.

Definition _parse_time_field (value : yaml) (field_name : string) : checked dt_time :=
  match value with
  | YStr s =>
      let parts := split ":" s in
      if negb (bool_decide (length parts = 2%nat) || bool_decide (length parts = 3%nat))
      then ConfigError (field_name +:+ " must be in HH:MM or HH:MM:SS format")
      else
        match int (parts !!! 0%nat), int (parts !!! 1%nat),
              (if bool_decide (length parts = 3%nat) then int (parts !!! 2%nat) else Some 0)
        with
        | Some hour, Some minute, Some second =>
            if negb ((0 <=? hour) && (hour <=? 23) && (0 <=? minute) && (minute <=? 59)
                     && (0 <=? second) && (second <=? 59))
            then ConfigError (field_name +:+ " must specify a valid time of day")
            else Valid (mk_time hour minute second)
        | _, _, _ =>
            ConfigError (field_name +:+ " must contain numeric time components")
        end
  | _ => ConfigError (field_name +:+ " must be a string in HH:MM or HH:MM:SS format")
  end.

Definition _parse_weekday_field (value : yaml) (field_name : string) : checked Z :=
  match value with
  | YNone => ConfigError (field_name +:+ " is required for weekly triggers")
  | YStr s =>
      let normalized := lower (strip s) in
      match weekday_lookup !! normalized with
      | None => ConfigError (field_name +:+ " must be a weekday name or integer 0-6")
      | Some n => Valid n
      end
  | _ =>
      match as_int value with
      | Some n =>
          if (0 <=? n) && (n <=? 6) then Valid n
          else ConfigError
                 (field_name +:+ " integer must be between 0 (Monday) and 6 (Sunday)")
      | None => ConfigError (field_name +:+ " must be a weekday name or integer 0-6")
      end
  end.

Definition _parse_month_day_field (value : yaml) (field_name : string) : checked Z :=
  match value with
  | YNone => ConfigError (field_name +:+ " is required for monthly triggers")
  | _ =>
      match as_int value with
      | Some n =>
          if (1 <=? n) && (n <=? 31) then Valid n
          else ConfigError (field_name +:+ " must be between 1 and 31")
      | None => ConfigError (field_name +:+ " must be an integer between 1 and 31")
      end
  end.

Definition _parse_minute_field (value : yaml) (field_name : string) : checked Z :=
  match as_int value with
  | Some n =>
      if (0 <=? n) && (n <=? 59) then Valid n
      else ConfigError (field_name +:+ " must be between 0 and 59")
  | None => ConfigError (field_name +:+ " must be an integer between 0 and 59")
  end.

Definition _parse_action_trigger (raw : yaml) (action_index : nat)
  : checked ActionTriggerConfig :=
  let prefix := "actions[" +:+ pretty action_index +:+ "].trigger" in
  match raw with
  | YNone => Valid (mk_trigger EVENT None None None None)
  | YMap raw =>
      let trigger_type_raw := default (YStr (TriggerType_value EVENT)) (raw !! "type") in
      match TriggerType_of trigger_type_raw with
      | None =>
          ConfigError
            (prefix +:+ ".type must be one of: "
             +:+ "event, minutely, hourly, daily, weekly, monthly")
      | Some trigger_type =>
          if decide (trigger_type = EVENT)
          then Valid (mk_trigger trigger_type None None None None)
          else
            let time_value := get raw "time" in
            time_obj <-!
              match time_value with
              | YNone => Valid None
              | _ =>
                  t <-! _parse_time_field time_value (prefix +:+ ".time") ;;
                  Valid (Some t)
              end ;;
            _ <-!
              (if bool_decide (trigger_type ∈ [DAILY; WEEKLY; MONTHLY])
                  && bool_decide (time_obj = None)
               then ConfigError
                      (prefix +:+ ".time is required for "
                       +:+ TriggerType_value trigger_type +:+ " triggers")
               else Valid tt) ;;
            minute_value <-!
              (if decide (trigger_type = HOURLY) then
                 let minute_raw := get raw "minute" in
                 minute_value <-!
                   match minute_raw with
                   | YNone =>
                       Valid match time_obj with
                             | Some t => t_minute t
                             | None => 0
                             end
                   | _ => _parse_minute_field minute_raw (prefix +:+ ".minute")
                   end ;;
                 match time_obj with
                 | Some t =>
                     if negb (t_minute t =? minute_value)
                     then ConfigError
                            (prefix +:+ ".minute must match the minute in trigger.time")
                     else Valid (Some minute_value)
                 | None => Valid (Some minute_value)
                 end
               else Valid None) ;;
            by_type <-!
              (if decide (trigger_type = WEEKLY) then
                 w <-! _parse_weekday_field (get raw "weekday") (prefix +:+ ".weekday") ;;
                 Valid (Some w, None)
               else if decide (trigger_type = MONTHLY) then
                 d <-! _parse_month_day_field (get raw "day") (prefix +:+ ".day") ;;
                 Valid (None, Some d)
               else Valid (None, None)) ;;
            let '(weekday_value, day_value) := by_type in
            Valid (mk_trigger trigger_type time_obj weekday_value day_value minute_value)
      end
  | _ => ConfigError (prefix +:+ " must be a mapping")
  end.

End Builtins.

(** [int], [strip] and [lower] on the strings the examples use: decimal
    numerals without sign, blanks, and the letters A to Z. *)
Definition digit (c : ascii) : option Z :=
  let n := Z.of_N (N_of_ascii c) in
  if (48 <=? n) && (n <=? 57) then Some (n - 48) else None.

Fixpoint digits (acc : Z) (s : string) : option Z :=
  match s with
  | EmptyString => Some acc
  | String c s' =>
      match digit c with
      | Some d => digits (acc * 10 + d) s'
      | None => None
      end
  end.

Definition int_decimal (s : string) : option Z :=
  match s with
  | EmptyString => None
  | _ => digits 0 s
  end.

Fixpoint lstrip (s : string) : string :=
  match s with
  | String " " s' => lstrip s'
  | _ => s
  end.

Definition strip_blanks (s : string) : string :=
  String.rev (lstrip (String.rev (lstrip s))).

Definition lower_letter (c : ascii) : ascii :=
  let n := N_of_ascii c in
  if (65 <=? n)%N && (n <=? 90)%N then ascii_of_N (n + 32) else c.

Fixpoint lower_ascii (s : string) : string :=
  match s with
  | EmptyString => EmptyString
  | String c s' => String (lower_letter c) (lower_ascii s')
  end.

End Loader.

(** ** monitor.py: the polling loop *)

Module Loop.

Import Py Datetime Events Monitor Actions.
Local Open Scope Z_scope.

(** [MonitorStats]. *)
Record MonitorStats : Type := mk_stats {
  cycles : Z;
  events_emitted : Z
}.

(** [DirectoryMonitor]: the attributes [run] reads and writes.  The stop
    event is not an attribute here: [run] is handed the passes that the loop
    makes before it sees the event set. *)
Record DirectoryMonitor : Type := mk_monitor {
  _config : MonitorConfig;
  _actions : ActionRegistry;
  _snapshot : Snapshot;
  _stats : MonitorStats
}.

(** [DirectoryMonitor.__init__]. *)
Definition new_monitor (config : MonitorConfig) (actions : ActionRegistry)
  : DirectoryMonitor :=
  mk_monitor config actions ∅ (mk_stats 0 0).

(** What one pass of the loop observes: the tree as [_scan] finds it and the
    value of [datetime.now()]. *)
Record Tick : Type := mk_tick {
  seen : Filesystem;
  now : datetime
}.

Section Run.

Variable fnmatch : string -> string -> bool.

Definition _detect_changes (self : DirectoryMonitor) (fs : Filesystem)
  : list FileEvent * Snapshot :=
  let new_snapshot := _scan fnmatch (_config self) fs in
  let events := Monitor._diff_snapshots (_snapshot self) new_snapshot in
  (events, new_snapshot).

(** The body of the [while] loop of [run]; pacing ([time.time],
    [time.sleep]) leaves the state alone and is left out. *)
Definition cycle (self : DirectoryMonitor) (t : Tick) : M DirectoryMonitor :=
  let '(events, new_snapshot) := _detect_changes self (seen t) in
  for_each events
    (fun event =>
       dispatch_event (_actions self) event (Monitor.root_path (_config self))
         new_snapshot) ;;;
  dispatch_scheduled (_actions self) (now t) (Monitor.root_path (_config self))
    new_snapshot ;;;
  ret (mk_monitor (_config self) (_actions self) new_snapshot
         (mk_stats (cycles (_stats self) + 1)
            (events_emitted (_stats self) + Z.of_nat (length events)))).

(** The loop, for the passes made before the stop event is seen set: an
    exception leaves the loop, and the monitor as the last completed pass
    left it. *)
Fixpoint loop (self : DirectoryMonitor) (ticks : list Tick) (w : World)
  : result unit * DirectoryMonitor * World :=
  match ticks with
  | [] => (Ok tt, self, w)
  | t :: ticks' =>
      match cycle self t w with
      | (Ok self', w') => loop self' ticks' w'
      | (Raise e, w') => (Raise e, self, w')
      end
  end.

(** [DirectoryMonitor.run]: [startup] is the tree as the first scan finds
    it.  The [try] around the loop handles [KeyboardInterrupt] only, and its
    [finally] clause only logs; the log records of monitor.py are not part of
    the model, so an exception leaves [run] as it leaves the loop. *)
Definition run (self : DirectoryMonitor) (startup : Filesystem) (ticks : list Tick)
    (w : World) : result unit * DirectoryMonitor * World :=
  let self := mk_monitor (_config self) (_actions self)
                (_scan fnmatch (_config self) startup) (_stats self) in
  match prime_scheduled_snapshots (_actions self) (_snapshot self) w with
  | (Ok _, w') => loop self ticks w'
  | (Raise e, w') => (Raise e, self, w')
  end.

End Run.

End Loop.

(** ** Definitions used to state further properties

    Like [Spec], none of these is part of the program. *)

(** *** The instants a schedule names *)

Module Occurrences.

Import Py Datetime Config Scheduler Spec.
Local Open Scope Z_scope.

(** The configured second, minute and day of the month, with the defaults
    [_compute_next_run] falls back on. *)
Definition trigger_second (t : ActionTriggerConfig) : Z :=
  match Config.time t with Some x => t_second x | None => 0 end.

Definition trigger_minute (t : ActionTriggerConfig) : Z :=
  match Config.minute t with Some m => m | None => 0 end.

Definition trigger_day (t : ActionTriggerConfig) (reference : datetime) : Z :=
  match Config.day t with Some d => d | None => Datetime.day reference end.

Definition at_time_of_day (tod : dt_time) (d : datetime) : Prop :=
  hour d = t_hour tod /\ Datetime.minute d = t_minute tod /\
  second d = t_second tod /\ microsecond d = 0.

(** The instants a schedule names: every minute at the configured second,
    every hour at the configured minute and second, every day at the
    configured time, every week on the configured weekday, every month on the
    configured day or on the month's last day when it is shorter.
    [reference] only supplies the weekday or the day of a trigger that has
    none. *)
Definition occurrence (t : ActionTriggerConfig) (reference d : datetime) : Prop :=
  match Config.type t with
  | EVENT => False
  | MINUTELY => second d = trigger_second t /\ microsecond d = 0
  | HOURLY =>
      Datetime.minute d = trigger_minute t /\ second d = trigger_second t /\
      microsecond d = 0
  | DAILY => at_time_of_day (trigger_time_of_day t) d
  | WEEKLY =>
      at_time_of_day (trigger_time_of_day t) d /\
      Datetime.weekday d = trigger_weekday t reference
  | MONTHLY =>
      at_time_of_day (trigger_time_of_day t) d /\
      Datetime.day d
      = Z.min (trigger_day t reference) (_days_in_month (year d) (month d))
  end.

(** The longest wait a schedule can impose, in microseconds. *)
Definition period_micro (ty : TriggerType) : Z :=
  match ty with
  | EVENT => 0
  | MINUTELY => 60000000
  | HOURLY => 3600000000
  | DAILY => 86400000000
  | WEEKLY => 7 * 86400000000
  | MONTHLY => 31 * 86400000000
  end.

(** A weekly trigger names its weekday and a monthly one its day, as every
    trigger out of [_parse_action_trigger] does. *)
Definition self_contained (t : ActionTriggerConfig) : bool :=
  match Config.type t, Config.weekday t, Config.day t with
  | WEEKLY, None, _ => false
  | MONTHLY, _, None => false
  | _, _, _ => true
  end.

(** [c] is the first instant after [reference] that the schedule names, and
    it comes within one period.  Stated on the line of microseconds. *)
Definition first_after (t : ActionTriggerConfig) (reference c : datetime) : Prop :=
  valid_datetime c = true /\
  occurrence t reference c /\
  to_micro reference < to_micro c /\
  to_micro c <= to_micro reference + period_micro (Config.type t) /\
  forall d, valid_datetime d = true -> occurrence t reference d ->
    to_micro reference < to_micro d -> to_micro c <= to_micro d.

End Occurrences.

(** *** The registry *)

Module RegistryProps.

Import Py Datetime Config Scheduler Events Actions Spec.


(** The action object the constructor leaves for a configuration when it
    schedules against [now]. *)
Definition built_from (modules : Modules) (now : datetime) (config : ActionConfig)
    (a : Action) : Prop :=
  name a = cfg_name config /\ options a = cfg_options config /\
  trigger a = cfg_trigger config /\ previous_snapshot a = None /\
  (exists m, modules !! cfg_module config = Some m /\
             m !! cfg_function config = Some (Callable (callback a))) /\
  _compute_next_run (cfg_trigger config) now = Ok (next_run_at a).

(** An action once [prime_scheduled_snapshots] has passed over it. *)
Definition primed (snapshot : Snapshot) (a : Action) : Action :=
  mk_action (name a) (callback a) (options a) (trigger a) (next_run_at a)
    (Some (default snapshot (previous_snapshot a))).

(** No event-triggered action of the registry has a due time or a baseline. *)
Definition unset {A : Type} (o : option A) : bool :=
  match o with
  | None => true
  | Some _ => false
  end.

Definition listeners_unscheduled (w : World) (self : ActionRegistry) : bool :=
  forallb
    (fun r =>
       match objs w !! r with
       | Some a => unset (next_run_at a) && unset (previous_snapshot a)
       | None => true
       end)
    (_event_actions self).

(** Every time-triggered action of the registry has a due time after [now]. *)
Definition all_waiting (now : datetime) (w : World) (self : ActionRegistry) : bool :=
  forallb
    (fun r =>
       match objs w !! r with
       | Some a =>
           match next_run_at a with
           | Some next => datetime_lt now next
           | None => false
           end
       | None => false
       end)
    (_scheduled_actions self).

End RegistryProps.

(** *** The polling loop *)

Module LoopProps.

Import Py Datetime Events Monitor Actions Spec Loop.

(** The calls one batch of change records causes: every listener once per
    record, all listeners of a record with the context allocated for it. *)
Fixpoint listener_calls (listeners : list nat) (n : nat) (events : list FileEvent)
  : list (nat * nat) :=
  match events with
  | [] => []
  | _ :: events' =>
      ((fun r => (r, n)) <$> listeners) ++ listener_calls listeners (S n) events'
  end.

(** The change records of the successive passes. *)
Fixpoint changes_seen (fnmatch : string -> string -> bool) (config : MonitorConfig)
    (previous : Snapshot) (ticks : list Tick) : list (list FileEvent) :=
  match ticks with
  | [] => []
  | t :: ticks' =>
      let new_snapshot := _scan fnmatch config (seen t) in
      Monitor._diff_snapshots previous new_snapshot
      :: changes_seen fnmatch config new_snapshot ticks'
  end.

(** The snapshot after the last pass. *)
Definition last_scan (fnmatch : string -> string -> bool) (config : MonitorConfig)
    (previous : Snapshot) (ticks : list Tick) : Snapshot :=
  foldl (fun _ t => _scan fnmatch config (seen t)) previous ticks.

(** How often object [r] was called. *)
Definition times_called (r : nat) (calls : list (nat * nat)) : nat :=
  length (filter (fun rc => rc.1 = r) calls).

(** Every pass happens at a datetime before the last year of the range. *)
Definition timely (ticks : list Tick) : bool :=
  forallb (fun t => valid_datetime (now t) && (year (now t) <? MAXYEAR)%Z) ticks.

End LoopProps.

(** *** Change records as edits of a snapshot *)

Module Replay.

Import Events.

(** What a change record says about a snapshot: a created or modified file
    is there with the recorded modification time and size, a deleted one is
    gone. *)
Definition apply_event (s : Snapshot) (e : FileEvent) : Snapshot :=
  match event_type e with
  | CREATED | MODIFIED =>
      match mtime e, size e with
      | Some m, Some sz => <[path e := (m, sz)]> s
      | _, _ => s
      end
  | DELETED => delete (path e) s
  | MOVED => s
  end.

Definition replay (s : Snapshot) (events : list FileEvent) : Snapshot :=
  foldl apply_event s events.

End Replay.

(** ** More sample data *)

Module Fixtures.

Import Py Datetime Config Scheduler Events Monitor Actions Loader Loop Samples.
Local Open Scope string_scope.

(** A weekly trigger as it stands in a configuration file, and as the
    validator reads it. *)
Definition weekly_yaml : yaml :=
  YMap {[ "type" := YStr "weekly"; "time" := YStr "09:30";
          "weekday" := YStr " Wednesday " ]}.

Definition weekly_at_half_past_nine : ActionTriggerConfig :=
  mk_trigger WEEKLY (Some (mk_time 9 30 0)) (Some 2%Z) None None.

Definition a_week_later : datetime := mk_datetime 2024 5 15 9 0 0 0.
Definition mid_february : datetime := mk_datetime 2023 2 14 0 0 0 0.


(** A time-triggered action that was never scheduled. *)
Definition unscheduled_world : World :=
  mk_world [mk_action "tick" quiet ∅ every_minute None None] [] [].

Definition tick_registry : ActionRegistry := mk_registry [0] [] [0].

(** A monitored tree, seen twice: with one text file, a directory and a
    temporary file that the exclude pattern hides; and with two text
    files. *)
Definition text_files_only : MonitorConfig :=
  mk_monitor_config sample_root true [] ["*.tmp"].

Definition one_file : Filesystem :=
  mk_fs true
    [ mk_entry ["data"; "a.txt"] true (Some (100, 10)%Z);
      mk_entry ["data"; "raw"] false (Some (90, 0)%Z);
      mk_entry ["data"; "b.tmp"] true (Some (101, 5)%Z) ] [].

Definition two_files : Filesystem :=
  mk_fs true
    [ mk_entry ["data"; "a.txt"] true (Some (100, 10)%Z);
      mk_entry ["data"; "c.txt"] true (Some (102, 7)%Z) ] [].

Definition quiet_passes : list Tick :=
  [mk_tick one_file an_evening; mk_tick one_file eleven_pm].

Definition busy_passes : list Tick :=
  [mk_tick two_files an_evening; mk_tick one_file eleven_pm].

End Fixtures.

(** ** Proof automation *)

Ltac boolp :=
  repeat match goal with
  | H : _ && _ = true |- _ => apply andb_prop in H; destruct H
  | H : (_ <=? _)%Z = true |- _ => apply Z.leb_le in H
  | H : (_ <? _)%Z = true |- _ => apply Z.ltb_lt in H
  | H : (_ <=? _)%Z = false |- _ => apply Z.leb_gt in H
  | H : (_ <? _)%Z = false |- _ => apply Z.ltb_ge in H
  | H : (_ =? _)%Z = true |- _ => apply Z.eqb_eq in H
  | H : (_ =? _)%Z = false |- _ => apply Z.eqb_neq in H
  end.

(** Case analysis on a month number known to lie in 1..12. *)
Ltac month_cases m :=
  let H := fresh "Hm" in
  assert (H : (m = 1 \/ m = 2 \/ m = 3 \/ m = 4 \/ m = 5 \/ m = 6 \/ m = 7 \/
               m = 8 \/ m = 9 \/ m = 10 \/ m = 11 \/ m = 12)%Z) by lia;
  repeat (destruct H as [H | H]); subst m.

(** Fold sums of two literals, which [cbn] leaves alone. *)
Ltac znorm :=
  repeat match goal with
  | |- context [Z.add (Zpos ?a) (Zpos ?b)] =>
      let v := eval vm_compute in (Z.add (Zpos a) (Zpos b)) in
      change (Z.add (Zpos a) (Zpos b)) with v
  | H : context [Z.add (Zpos ?a) (Zpos ?b)] |- _ =>
      let v := eval vm_compute in (Z.add (Zpos a) (Zpos b)) in
      change (Z.add (Zpos a) (Zpos b)) with v in H
  end.

(** ** The calendar *)

Section CalendarFacts.

Import Py Datetime Spec.
Local Open Scope Z_scope.

(** Leap years: divisible by 4, and not by 100 unless by 400. *)
Lemma is_leap_spec y :
  _is_leap y = true <-> (y mod 4 = 0 /\ (y mod 100 <> 0 \/ y mod 400 = 0)).
Proof.
  unfold _is_leap. rewrite andb_true_iff, orb_true_iff, negb_true_iff.
  rewrite !Z.eqb_eq, Z.eqb_neq. tauto.
Qed.

(** A year is 365 or 366 days long. *)
Lemma days_before_year_step y :
  _days_before_year (y + 1) = _days_before_year y + (if _is_leap y then 366 else 365).
Proof.
  unfold _days_before_year, _is_leap. cbv zeta.
  replace (y + 1 - 1) with y by lia.
  destruct (Z.eqb_spec (y mod 4) 0), (Z.eqb_spec (y mod 100) 0), (Z.eqb_spec (y mod 400) 0);
    cbn [andb orb negb]; Z.div_mod_to_equations; lia.
Qed.

Lemma days_before_year_mono a b : a <= b -> _days_before_year a <= _days_before_year b.
Proof. unfold _days_before_year. cbv zeta. intros. Z.div_mod_to_equations. lia. Qed.

Lemma check_date_fields_spec y m d :
  check_date_fields y m d = true <->
  1 <= y <= 9999 /\ 1 <= m <= 12 /\ 1 <= d <= _days_in_month y m.
Proof.
  unfold check_date_fields, MINYEAR, MAXYEAR.
  rewrite !andb_true_iff, !Z.leb_le. tauto.
Qed.

Lemma check_time_fields_spec h mi s us :
  check_time_fields h mi s us = true <->
  0 <= h <= 23 /\ 0 <= mi <= 59 /\ 0 <= s <= 59 /\ 0 <= us <= 999999.
Proof.
  unfold check_time_fields. rewrite !andb_true_iff, !Z.leb_le. tauto.
Qed.

(** A valid date is one of the days of its year. *)
Lemma day_of_year_bound y m d :
  check_date_fields y m d = true ->
  1 <= _days_before_month y m + d <= (if _is_leap y then 366 else 365).
Proof.
  rewrite check_date_fields_spec. intros (Hy & Hm & Hd).
  unfold _days_before_month, _days_in_month in *.
  month_cases m; cbn in *; destruct (_is_leap y); cbn in *; lia.
Qed.

(** The ordinal of a date grows with the year and, within a year, with the month. *)
Lemma ymd2ord_year_lt y1 m1 d1 y2 m2 d2 :
  check_date_fields y1 m1 d1 = true -> check_date_fields y2 m2 d2 = true ->
  y1 < y2 -> _ymd2ord y1 m1 d1 < _ymd2ord y2 m2 d2.
Proof.
  intros H1 H2 Hlt. unfold _ymd2ord.
  pose proof (day_of_year_bound _ _ _ H1). pose proof (day_of_year_bound _ _ _ H2).
  pose proof (days_before_year_step y1).
  pose proof (days_before_year_mono (y1 + 1) y2 ltac:(lia)).
  destruct (_is_leap y1), (_is_leap y2); lia.
Qed.

Lemma ymd2ord_month_lt y m1 d1 m2 d2 :
  check_date_fields y m1 d1 = true -> check_date_fields y m2 d2 = true ->
  m1 < m2 -> _ymd2ord y m1 d1 < _ymd2ord y m2 d2.
Proof.
  rewrite !check_date_fields_spec. intros (Hy & Hm1 & Hd1) (_ & Hm2 & Hd2) Hlt.
  unfold _ymd2ord, _days_before_month, _days_in_month in *.
  month_cases m1; month_cases m2; try lia; cbn in *; destruct (_is_leap y); cbn in *; lia.
Qed.

Lemma valid_datetime_spec d :
  valid_datetime d = true <->
  check_date_fields (year d) (month d) (day d) = true /\
  0 <= hour d <= 23 /\ 0 <= minute d <= 59 /\ 0 <= second d <= 59 /\
  0 <= microsecond d <= 999999.
Proof.
  unfold valid_datetime. rewrite andb_true_iff, check_time_fields_spec. tauto.
Qed.

(** Comparing two dates field by field is comparing their ordinals, *)
Lemma date_compare_ordinal a b :
  valid_datetime a = true -> valid_datetime b = true ->
  date_compare a b = (toordinal a ?= toordinal b).
Proof.
  rewrite !valid_datetime_spec. intros (Ha & _) (Hb & _).
  unfold date_compare, toordinal, lex.
  destruct (Z.compare_spec (year a) (year b)) as [Hy | Hy | Hy].
  - rewrite Hy in *.
    destruct (Z.compare_spec (month a) (month b)) as [Hm | Hm | Hm].
    + rewrite Hm. unfold _ymd2ord. rewrite Z.add_compare_mono_l. reflexivity.
    + symmetry. apply Z.compare_lt_iff. now apply ymd2ord_month_lt.
    + symmetry. apply Z.compare_gt_iff. now apply ymd2ord_month_lt.
  - symmetry. apply Z.compare_lt_iff. now apply ymd2ord_year_lt.
  - symmetry. apply Z.compare_gt_iff. now apply ymd2ord_year_lt.
Qed.

(** and comparing two datetimes is comparing their positions on the line. *)
Lemma datetime_compare_micro a b :
  valid_datetime a = true -> valid_datetime b = true ->
  datetime_compare a b = (to_micro a ?= to_micro b).
Proof.
  intros Ha Hb. unfold datetime_compare.
  rewrite (date_compare_ordinal a b Ha Hb).
  apply valid_datetime_spec in Ha, Hb.
  destruct Ha as (_ & ? & ? & ? & ?), Hb as (_ & ? & ? & ? & ?).
  unfold to_micro, tod_compare, lex.
  generalize (toordinal a) (toordinal b). intros oa ob.
  symmetry.
  repeat match goal with
  | |- context [?x ?= ?y] =>
      lazymatch x with
      | (_ + _) => fail
      | _ => destruct (Z.compare_spec x y)
      end
  end;
  first [ apply Z.compare_eq_iff | apply Z.compare_lt_iff | apply Z.compare_gt_iff ]; lia.
Qed.

Lemma datetime_le_micro a b :
  valid_datetime a = true -> valid_datetime b = true ->
  datetime_le a b = true <-> to_micro a <= to_micro b.
Proof.
  intros Ha Hb. unfold datetime_le. rewrite (datetime_compare_micro a b Ha Hb).
  destruct (Z.compare_spec (to_micro a) (to_micro b)); split; intros; try lia; congruence.
Qed.

Lemma datetime_lt_micro a b :
  valid_datetime a = true -> valid_datetime b = true ->
  datetime_lt a b = true <-> to_micro a < to_micro b.
Proof.
  intros Ha Hb. unfold datetime_lt. rewrite (datetime_compare_micro a b Ha Hb).
  destruct (Z.compare_spec (to_micro a) (to_micro b)); split; intros; try lia; congruence.
Qed.

Lemma datetime_le_false_micro a b :
  valid_datetime a = true -> valid_datetime b = true ->
  datetime_le a b = false <-> to_micro b < to_micro a.
Proof.
  intros Ha Hb. pose proof (datetime_le_micro a b Ha Hb) as H.
  destruct (datetime_le a b); split; intros Hx; try congruence.
  - assert (to_micro a <= to_micro b) by (apply H; reflexivity). lia.
  - destruct (Z_lt_le_dec (to_micro b) (to_micro a)) as [Hlt | Hle]; [assumption|].
    apply H in Hle. discriminate.
Qed.

(** Before 9999-12-31 the following calendar day exists and is one ordinal further. *)
Lemma next_day_ordinal y m d :
  check_date_fields y m d = true ->
  _ymd2ord y m d < MAXORDINAL ->
  exists y' m' d', next_day (y, m, d) = Ok (y', m', d') /\
    check_date_fields y' m' d' = true /\
    _ymd2ord y' m' d' = _ymd2ord y m d + 1.
Proof.
  intros Hv Hord. pose proof Hv as Hv'.
  apply check_date_fields_spec in Hv' as (Hy & Hm & Hd).
  unfold next_day.
  destruct (Z.ltb_spec d (_days_in_month y m)).
  { exists y, m, (d + 1). split; [reflexivity|]. split.
    - apply check_date_fields_spec. lia.
    - unfold _ymd2ord. lia. }
  destruct (Z.ltb_spec m 12).
  { exists y, (m + 1), 1. split; [reflexivity|]. split.
    - apply check_date_fields_spec. repeat split; try lia.
      unfold _days_in_month. month_cases m; try lia; znorm; cbn; destruct (_is_leap y); cbn; lia.
    - unfold _ymd2ord, _days_before_month, _days_in_month in *.
      month_cases m; try lia; znorm; cbn in *; destruct (_is_leap y); cbn in *; lia. }
  assert (m = 12) by lia. subst m.
  assert (d = 31) by (unfold _days_in_month in *; cbn in *; lia). subst d.
  unfold MAXYEAR. destruct (Z.ltb_spec y 9999).
  { exists (y + 1), 1, 1. split; [reflexivity|]. split.
    - apply check_date_fields_spec. unfold _days_in_month; cbn. lia.
    - unfold _ymd2ord. rewrite days_before_year_step.
      unfold _days_before_month. cbn. destruct (_is_leap y); cbn; lia. }
  assert (y = 9999) by lia. subst y. vm_compute in Hord. discriminate.
Qed.

(** Whenever [next_day] returns, it returns the date one ordinal further. *)
Lemma next_day_inv ymd ymd' :
  next_day ymd = Ok ymd' ->
  check_date_fields (ymd.1.1) (ymd.1.2) (ymd.2) = true ->
  check_date_fields (ymd'.1.1) (ymd'.1.2) (ymd'.2) = true /\
  _ymd2ord (ymd'.1.1) (ymd'.1.2) (ymd'.2) = _ymd2ord (ymd.1.1) (ymd.1.2) (ymd.2) + 1.
Proof.
  destruct ymd as [[y m] d]. cbn [fst snd]. intros Hn Hv.
  destruct (Z_lt_le_dec (_ymd2ord y m d) MAXORDINAL) as [Hlt | Hge].
  - destruct (next_day_ordinal y m d Hv Hlt) as (y' & m' & d' & Heq & Hv' & Ho).
    rewrite Heq in Hn. injection Hn as <-. cbn [fst snd]. auto.
  - exfalso. pose proof Hv as Hv'.
    apply check_date_fields_spec in Hv' as (Hy & Hm & Hd).
    destruct (Z.eq_dec y 9999) as [-> | Hne].
    + pose proof (day_of_year_bound _ _ _ Hv) as Hb.
      unfold _ymd2ord, MAXORDINAL in Hge.
      change (_is_leap 9999) with false in Hb.
      change (_days_before_year 9999) with 3651694 in Hge.
      assert (Hdoy : _days_before_month 9999 m + d = 365) by lia.
      unfold next_day, MAXYEAR in Hn.
      unfold _days_before_month, _days_in_month in *.
      change (_is_leap 9999) with false in *.
      month_cases m; cbn in *; try lia.
      destruct (Z.ltb_spec d 31); [lia|]. discriminate.
    + pose proof (ymd2ord_year_lt y m d 9999 12 31 Hv eq_refl ltac:(lia)) as Hlt.
      change (_ymd2ord 9999 12 31) with 3652059 in Hlt. unfold MAXORDINAL in Hge. lia.
Qed.

(** [date_add_days] is [fromordinal (toordinal + n)]. *)
Lemma date_add_days_inv n : forall ymd ymd',
  date_add_days ymd n = Ok ymd' ->
  check_date_fields (ymd.1.1) (ymd.1.2) (ymd.2) = true ->
  check_date_fields (ymd'.1.1) (ymd'.1.2) (ymd'.2) = true /\
  _ymd2ord (ymd'.1.1) (ymd'.1.2) (ymd'.2)
  = _ymd2ord (ymd.1.1) (ymd.1.2) (ymd.2) + Z.of_nat n.
Proof.
  induction n as [| n IH]; intros ymd ymd' Hadd Hv.
  - cbn in Hadd. injection Hadd as <-. split; [assumption | lia].
  - cbn [date_add_days] in Hadd. unfold Py.bind in Hadd.
    destruct (next_day ymd) as [mid |] eqn:Hn; [| discriminate].
    destruct (next_day_inv _ _ Hn Hv) as [Hv1 Ho1].
    destruct (IH _ _ Hadd Hv1) as [Hv2 Ho2].
    split; [assumption | lia].
Qed.

Lemma date_add_days_ok n : forall ymd,
  check_date_fields (ymd.1.1) (ymd.1.2) (ymd.2) = true ->
  _ymd2ord (ymd.1.1) (ymd.1.2) (ymd.2) + Z.of_nat n <= MAXORDINAL ->
  exists ymd', date_add_days ymd n = Ok ymd'.
Proof.
  induction n as [| n IH]; intros [[y m] d] Hv Hle; cbn [fst snd] in *.
  - eexists. reflexivity.
  - destruct (next_day_ordinal y m d Hv ltac:(lia)) as (y' & m' & d' & Hn & Hv' & Ho).
    cbn [date_add_days]. rewrite Hn. cbn [Py.bind].
    apply IH; cbn [fst snd]; [assumption | lia].
Qed.

(** Adding a non-negative delta moves an instant by exactly that delta, *)
Lemma datetime_add_inv a t r :
  valid_datetime a = true -> nonneg_delta t ->
  datetime_add a t = Ok r ->
  valid_datetime r = true /\ to_micro r = to_micro a + delta_micro t.
Proof.
  intros Ha (Hd & Hs & Hu) Hadd. pose proof Ha as Ha'.
  apply valid_datetime_spec in Ha' as (Hdate & Hh & Hmi & Hse & Hus).
  unfold datetime_add in Hadd. cbv zeta in Hadd. unfold Py.bind in Hadd.
  match type of Hadd with
  | context [date_add_days ?x ?k] => destruct (date_add_days x k) as [[[y m] d] |] eqn:Hdays
  end; [| discriminate].
  apply date_add_days_inv in Hdays; [| exact Hdate]. cbn [fst snd] in Hdays.
  destruct Hdays as [Hv Ho].
  injection Hadd as <-. split.
  - apply valid_datetime_spec. cbn [year month day hour minute second microsecond].
    split; [exact Hv|]. Z.div_mod_to_equations. lia.
  - unfold to_micro, delta_micro, toordinal.
    cbn [year month day hour minute second microsecond].
    rewrite Ho. rewrite Z2Nat.id by (Z.div_mod_to_equations; lia).
    Z.div_mod_to_equations. lia.
Qed.

(** and returns as long as the sum stays inside the datetime range. *)
Lemma datetime_add_ok a t :
  valid_datetime a = true -> nonneg_delta t ->
  to_micro a + delta_micro t < END_OF_TIME ->
  exists r, datetime_add a t = Ok r.
Proof.
  intros Ha (Hd & Hs & Hu) Hlt. pose proof Ha as Ha'.
  apply valid_datetime_spec in Ha' as (Hdate & Hh & Hmi & Hse & Hus).
  unfold datetime_add. cbv zeta.
  match goal with
  | |- context [date_add_days ?x ?k] =>
      destruct (date_add_days_ok k x) as [[[y m] d] Hok]
  end.
  - exact Hdate.
  - cbn [fst snd]. rewrite Z2Nat.id by (Z.div_mod_to_equations; lia).
    unfold END_OF_TIME, to_micro, delta_micro, toordinal, MAXORDINAL in *.
    Z.div_mod_to_equations. lia.
  - rewrite Hok. cbn [Py.bind]. eexists. reflexivity.
Qed.

(** Dates before year 9999 end at 9998-12-31. *)
Lemma toordinal_before_last_year a :
  valid_datetime a = true -> year a < 9999 -> toordinal a <= 3651694.
Proof.
  intros Ha Hy. apply valid_datetime_spec in Ha as (Hdate & _).
  pose proof (day_of_year_bound _ _ _ Hdate) as Hb.
  pose proof (days_before_year_step (year a)) as Hs.
  pose proof (days_before_year_mono (year a + 1) 9999 ltac:(lia)) as Hm.
  change (_days_before_year 9999) with 3651694 in Hm.
  unfold toordinal, _ymd2ord. destruct (_is_leap (year a)); lia.
Qed.

Lemma toordinal_pos a : valid_datetime a = true -> 1 <= toordinal a <= MAXORDINAL.
Proof.
  intros Ha. apply valid_datetime_spec in Ha as (Hdate & _).
  pose proof (day_of_year_bound _ _ _ Hdate) as Hb.
  pose proof Hdate as Hd'. apply check_date_fields_spec in Hd' as (Hy & _).
  pose proof (days_before_year_mono 1 (year a) ltac:(lia)) as H1.
  pose proof (days_before_year_mono (year a) 9999 ltac:(lia)) as H2.
  change (_days_before_year 9999) with 3651694 in H2.
  change (_days_before_year 1) with 0 in H1.
  unfold toordinal, _ymd2ord, MAXORDINAL.
  destruct (Z.eq_dec (year a) 9999) as [E | E].
  - rewrite E in *. change (_is_leap 9999) with false in Hb.
    change (_days_before_year 9999) with 3651694. lia.
  - pose proof (days_before_year_step (year a)) as Hs.
    pose proof (days_before_year_mono (year a + 1) 9999 ltac:(lia)) as Hm.
    change (_days_before_year 9999) with 3651694 in Hm.
    destruct (_is_leap (year a)); lia.
Qed.

End CalendarFacts.

(** ** The trigger scheduler *)

Section SchedulerFacts.

Import Py Datetime Config Scheduler Spec Samples.
Local Open Scope Z_scope.

Lemma delta_micro_new d h mi s :
  delta_micro (timedelta_new d h mi s) = (d * 86400 + h * 3600 + mi * 60 + s) * 1000000.
Proof.
  unfold delta_micro, timedelta_new. cbv zeta. cbn [days seconds microseconds].
  Z.div_mod_to_equations. lia.
Qed.

Lemma nonneg_delta_new d h mi s :
  0 <= d -> 0 <= h * 3600 + mi * 60 + s -> nonneg_delta (timedelta_new d h mi s).
Proof.
  intros. unfold nonneg_delta, timedelta_new. cbv zeta. cbn [days seconds microseconds].
  Z.div_mod_to_equations. lia.
Qed.

Lemma replace_ok (r : datetime) h mi s us :
  valid_datetime r = true ->
  check_time_fields (default (hour r) h) (default (Datetime.minute r) mi)
    (default (second r) s) (default (microsecond r) us) = true ->
  replace r h mi s us
  = Ok (mk_datetime (year r) (month r) (Datetime.day r) (default (hour r) h)
          (default (Datetime.minute r) mi) (default (second r) s) (default (microsecond r) us)).
Proof.
  intros Hr Ht. apply valid_datetime_spec in Hr as (Hd & _).
  unfold replace, datetime_new. rewrite Hd, Ht. reflexivity.
Qed.

(** If the advanced candidate lies after the reference, so does whatever the
    branch returns. *)
Lemma advance_if_due_after base reference delta res :
  valid_datetime base = true -> valid_datetime reference = true ->
  nonneg_delta delta ->
  to_micro reference < to_micro base + delta_micro delta ->
  advance_if_due base reference delta = Ok res ->
  exists c, res = Some c /\ valid_datetime c = true /\ datetime_lt reference c = true.
Proof.
  intros Hb Hr Hd Hlt. unfold advance_if_due.
  destruct (datetime_le base reference) eqn:Hle.
  - unfold Py.bind. destruct (datetime_add base delta) as [c |] eqn:Hadd; [| discriminate].
    intros [= <-]. destruct (datetime_add_inv _ _ _ Hb Hd Hadd) as [Hc Hm].
    exists c. repeat split; [assumption|]. apply datetime_lt_micro; [assumption..|]. lia.
  - intros [= <-]. exists base. repeat split; [assumption|].
    apply datetime_le_false_micro in Hle; [| assumption..].
    apply datetime_lt_micro; assumption.
Qed.

Lemma advance_if_due_returns base reference delta :
  valid_datetime base = true -> valid_datetime reference = true ->
  nonneg_delta delta ->
  to_micro reference + delta_micro delta < END_OF_TIME ->
  exists res, advance_if_due base reference delta = Ok res.
Proof.
  intros Hb Hr Hd Hlt. unfold advance_if_due.
  destruct (datetime_le base reference) eqn:Hle; [| eexists; reflexivity].
  apply datetime_le_micro in Hle; [| assumption..].
  destruct (datetime_add_ok base delta Hb Hd ltac:(lia)) as [c Hc].
  rewrite Hc. cbn. eexists. reflexivity.
Qed.

Lemma to_micro_same_date (r : datetime) h mi s us :
  to_micro (mk_datetime (year r) (month r) (Datetime.day r) h mi s us)
  = (toordinal r * 86400 + h * 3600 + mi * 60 + s) * 1000000 + us.
Proof. reflexivity. Qed.

Lemma valid_same_date (r : datetime) h mi s us :
  valid_datetime r = true -> check_time_fields h mi s us = true ->
  valid_datetime (mk_datetime (year r) (month r) (Datetime.day r) h mi s us) = true.
Proof.
  intros Hr Ht. apply valid_datetime_spec in Hr as (Hd & _).
  unfold valid_datetime. cbn. rewrite Hd, Ht. reflexivity.
Qed.

Lemma before_last_year_micro r :
  valid_datetime r = true -> year r < 9999 ->
  to_micro r < 3651695 * 86400000000.
Proof.
  intros Hr Hy. pose proof (toordinal_before_last_year r Hr Hy).
  apply valid_datetime_spec in Hr as (_ & ? & ? & ? & ?).
  unfold to_micro. lia.
Qed.

(** The ranges of a validated trigger, as propositions. *)
Lemma validated_trigger_spec t :
  validated_trigger t = true ->
  (forall tod, Config.time t = Some tod ->
     0 <= t_hour tod <= 23 /\ 0 <= t_minute tod <= 59 /\ 0 <= t_second tod <= 59) /\
  (forall w, Config.weekday t = Some w -> 0 <= w <= 6) /\
  (forall d, Config.day t = Some d -> 1 <= d <= 31) /\
  (forall m, Config.minute t = Some m -> 0 <= m <= 59).
Proof.
  unfold validated_trigger, opt_in_range, valid_time. intros H.
  destruct t as [ty tm wd dy mn]. cbn in *.
  destruct tm as [tod |], wd as [w |], dy as [d |], mn as [m |]; boolp;
    (split; [| split; [| split]]); intros ? Heq; inversion Heq; subst; lia.
Qed.

Lemma time_of_day_bounds t :
  validated_trigger t = true ->
  let tod := match Config.time t with Some x => x | None => _DEFAULT_TIME end in
  0 <= t_hour tod <= 23 /\ 0 <= t_minute tod <= 59 /\ 0 <= t_second tod <= 59.
Proof.
  intros Hv. apply validated_trigger_spec in Hv as (Ht & _).
  destruct (Config.time t) as [tod |]; cbn; [eauto | lia].
Qed.

Lemma trigger_second_bounds t :
  validated_trigger t = true ->
  0 <= match Config.time t with Some x => t_second x | None => 0 end <= 59.
Proof.
  intros Hv. apply validated_trigger_spec in Hv as (Ht & _).
  destruct (Config.time t) as [tod |]; [destruct (Ht tod eq_refl) as (_ & _ & ?)|]; lia.
Qed.

Lemma trigger_minute_bounds t :
  validated_trigger t = true ->
  0 <= match Config.minute t with Some m => m | None => 0 end <= 59.
Proof.
  intros Hv. apply validated_trigger_spec in Hv as (_ & _ & _ & Hm).
  destruct (Config.minute t) as [m |]; [pose proof (Hm m eq_refl)|]; lia.
Qed.

Lemma check_time_fields_intro h mi s us :
  0 <= h <= 23 -> 0 <= mi <= 59 -> 0 <= s <= 59 -> 0 <= us <= 999999 ->
  check_time_fields h mi s us = true.
Proof. intros. apply check_time_fields_spec. tauto. Qed.

Lemma monthrange_days_in_month y m :
  1 <= m <= 12 -> monthrange_ndays y m = _days_in_month y m.
Proof.
  intros Hm. unfold monthrange_ndays, _days_in_month.
  month_cases m; cbn; destruct (_is_leap y); reflexivity.
Qed.

Lemma days_in_month_pos y m : 1 <= m <= 12 -> 28 <= _days_in_month y m <= 31.
Proof.
  intros Hm. unfold _days_in_month.
  month_cases m; cbn; destruct (_is_leap y); cbn; lia.
Qed.

(** [_clamped_month_datetime] on a valid year and month. *)
Lemma clamped_month_datetime_ok y m d tod :
  1 <= y <= 9999 -> 1 <= m <= 12 -> 1 <= d ->
  0 <= t_hour tod <= 23 -> 0 <= t_minute tod <= 59 -> 0 <= t_second tod <= 59 ->
  _clamped_month_datetime y m d tod
  = Ok (mk_datetime y m (Z.min d (_days_in_month y m))
          (t_hour tod) (t_minute tod) (t_second tod) 0).
Proof.
  intros Hy Hm Hd Hh Hmi Hs. unfold _clamped_month_datetime, datetime_new. cbv zeta.
  rewrite (monthrange_days_in_month y m Hm).
  pose proof (days_in_month_pos y m Hm).
  replace (check_date_fields y m (Z.min d (_days_in_month y m))) with true
    by (symmetry; apply check_date_fields_spec; lia).
  rewrite check_time_fields_intro by lia. reflexivity.
Qed.

(** Whatever the scheduler returns for a schedule is a datetime after the
    reference. *)
Lemma compute_next_run_after trigger reference res :
  validated_trigger trigger = true -> valid_datetime reference = true ->
  Config.type trigger <> EVENT ->
  _compute_next_run trigger reference = Ok res ->
  exists c, res = Some c /\ valid_datetime c = true /\ datetime_lt reference c = true.
Proof.
  intros Hv Href Hty.
  pose proof (validated_trigger_spec _ Hv) as (Htime & Hwd & Hday & Hmin).
  pose proof (time_of_day_bounds _ Hv) as Htod. cbv zeta in Htod.
  pose proof Href as Href'.
  apply valid_datetime_spec in Href' as (Hdate & Hh & Hmi & Hs & Hus).
  pose proof (toordinal_pos _ Href) as Hord.
  unfold _compute_next_run.
  destruct (decide (Config.type trigger = EVENT)); [contradiction|].
  destruct (decide (Config.type trigger = MINUTELY)).
  { set (sec := match Config.time trigger with Some t => t_second t | None => 0 end).
    assert (Hsec : 0 <= sec <= 59) by (apply trigger_second_bounds; assumption).
    rewrite replace_ok by (try assumption; cbn [default from_option id]; apply check_time_fields_intro; lia).
    cbn [default from_option id Py.bind].
    apply advance_if_due_after; try assumption.
    - apply valid_same_date; [assumption|]. apply check_time_fields_intro; lia.
    - apply nonneg_delta_new; lia.
    - rewrite delta_micro_new, to_micro_same_date. unfold to_micro. lia. }
  destruct (decide (Config.type trigger = HOURLY)).
  { set (sec := match Config.time trigger with Some t => t_second t | None => 0 end).
    set (mn := match Config.minute trigger with Some m => m | None => 0 end).
    assert (Hsec : 0 <= sec <= 59) by (apply trigger_second_bounds; assumption).
    assert (Hmn : 0 <= mn <= 59) by (apply trigger_minute_bounds; assumption).
    rewrite replace_ok by (try assumption; cbn [default from_option id]; apply check_time_fields_intro; lia).
    cbn [default from_option id Py.bind].
    apply advance_if_due_after; try assumption.
    - apply valid_same_date; [assumption|]. apply check_time_fields_intro; lia.
    - apply nonneg_delta_new; lia.
    - rewrite delta_micro_new, to_micro_same_date. unfold to_micro. lia. }
  set (tod := match Config.time trigger with Some t => t | None => _DEFAULT_TIME end) in *.
  destruct Htod as (Hth & Htm & Hts).
  rewrite replace_ok by (try assumption; cbn [default from_option id]; apply check_time_fields_intro; lia).
  cbn [default from_option id Py.bind].
  set (base := mk_datetime _ _ _ _ _ _ _).
  assert (Hbase : valid_datetime base = true)
    by (apply valid_same_date; [assumption|]; apply check_time_fields_intro; lia).
  assert (Hbm : to_micro base
                = (toordinal reference * 86400 + t_hour tod * 3600 + t_minute tod * 60
                   + t_second tod) * 1000000 + 0) by reflexivity.
  destruct (decide (Config.type trigger = DAILY)).
  { apply advance_if_due_after; try assumption.
    - apply nonneg_delta_new; lia.
    - rewrite delta_micro_new, Hbm. unfold to_micro. lia. }
  destruct (decide (Config.type trigger = WEEKLY)).
  { set (ahead := (_ - _) mod 7).
    assert (Hahead : 0 <= ahead < 7) by (subst ahead; apply Z.mod_pos_bound; lia).
    unfold Py.bind at 1.
    destruct (datetime_add base (timedelta_new ahead 0 0 0)) as [cand |] eqn:Hadd;
      [| discriminate].
    destruct (datetime_add_inv _ _ _ Hbase (nonneg_delta_new ahead 0 0 0 ltac:(lia) ltac:(lia)) Hadd)
      as [Hcand Hcm].
    rewrite delta_micro_new in Hcm.
    apply advance_if_due_after; try assumption.
    - apply nonneg_delta_new; lia.
    - rewrite delta_micro_new, Hcm, Hbm. unfold to_micro. lia. }
  destruct (decide (Config.type trigger = MONTHLY)).
  2: { destruct (Config.type trigger); congruence. }
  set (dom := match Config.day trigger with Some d => d | None => Datetime.day reference end).
  assert (Hdom : 1 <= dom).
  { subst dom. destruct (Config.day trigger) as [d |]; [pose proof (Hday d eq_refl); lia|].
    apply check_date_fields_spec in Hdate. lia. }
  pose proof Hdate as Hdate'. apply check_date_fields_spec in Hdate' as (Hy & Hm & Hd).
  cbn [Datetime.year Datetime.month base].
  rewrite clamped_month_datetime_ok by (try assumption; lia).
  cbn [Py.bind].
  set (cand := mk_datetime _ _ _ _ _ _ _).
  assert (Hcand : valid_datetime cand = true).
  { apply valid_datetime_spec. cbn. pose proof (days_in_month_pos (Datetime.year reference) _ Hm).
    rewrite check_date_fields_spec. lia. }
  destruct (datetime_le cand reference) eqn:Hle.
  2: { intros [= <-]. exists cand. repeat split; [assumption|].
       apply datetime_le_false_micro in Hle; [| assumption..].
       apply datetime_lt_micro; assumption. }
  destruct (Z.ltb_spec 12 (Datetime.month reference + 1)) as [Hwrap | Hwrap].
  - unfold _clamped_month_datetime, datetime_new. cbv zeta.
    destruct (check_date_fields _ _ _ && check_time_fields _ _ _ _) eqn:Hchk; [| discriminate].
    cbn [Py.bind]. intros [= <-]. eexists. split; [reflexivity|].
    split; [exact Hchk|].
    unfold datetime_lt, datetime_compare, date_compare, lex.
    cbn [Datetime.year Datetime.month].
    destruct (Z.compare_spec (Datetime.year reference) (Datetime.year reference + 1));
      try lia; reflexivity.
  - unfold _clamped_month_datetime, datetime_new. cbv zeta.
    destruct (check_date_fields _ _ _ && check_time_fields _ _ _ _) eqn:Hchk; [| discriminate].
    cbn [Py.bind]. intros [= <-]. eexists. split; [reflexivity|].
    split; [exact Hchk|].
    unfold datetime_lt, datetime_compare, date_compare, lex.
    cbn [Datetime.year Datetime.month].
    rewrite Z.compare_refl.
    destruct (Z.compare_spec (Datetime.month reference) (Datetime.month reference + 1));
      try lia; reflexivity.
Qed.

(** Up to 9999-11-30 the scheduler returns. *)
Lemma compute_next_run_returns_ordinal trigger reference :
  validated_trigger trigger = true -> valid_datetime reference = true ->
  toordinal reference <= LAST_SAFE_ORDINAL ->
  exists res, _compute_next_run trigger reference = Ok res.
Proof.
  intros Hv Href Hordmax. unfold LAST_SAFE_ORDINAL in Hordmax.
  pose proof (validated_trigger_spec _ Hv) as (Htime & Hwd & Hday & Hmin).
  pose proof (time_of_day_bounds _ Hv) as Htod. cbv zeta in Htod.
  pose proof (trigger_second_bounds _ Hv) as Hsec.
  pose proof (trigger_minute_bounds _ Hv) as Hmn.
  pose proof Href as Href'.
  apply valid_datetime_spec in Href' as (Hdate & Hh & Hmi & Hs & Hus).
  pose proof (toordinal_pos _ Href) as Hord.
  assert (Hend : to_micro reference < 3652029 * 86400000000) by (unfold to_micro; lia).
  unfold _compute_next_run.
  destruct (decide (Config.type trigger = EVENT)); [eexists; reflexivity|].
  destruct (decide (Config.type trigger = MINUTELY)).
  { rewrite replace_ok
      by (try assumption; cbn [default from_option id]; apply check_time_fields_intro; lia).
    cbn [default from_option id Py.bind].
    apply advance_if_due_returns; try assumption.
    - apply valid_same_date; [assumption|]. apply check_time_fields_intro; lia.
    - apply nonneg_delta_new; lia.
    - rewrite delta_micro_new. unfold END_OF_TIME, MAXORDINAL. lia. }
  destruct (decide (Config.type trigger = HOURLY)).
  { rewrite replace_ok
      by (try assumption; cbn [default from_option id]; apply check_time_fields_intro; lia).
    cbn [default from_option id Py.bind].
    apply advance_if_due_returns; try assumption.
    - apply valid_same_date; [assumption|]. apply check_time_fields_intro; lia.
    - apply nonneg_delta_new; lia.
    - rewrite delta_micro_new. unfold END_OF_TIME, MAXORDINAL. lia. }
  set (tod := match Config.time trigger with Some t => t | None => _DEFAULT_TIME end) in *.
  destruct Htod as (Hth & Htm & Hts).
  rewrite replace_ok
    by (try assumption; cbn [default from_option id]; apply check_time_fields_intro; lia).
  cbn [default from_option id Py.bind].
  set (base := mk_datetime _ _ _ _ _ _ _).
  assert (Hbase : valid_datetime base = true)
    by (apply valid_same_date; [assumption|]; apply check_time_fields_intro; lia).
  assert (Hbm : to_micro base
                = (toordinal reference * 86400 + t_hour tod * 3600 + t_minute tod * 60
                   + t_second tod) * 1000000 + 0) by reflexivity.
  destruct (decide (Config.type trigger = DAILY)).
  { apply advance_if_due_returns; try assumption.
    - apply nonneg_delta_new; lia.
    - rewrite delta_micro_new. unfold END_OF_TIME, MAXORDINAL. lia. }
  destruct (decide (Config.type trigger = WEEKLY)).
  { set (ahead := (_ - _) mod 7).
    assert (Hahead : 0 <= ahead < 7) by (subst ahead; apply Z.mod_pos_bound; lia).
    destruct (datetime_add_ok base (timedelta_new ahead 0 0 0) Hbase
                (nonneg_delta_new ahead 0 0 0 ltac:(lia) ltac:(lia))) as [cand Hadd].
    { rewrite delta_micro_new, Hbm. unfold END_OF_TIME, MAXORDINAL. lia. }
    rewrite Hadd. cbn [Py.bind].
    destruct (datetime_add_inv _ _ _ Hbase (nonneg_delta_new ahead 0 0 0 ltac:(lia) ltac:(lia)) Hadd)
      as [Hcand Hcm].
    apply advance_if_due_returns; try assumption.
    - apply nonneg_delta_new; lia.
    - rewrite delta_micro_new. unfold END_OF_TIME, MAXORDINAL. lia. }
  destruct (decide (Config.type trigger = MONTHLY)); [| eexists; reflexivity].
  set (dom := match Config.day trigger with Some d => d | None => Datetime.day reference end).
  assert (Hdom : 1 <= dom).
  { subst dom. destruct (Config.day trigger) as [d |]; [pose proof (Hday d eq_refl); lia|].
    apply check_date_fields_spec in Hdate. lia. }
  pose proof Hdate as Hdate'. apply check_date_fields_spec in Hdate' as (Hy & Hm & Hd).
  assert (Hdec : Datetime.month reference = 12 -> Datetime.year reference < 9999).
  { intros H12. destruct (Z_lt_le_dec (Datetime.year reference) 9999) as [| Hge]; [assumption|].
    exfalso. assert (Hy9 : Datetime.year reference = 9999) by lia.
    unfold toordinal, _ymd2ord, _days_before_month in Hordmax. rewrite H12, Hy9 in Hordmax.
    change (_days_before_year 9999) with 3651694 in Hordmax.
    change (_is_leap 9999) with false in Hordmax. cbn in Hordmax. lia. }
  cbn [Datetime.year Datetime.month base].
  rewrite clamped_month_datetime_ok by (try assumption; lia).
  cbn [Py.bind].
  destruct (datetime_le _ reference); [| eexists; reflexivity].
  destruct (Z.ltb_spec 12 (Datetime.month reference + 1)).
  - rewrite clamped_month_datetime_ok by (try assumption; lia).
    eexists. reflexivity.
  - rewrite clamped_month_datetime_ok by (try assumption; lia).
    eexists. reflexivity.
Qed.

Lemma compute_next_run_returns trigger reference :
  validated_trigger trigger = true -> valid_datetime reference = true ->
  Datetime.year reference < 9999 ->
  exists res, _compute_next_run trigger reference = Ok res.
Proof.
  intros Hv Href Hyear. apply compute_next_run_returns_ordinal; try assumption.
  pose proof (toordinal_before_last_year _ Href Hyear). unfold LAST_SAFE_ORDINAL. lia.
Qed.

(** C1, amended.  For a trigger of type Minutely, Hourly, Daily, Weekly or
    Monthly with validated fields and a reference instant [r]: whatever
    [_compute_next_run] returns is an instant strictly after [r], and it does
    return one whenever [r] lies before the last year of the datetime range
    ([MAXYEAR]).  At the very end of the range the call raises instead of
    returning. *)
Theorem next_run_strictly_after_reference trigger reference :
  validated_trigger trigger = true -> valid_datetime reference = true ->
  Config.type trigger <> EVENT ->
  (forall res, _compute_next_run trigger reference = Ok res ->
     exists c, res = Some c /\ valid_datetime c = true /\ datetime_lt reference c = true) /\
  (Datetime.year reference < MAXYEAR ->
     exists c, _compute_next_run trigger reference = Ok (Some c) /\
       valid_datetime c = true /\ datetime_lt reference c = true).
Proof.
  intros Hv Href Hty. split.
  - intros res. now apply compute_next_run_after.
  - intros Hy. destruct (compute_next_run_returns trigger reference Hv Href Hy) as [res Hres].
    destruct (compute_next_run_after _ _ _ Hv Href Hty Hres) as (c & -> & Hc & Hlt).
    exists c. auto.
Qed.

Lemma datetime_le_lt_negb a b :
  valid_datetime a = true -> valid_datetime b = true ->
  datetime_le a b = negb (datetime_lt b a).
Proof.
  intros Ha Hb.
  destruct (datetime_le a b) eqn:Hle, (datetime_lt b a) eqn:Hlt; try reflexivity.
  - apply datetime_le_micro in Hle; [| assumption..].
    apply datetime_lt_micro in Hlt; [| assumption..]. lia.
  - apply datetime_le_false_micro in Hle; [| assumption..].
    assert (to_micro b < to_micro a -> False).
    { intros H. apply datetime_lt_micro in H; [| assumption..]. congruence. }
    lia.
Qed.

(** The monthly branch computes [monthly_next]. *)
Lemma monthly_run trigger reference res :
  validated_trigger trigger = true -> valid_datetime reference = true ->
  Config.type trigger = MONTHLY ->
  _compute_next_run trigger reference = Ok res ->
  res = Some (monthly_next
                (match Config.day trigger with Some d => d | None => Datetime.day reference end)
                (trigger_time_of_day trigger) reference).
Proof.
  intros Hv Href Hty.
  pose proof (validated_trigger_spec _ Hv) as (Htime & Hwd & Hday & Hmin).
  pose proof (time_of_day_bounds _ Hv) as Htod. cbv zeta in Htod.
  pose proof Href as Href'.
  apply valid_datetime_spec in Href' as (Hdate & Hh & Hmi & Hs & Hus).
  unfold _compute_next_run, monthly_next, trigger_time_of_day.
  rewrite Hty.
  destruct (decide (MONTHLY = EVENT)); [discriminate|].
  destruct (decide (MONTHLY = MINUTELY)); [discriminate|].
  destruct (decide (MONTHLY = HOURLY)); [discriminate|].
  destruct (decide (MONTHLY = DAILY)); [discriminate|].
  destruct (decide (MONTHLY = WEEKLY)); [discriminate|].
  destruct (decide (MONTHLY = MONTHLY)); [| congruence].
  set (tod := match Config.time trigger with Some t => t | None => _DEFAULT_TIME end) in *.
  destruct Htod as (Hth & Htm & Hts).
  rewrite replace_ok
    by (try assumption; cbn [default from_option id]; apply check_time_fields_intro; lia).
  cbn [default from_option id Py.bind Datetime.year Datetime.month].
  set (dom := match Config.day trigger with Some d => d | None => Datetime.day reference end).
  assert (Hdom : 1 <= dom).
  { subst dom. destruct (Config.day trigger) as [d |]; [pose proof (Hday d eq_refl); lia|].
    apply check_date_fields_spec in Hdate. lia. }
  pose proof Hdate as Hdate'. apply check_date_fields_spec in Hdate' as (Hy & Hm & Hd).
  rewrite clamped_month_datetime_ok by (try assumption; lia).
  cbn [Py.bind]. fold (at_time (year reference) (month reference)
                          (Z.min dom (_days_in_month (year reference) (month reference))) tod).
  fold (clamped (year reference) (month reference) dom tod).
  assert (Hcand : valid_datetime (clamped (year reference) (month reference) dom tod) = true).
  { apply valid_datetime_spec. cbn.
    pose proof (days_in_month_pos (Datetime.year reference) _ Hm).
    rewrite check_date_fields_spec. lia. }
  rewrite (datetime_le_lt_negb _ _ Hcand Href).
  destruct (datetime_lt reference _); cbn [negb]; [intros [= <-]; reflexivity|].
  unfold following_month.
  destruct (Z.ltb_spec 12 (month reference + 1)), (Z.eqb_spec (month reference) 12); try lia.
  - unfold _clamped_month_datetime, datetime_new. cbv zeta.
    destruct (check_date_fields _ _ _ && _) eqn:Hchk; [| discriminate].
    cbn [Py.bind]. intros [= <-]. unfold clamped, at_time.
    rewrite monthrange_days_in_month by lia. reflexivity.
  - unfold _clamped_month_datetime, datetime_new. cbv zeta.
    destruct (check_date_fields _ _ _ && _) eqn:Hchk; [| discriminate].
    cbn [Py.bind]. intros [= <-]. unfold clamped, at_time.
    rewrite monthrange_days_in_month by lia. reflexivity.
Qed.

Lemma clamped_february y tod :
  1 <= y <= 9999 -> _is_leap y = false ->
  0 <= t_hour tod <= 23 -> 0 <= t_minute tod <= 59 -> 0 <= t_second tod <= 59 ->
  _clamped_month_datetime y 2 31 tod = Ok (at_time y 2 28 tod).
Proof.
  intros Hy Hleap Hh Hm Hs.
  rewrite clamped_month_datetime_ok by lia.
  unfold _days_in_month. rewrite Hleap. reflexivity.
Qed.

(** C6.  For a Monthly trigger the next run is [monthly_next]: the target
    day clamped to the last valid day of the current month if that candidate
    is strictly after the reference, otherwise the target day clamped anew for
    the following month, the year wrapping after December.
    [_clamped_month_datetime] clamps to the number of days of the month it is
    given, so day 31 in a February of a non-leap year is the 28th; the day of
    whatever [_compute_next_run] returns is the target day clamped to the
    length of the month it falls in. *)
Theorem monthly_day_is_clamped trigger reference :
  validated_trigger trigger = true -> valid_datetime reference = true ->
  Config.type trigger = MONTHLY ->
  let d := match Config.day trigger with Some d => d | None => Datetime.day reference end in
  let tod := trigger_time_of_day trigger in
  (forall res, _compute_next_run trigger reference = Ok res ->
     res = Some (monthly_next d tod reference)) /\
  (Datetime.year reference < MAXYEAR ->
     _compute_next_run trigger reference = Ok (Some (monthly_next d tod reference))) /\
  (forall y m, 1 <= y <= MAXYEAR -> 1 <= m <= 12 ->
     _clamped_month_datetime y m d tod = Ok (clamped y m d tod) /\
     1 <= Datetime.day (clamped y m d tod) <= _days_in_month y m) /\
  (forall y, 1 <= y <= MAXYEAR -> _is_leap y = false ->
     _clamped_month_datetime y 2 31 tod = Ok (at_time y 2 28 tod)) /\
  (forall c, _compute_next_run trigger reference = Ok (Some c) ->
     Datetime.day c = Z.min d (_days_in_month (year c) (month c)) /\
     ((year c, month c) = (year reference, month reference) \/
      (year c, month c) = following_month (year reference) (month reference))).
Proof.
  intros Hv Href Hty d tod.
  assert (Htod : 0 <= t_hour tod <= 23 /\ 0 <= t_minute tod <= 59 /\ 0 <= t_second tod <= 59)
    by exact (time_of_day_bounds _ Hv).
  destruct Htod as (Hth & Htm & Hts).
  assert (Hd : 1 <= d).
  { subst d. apply validated_trigger_spec in Hv as (_ & _ & Hday & _).
    destruct (Config.day trigger) as [x |]; [pose proof (Hday x eq_refl); lia|].
    apply valid_datetime_spec in Href as (Hdate & _).
    apply check_date_fields_spec in Hdate. lia. }
  split; [| split; [| split; [| split]]].
  - intros res Hres. exact (monthly_run _ _ _ Hv Href Hty Hres).
  - intros Hy.
    destruct (compute_next_run_returns trigger reference Hv Href Hy) as [res Hres].
    rewrite Hres. f_equal. exact (monthly_run _ _ _ Hv Href Hty Hres).
  - intros y m Hy Hm. unfold MAXYEAR in *. split.
    + apply clamped_month_datetime_ok; lia.
    + unfold clamped, at_time. cbn [Datetime.day].
      pose proof (days_in_month_pos y m Hm). lia.
  - intros y Hy Hleap. unfold MAXYEAR in *. apply clamped_february; try assumption; lia.
  - intros c Hc. apply (monthly_run _ _ _ Hv Href Hty) in Hc. injection Hc as ->.
    fold d tod. unfold monthly_next.
    destruct (datetime_lt reference _).
    + split; [reflexivity | left; reflexivity].
    + destruct (following_month (year reference) (month reference)) as [y m] eqn:E.
      split; [reflexivity | right; reflexivity].
Qed.

(** Two instants a whole number of days apart agree on the time of day. *)
Lemma to_micro_fields a b k :
  valid_datetime a = true -> valid_datetime b = true ->
  to_micro a = to_micro b + k * 86400000000 ->
  toordinal a = toordinal b + k /\ hour a = hour b /\
  Datetime.minute a = Datetime.minute b /\ second a = second b /\
  microsecond a = microsecond b.
Proof.
  intros Ha Hb. apply valid_datetime_spec in Ha as (_ & ? & ? & ? & ?).
  apply valid_datetime_spec in Hb as (_ & ? & ? & ? & ?).
  unfold to_micro. generalize (toordinal a) (toordinal b). intros oa ob Heq.
  assert (microsecond a = microsecond b) by lia.
  assert (oa = ob + k) by lia.
  assert (hour a = hour b) by lia.
  assert (Datetime.minute a = Datetime.minute b) by lia.
  repeat split; try assumption; lia.
Qed.

(** The weekly branch computes [weekly_next]. *)
Lemma weekly_run trigger reference :
  validated_trigger trigger = true -> valid_datetime reference = true ->
  Config.type trigger = WEEKLY ->
  _compute_next_run trigger reference
  = (c <-? weekly_next (trigger_weekday trigger reference) (trigger_time_of_day trigger)
             reference ;; Ok (Some c)).
Proof.
  intros Hv Href Hty.
  pose proof (time_of_day_bounds _ Hv) as Htod. cbv zeta in Htod.
  pose proof Href as Href'.
  apply valid_datetime_spec in Href' as (Hdate & Hh & Hmi & Hs & Hus).
  unfold _compute_next_run, weekly_next, trigger_time_of_day, trigger_weekday.
  rewrite Hty.
  destruct (decide (WEEKLY = EVENT)); [discriminate|].
  destruct (decide (WEEKLY = MINUTELY)); [discriminate|].
  destruct (decide (WEEKLY = HOURLY)); [discriminate|].
  destruct (decide (WEEKLY = DAILY)); [discriminate|].
  destruct (decide (WEEKLY = WEEKLY)); [| congruence].
  set (tod := match Config.time trigger with Some t => t | None => _DEFAULT_TIME end) in *.
  destruct Htod as (Hth & Htm & Hts).
  rewrite replace_ok
    by (try assumption; cbn [default from_option id]; apply check_time_fields_intro; lia).
  cbn [default from_option id Py.bind]. cbv zeta.
  fold (at_time (year reference) (month reference) (Datetime.day reference) tod).
  set (base := at_time _ _ _ _).
  assert (Hbase : valid_datetime base = true)
    by (apply valid_same_date; [assumption|]; apply check_time_fields_intro; lia).
  set (ahead := (_ - _) mod 7).
  assert (Hahead : 0 <= ahead < 7) by (subst ahead; apply Z.mod_pos_bound; lia).
  destruct (datetime_add base (timedelta_new ahead 0 0 0)) as [cand |] eqn:Hadd;
    [| reflexivity].
  destruct (datetime_add_inv _ _ _ Hbase (nonneg_delta_new ahead 0 0 0 ltac:(lia) ltac:(lia)) Hadd)
    as [Hcand Hcm].
  cbn [Py.bind]. rewrite (datetime_le_lt_negb _ _ Hcand Href).
  destruct (datetime_lt reference cand); reflexivity.
Qed.

(** Where [weekly_next] lands. *)
Lemma weekly_next_props w tod reference c :
  valid_datetime reference = true -> valid_time_of_day tod -> 0 <= w <= 6 ->
  weekly_next w tod reference = Ok c ->
  valid_datetime c = true /\
  Datetime.weekday c = w /\
  hour c = t_hour tod /\ Datetime.minute c = t_minute tod /\
  second c = t_second tod /\ microsecond c = 0 /\
  datetime_lt reference c = true /\
  let same_day := at_time (year reference) (month reference) (Datetime.day reference) tod in
  let days_ahead := (w - Datetime.weekday reference) mod 7 in
  toordinal c = toordinal reference + days_ahead
                + (if (days_ahead =? 0) && datetime_le same_day reference then 7 else 0).
Proof.
  intros Href (Hth & Htm & Hts) Hw.
  pose proof Href as Href'.
  apply valid_datetime_spec in Href' as (Hdate & Hh & Hmi & Hs & Hus).
  pose proof (toordinal_pos _ Href) as Hord.
  unfold weekly_next. cbv zeta.
  set (base := at_time _ _ _ _).
  assert (Hbase : valid_datetime base = true)
    by (apply valid_same_date; [assumption|]; apply check_time_fields_intro; lia).
  assert (Hwd : Datetime.weekday base = Datetime.weekday reference) by reflexivity.
  rewrite Hwd.
  set (ahead := (_ - _) mod 7).
  assert (Hahead : 0 <= ahead < 7) by (subst ahead; apply Z.mod_pos_bound; lia).
  assert (Hbm : to_micro base
                = (toordinal reference * 86400 + t_hour tod * 3600 + t_minute tod * 60
                   + t_second tod) * 1000000 + 0) by reflexivity.
  unfold Py.bind.
  destruct (datetime_add base (timedelta_new ahead 0 0 0)) as [cand |] eqn:Hadd;
    [| discriminate].
  destruct (datetime_add_inv _ _ _ Hbase (nonneg_delta_new ahead 0 0 0 ltac:(lia) ltac:(lia)) Hadd)
    as [Hcand Hcm].
  rewrite delta_micro_new in Hcm.
  destruct (to_micro_fields cand base ahead Hcand Hbase ltac:(lia))
    as (Hco & Hch & Hcmi & Hcs & Hcu).
  assert (Hbo : toordinal base = toordinal reference) by reflexivity.
  assert (Hweek : forall k, (toordinal reference + ahead + 7 * k + 6) mod 7 = w).
  { intros k. subst ahead. unfold Datetime.weekday. Z.div_mod_to_equations. lia. }
  destruct (datetime_lt reference cand) eqn:Hlt.
  - intros [= <-]. split; [assumption|].
    apply datetime_lt_micro in Hlt; [| assumption..].
    split. { unfold Datetime.weekday. rewrite Hco, Hbo. rewrite <- (Hweek 0). f_equal; lia. }
    repeat (split; [assumption || (cbn in *; congruence) |]).
    split. { apply datetime_lt_micro; assumption. }
    rewrite Hco, Hbo.
    destruct (Z.eqb_spec ahead 0) as [Hz | Hz]; cbn [andb]; [| lia].
    destruct (datetime_le base reference) eqn:Hle; [| lia].
    apply datetime_le_micro in Hle; [| assumption..]. lia.
  - intros Hadd7.
    destruct (datetime_add_inv _ _ _ Hcand (nonneg_delta_new 7 0 0 0 ltac:(lia) ltac:(lia)) Hadd7)
      as [Hc Hcm7].
    rewrite delta_micro_new in Hcm7.
    destruct (to_micro_fields c cand 7 Hc Hcand ltac:(lia))
      as (Hco7 & Hch7 & Hcmi7 & Hcs7 & Hcu7).
    assert (Hnlt : to_micro cand <= to_micro reference).
    { destruct (Z_lt_le_dec (to_micro reference) (to_micro cand)) as [H | H]; [| exact H].
      apply datetime_lt_micro in H; [| assumption..]. congruence. }
    split; [assumption|].
    split. { unfold Datetime.weekday. rewrite Hco7, Hco, Hbo. rewrite <- (Hweek 1). f_equal; lia. }
    repeat (split; [cbn in *; congruence |]).
    split. { apply datetime_lt_micro; [assumption..|]. unfold to_micro at 1. lia. }
    rewrite Hco7, Hco, Hbo.
    assert (ahead = 0) by (unfold to_micro at 2 in Hnlt; lia).
    destruct (Z.eqb_spec ahead 0) as [Hz | Hz]; cbn [andb]; [| lia].
    destruct (datetime_le base reference) eqn:Hle; [lia|].
    apply datetime_le_false_micro in Hle; [| assumption..]. lia.
Qed.

Lemma trigger_weekday_bounds trigger reference :
  validated_trigger trigger = true -> 0 <= trigger_weekday trigger reference <= 6.
Proof.
  intros Hv. apply validated_trigger_spec in Hv as (_ & Hw & _).
  unfold trigger_weekday. destruct (Config.weekday trigger) as [w |]; [now apply Hw|].
  unfold Datetime.weekday. pose proof (Z.mod_pos_bound (toordinal reference + 6) 7). lia.
Qed.

(** C7.  For a Weekly trigger the next run is [weekly_next]: the candidate at
    the target time of day on the current date, shifted forward by
    (target weekday - candidate weekday) mod 7 days, and by seven more days if
    that is not strictly after the reference.  The result falls on the target
    weekday at the target time, strictly after the reference; when the
    reference is itself on the target weekday at or after the target time, the
    result is on the same weekday one week later. *)
Theorem weekly_next_run trigger reference :
  validated_trigger trigger = true -> valid_datetime reference = true ->
  Config.type trigger = WEEKLY ->
  let target := trigger_weekday trigger reference in
  let tod := trigger_time_of_day trigger in
  let same_day := at_time (year reference) (month reference) (Datetime.day reference) tod in
  let days_ahead := (target - Datetime.weekday same_day) mod 7 in
  _compute_next_run trigger reference
  = (c <-? weekly_next target tod reference ;; Ok (Some c)) /\
  (year reference < MAXYEAR -> exists c, weekly_next target tod reference = Ok c) /\
  (forall c, weekly_next target tod reference = Ok c ->
     Datetime.weekday c = target /\
     hour c = t_hour tod /\ Datetime.minute c = t_minute tod /\
     second c = t_second tod /\ microsecond c = 0 /\
     datetime_lt reference c = true /\
     toordinal c = toordinal reference + days_ahead
                   + (if (days_ahead =? 0) && datetime_le same_day reference then 7 else 0) /\
     (Datetime.weekday reference = target -> datetime_le same_day reference = true ->
      toordinal c = toordinal reference + 7)).
Proof.
  intros Hv Href Hty target tod same_day days_ahead.
  pose proof (trigger_weekday_bounds trigger reference Hv) as Hw. fold target in Hw.
  assert (Htod : valid_time_of_day tod) by exact (time_of_day_bounds _ Hv).
  pose proof (weekly_run trigger reference Hv Href Hty) as Heq.
  fold target tod in Heq.
  split; [exact Heq|]. split.
  - intros Hy. unfold MAXYEAR in Hy.
    destruct (compute_next_run_returns trigger reference Hv Href Hy) as [res Hres].
    rewrite Heq in Hres. destruct (weekly_next target tod reference) as [c |]; [eauto|].
    discriminate.
  - intros c Hc.
    destruct (weekly_next_props target tod reference c Href Htod Hw Hc)
      as (_ & Hwd & Hh & Hmi & Hs & Hus & Hlt & Hord).
    cbv zeta in Hord. fold same_day in Hord.
    change (Datetime.weekday same_day) with (Datetime.weekday reference) in days_ahead.
    fold days_ahead in Hord.
    repeat (split; [assumption|]).
    intros Hsame Hle. rewrite Hord.
    assert (Hz : days_ahead = 0).
    { subst days_ahead. rewrite Hsame, Z.sub_diag. reflexivity. }
    rewrite Hz, Hle. cbn [Z.eqb andb]. lia.
Qed.

End SchedulerFacts.

(** ** The change detector *)

Section DiffFacts.

Import Py Events Spec.
Local Open Scope Z_scope.

(** The first loop of [_diff_snapshots] collects [new_records] and the keys of
    [new]. *)
Lemma actions_scan_new_fold old l : forall events seen,
  foldl (Actions.scan_new old) (events, seen) l
  = (events ++ (l ≫= new_records old), seen ∪ list_to_set l.*1).
Proof.
  induction l as [| [p [m s]] l IH]; intros events seen.
  - cbn. rewrite app_nil_r. f_equal. now rewrite (right_id_L ∅ (∪)).
  - cbn [foldl]. unfold Actions.scan_new at 2. rewrite IH.
    f_equal.
    + cbn [mbind list_bind new_records]. fold (mbind (M := list) (new_records old) l).
      destruct (old !! p) as [[om os] |].
      * destruct (negb (om =? m) || negb (os =? s)); cbn; [ rewrite <- app_assoc |]; reflexivity.
      * rewrite <- app_assoc. reflexivity.
    + cbn. now rewrite (assoc_L (∪)).
Qed.

(** [path not in old] and [old.get(path) is None] select the same branch. *)
Lemma monitor_scan_new_eq old st item :
  Monitor.scan_new old st item = Actions.scan_new old st item.
Proof.
  destruct st as [events seen], item as [p [m s]].
  unfold Monitor.scan_new, Actions.scan_new.
  destruct (decide (p ∉ dom old)) as [Hn | Hin].
  - apply not_elem_of_dom in Hn. rewrite Hn. reflexivity.
  - destruct (old !! p) as [[om os] |] eqn:E; [reflexivity|].
    exfalso. apply Hin. now apply not_elem_of_dom.
Qed.

(** The second loop collects [old_records]. *)
Lemma scan_old_fold seen l : forall events,
  foldl (Actions.scan_old seen) events l = events ++ (l ≫= old_records seen).
Proof.
  induction l as [| [p [m s]] l IH]; intros events.
  - cbn. now rewrite app_nil_r.
  - cbn [foldl]. rewrite IH. unfold Actions.scan_old.
    cbn [mbind list_bind old_records]. fold (mbind (M := list) (old_records seen) l).
    destruct (decide (p ∉ seen)); cbn; [rewrite <- app_assoc|]; reflexivity.
Qed.

Lemma keys_of_map_to_list (m : Snapshot) :
  list_to_set (map_to_list m).*1 = dom m.
Proof.
  apply set_eq. intros p. rewrite elem_of_list_to_set, elem_of_dom.
  rewrite list_elem_of_fmap. split.
  - intros [[q v] [-> Hin]]. apply elem_of_map_to_list in Hin. cbn. eauto.
  - intros [v Hv]. exists (p, v). split; [reflexivity|]. now apply elem_of_map_to_list.
Qed.

(** The diff as two comprehensions. *)
Lemma diff_snapshots_unfold old new :
  Actions._diff_snapshots old new
  = (map_to_list new ≫= new_records old) ++ (map_to_list old ≫= old_records (dom new)).
Proof.
  unfold Actions._diff_snapshots. rewrite actions_scan_new_fold.
  rewrite scan_old_fold. cbn [app]. rewrite keys_of_map_to_list.
  rewrite (left_id_L ∅ (∪)). reflexivity.
Qed.

(** The generator of monitor.py yields the list actions.py builds. *)
Lemma monitor_diff_eq old new :
  Monitor._diff_snapshots old new = Actions._diff_snapshots old new.
Proof.
  unfold Monitor._diff_snapshots, Actions._diff_snapshots.
  assert (H : forall l st, foldl (Monitor.scan_new old) st l
                           = foldl (Actions.scan_new old) st l).
  { induction l as [| x l IH]; intros st; [reflexivity|].
    cbn [foldl]. rewrite monitor_scan_new_eq. apply IH. }
  rewrite H. reflexivity.
Qed.

Lemma differs_spec (m s m' s' : Z) :
  negb (m' =? m) || negb (s' =? s) = true <-> (m', s') <> (m, s).
Proof.
  destruct (Z.eqb_spec m' m), (Z.eqb_spec s' s); cbn; split; intros H;
    congruence.
Qed.

Lemma new_records_path old item e : e ∈ new_records old item -> path e = item.1.
Proof.
  destruct item as [p [m s]]. unfold new_records.
  destruct (old !! p) as [[om os] |]; [destruct (_ || _)|];
    rewrite ?list_elem_of_singleton; intros H; try (subst e; reflexivity).
  apply elem_of_nil in H. contradiction.
Qed.

Lemma old_records_path seen item e : e ∈ old_records seen item -> path e = item.1 /\ item.1 ∉ seen.
Proof.
  destruct item as [p [m s]]. unfold old_records.
  destruct (decide (p ∉ seen)); rewrite ?list_elem_of_singleton; intros H;
    [subst e; auto | apply elem_of_nil in H; contradiction].
Qed.

Lemma new_records_short old item : (length (new_records old item) <= 1)%nat.
Proof.
  destruct item as [p [m s]]. unfold new_records.
  destruct (old !! p) as [[om os] |]; [destruct (_ || _)|]; cbn; lia.
Qed.

Lemma old_records_short seen item : (length (old_records seen item) <= 1)%nat.
Proof.
  destruct item as [p [m s]]. unfold old_records. destruct (decide _); cbn; lia.
Qed.

(** Entries with distinct keys, each giving at most one record about its own
    key, give records about distinct paths. *)
Lemma NoDup_paths_bind (f : Path * (Z * Z) -> list FileEvent) (l : list (Path * (Z * Z))) :
  NoDup l.*1 ->
  (forall item e, e ∈ f item -> path e = item.1) ->
  (forall item, (length (f item) <= 1)%nat) ->
  NoDup (path <$> (l ≫= f)).
Proof.
  intros Hnd Hpath Hlen. induction l as [| it l IH]; [constructor|].
  cbn in Hnd. apply NoDup_cons in Hnd as [Hnotin Hnd].
  cbn [mbind list_bind]. fold (mbind (M := list) f l). rewrite fmap_app.
  apply NoDup_app. split; [| split].
  - specialize (Hlen it). destruct (f it) as [| e [| e' r]]; cbn in *; try lia.
    + constructor.
    + apply NoDup_singleton.
  - intros p Hp Hq. apply list_elem_of_fmap in Hp as [e [-> He]].
    apply list_elem_of_fmap in Hq as [e' [Heq He']].
    apply list_elem_of_bind in He' as [it' [He' Hit']].
    apply Hpath in He, He'. apply Hnotin. rewrite <- He, Heq, He'.
    apply list_elem_of_fmap. exists it'. auto.
  - apply IH, Hnd.
Qed.

(** No two records of a diff are about the same path. *)
Lemma diff_paths_NoDup old new :
  NoDup (path <$> Actions._diff_snapshots old new).
Proof.
  rewrite diff_snapshots_unfold, fmap_app. apply NoDup_app. split; [| split].
  - apply NoDup_paths_bind.
    + apply NoDup_fst_map_to_list.
    + apply new_records_path.
    + apply new_records_short.
  - intros p Hp Hq. apply list_elem_of_fmap in Hp as [e [-> He]].
    apply list_elem_of_fmap in Hq as [e' [Heq He']].
    apply list_elem_of_bind in He as [[q v] [He Hit]].
    apply list_elem_of_bind in He' as [it' [He' Hit']].
    apply new_records_path in He. apply old_records_path in He' as [He' Hseen].
    apply elem_of_map_to_list in Hit. apply Hseen.
    rewrite <- He', <- Heq, He. cbn. apply elem_of_dom. eauto.
  - apply NoDup_paths_bind.
    + apply NoDup_fst_map_to_list.
    + intros it e He. now apply old_records_path in He as [? _].
    + apply old_records_short.
Qed.

(** The records of a diff are the changes. *)
Lemma diff_elem_of old new e :
  e ∈ Actions._diff_snapshots old new <-> is_change old new e.
Proof.
  rewrite diff_snapshots_unfold, elem_of_app, !list_elem_of_bind. split.
  - intros [[[p [m s]] [He Hin]] | [[p [m s]] [He Hin]]];
      apply elem_of_map_to_list in Hin.
    + unfold new_records in He. destruct (old !! p) as [[om os] |] eqn:Hold.
      * destruct (negb (om =? m) || negb (os =? s)) eqn:Hd.
        -- apply list_elem_of_singleton in He as ->.
           eapply change_modified; eauto. now apply differs_spec.
        -- apply elem_of_nil in He. contradiction.
      * apply list_elem_of_singleton in He as ->. now apply change_created.
    + unfold old_records in He. destruct (decide (p ∉ dom new)) as [Hn | Hn].
      * apply list_elem_of_singleton in He as ->. apply change_deleted; [assumption|].
        now apply not_elem_of_dom.
      * apply elem_of_nil in He. contradiction.
  - intros [p m s Hnew Hold | p m s m' s' Hnew Hold Hd | p m s Hold Hnew].
    + left. exists (p, (m, s)). split; [| now apply elem_of_map_to_list].
      unfold new_records. rewrite Hold. apply list_elem_of_singleton. reflexivity.
    + left. exists (p, (m, s)). split; [| now apply elem_of_map_to_list].
      unfold new_records. rewrite Hold.
      apply differs_spec in Hd. rewrite Hd. apply list_elem_of_singleton. reflexivity.
    + right. exists (p, (m, s)). split; [| now apply elem_of_map_to_list].
      unfold old_records. apply not_elem_of_dom in Hnew.
      destruct (decide (p ∉ dom new)); [| contradiction].
      apply list_elem_of_singleton. reflexivity.
Qed.

Lemma diff_self (S : Snapshot) : Actions._diff_snapshots S S = [].
Proof.
  destruct (Actions._diff_snapshots S S) as [| e l] eqn:E; [reflexivity|].
  exfalso.
  assert (He : e ∈ Actions._diff_snapshots S S) by (rewrite E; apply list_elem_of_here).
  apply diff_elem_of in He.
  destruct He as [p m s H1 H2 | p m s m' s' H1 H2 Hd | p m s H1 H2]; congruence.
Qed.

(** Distinct keys leave at most one element per key. *)
Lemma at_most_one_with_key {A K : Type} `{EqDecision K} (f : A -> K) (l : list A) (k : K) :
  NoDup (f <$> l) -> (length (filter (fun x => f x = k) l) <= 1)%nat.
Proof.
  induction l as [| x l IH]; intros Hnd; [cbn; lia|].
  cbn in Hnd. apply NoDup_cons in Hnd as [Hx Hnd].
  rewrite filter_cons. destruct (decide (f x = k)) as [Hk | Hk]; [| auto].
  cbn. assert (Hnone : filter (fun y => f y = k) l = []).
  { destruct (filter (fun y => f y = k) l) as [| y r] eqn:E; [reflexivity|].
    exfalso. assert (Hy : y ∈ filter (fun y => f y = k) l) by (rewrite E; left).
    apply list_elem_of_filter in Hy as [Hfy Hy]. apply Hx.
    rewrite Hk, <- Hfy. apply list_elem_of_fmap. eauto. }
  rewrite Hnone. cbn. lia.
Qed.

(** C2.  The snapshot diff, in both of its implementations, yields exactly
    the change records of [is_change]: a [CREATED] record for every path of
    [new] absent from [old], a [MODIFIED] record for every path present in both
    with a different (mtime, size), a [DELETED] record for every path of [old]
    absent from [new]; each of them once, and no record for a path present in
    both with equal (mtime, size). *)
Theorem diff_records_exactly_the_changes (old new : Snapshot) :
  Monitor._diff_snapshots old new = Actions._diff_snapshots old new /\
  NoDup (Actions._diff_snapshots old new) /\
  (forall e, e ∈ Actions._diff_snapshots old new <-> is_change old new e) /\
  (forall p v e, old !! p = Some v -> new !! p = Some v ->
     e ∈ Actions._diff_snapshots old new -> path e <> p).
Proof.
  split; [apply monitor_diff_eq|]. split; [| split].
  - eapply NoDup_fmap_1, diff_paths_NoDup.
  - apply diff_elem_of.
  - intros p v e Hold Hnew He Hp. apply diff_elem_of in He.
    destruct He as [q m s H1 H2 | q m s m' s' H1 H2 Hd | q m s H1 H2];
      cbn in Hp; subst q; congruence.
Qed.

(** C9.  Diffing a snapshot against itself yields no change record, in both
    implementations. *)
Theorem diff_of_a_snapshot_with_itself_is_empty (S : Snapshot) :
  Actions._diff_snapshots S S = [] /\ Monitor._diff_snapshots S S = [].
Proof.
  split; [| rewrite monitor_diff_eq]; apply diff_self.
Qed.

(** C10.  For any two snapshots and any path, the diff contains at most one
    record whose path is that path, in both implementations: the paths of the
    records are pairwise distinct. *)
Theorem diff_has_at_most_one_record_per_path (old new : Snapshot) (p : Path) :
  (length (filter (fun e => path e = p) (Actions._diff_snapshots old new)) <= 1)%nat /\
  (length (filter (fun e => path e = p) (Monitor._diff_snapshots old new)) <= 1)%nat /\
  NoDup (path <$> Actions._diff_snapshots old new) /\
  NoDup (path <$> Monitor._diff_snapshots old new).
Proof.
  rewrite monitor_diff_eq. pose proof (diff_paths_NoDup old new) as Hnd.
  repeat split; try assumption; now apply at_most_one_with_key.
Qed.

End DiffFacts.

(** ** The scanner's filter *)

Section MonitorFacts.

Import Py Monitor Spec Samples.
Local Open Scope string_scope.

(** The filter as one boolean expression. *)
Lemma matches_patterns_eq fnmatch path inc exc :
  _matches_patterns fnmatch path inc exc
  = negb (existsb (hit fnmatch path) exc)
    && (bool_decide (inc = []) || existsb (hit fnmatch path) inc).
Proof.
  unfold _matches_patterns, hit. cbv zeta.
  destruct exc as [| pat exc].
  - cbn. destruct (bool_decide (inc = [])); reflexivity.
  - replace (bool_decide (pat :: exc = [])) with false
      by (symmetry; now apply bool_decide_eq_false).
    cbn [negb andb].
    destruct (existsb _ (pat :: exc)); cbn; [reflexivity|].
    destruct (bool_decide (inc = [])); reflexivity.
Qed.

(** What one directory entry adds to the keys of the snapshot. *)
Lemma scan_step_dom fnmatch config results e p :
  p ∈ dom (scan_step fnmatch config results e) <->
  p ∈ dom results \/
  (entry_path e = p /\ is_file e = true /\
   _matches_patterns fnmatch p (include_patterns config) (exclude_patterns config) = true /\
   is_Some (stat e)).
Proof.
  unfold scan_step.
  destruct (is_file e) eqn:Hf; cbn [negb].
  2: { split; [auto | intros [H | (_ & H & _)]; [exact H | discriminate]]. }
  destruct (_matches_patterns fnmatch (entry_path e) _ _) eqn:Hm; cbn [negb].
  2: { split; [auto | intros [H | (<- & _ & H & _)]; [exact H | congruence]]. }
  destruct (stat e) as [[mt sz] |] eqn:Hs.
  2: { split; [auto | intros [H | (_ & _ & _ & [x Hx])]; [exact H | discriminate]]. }
  rewrite dom_insert, elem_of_union, elem_of_singleton. split.
  - intros [-> | H]; [right | left]; eauto.
  - intros [H | (<- & _)]; auto.
Qed.

Lemma scan_fold_dom fnmatch config l p : forall results,
  p ∈ dom (foldl (scan_step fnmatch config) results l) <->
  p ∈ dom results \/
  exists e, e ∈ l /\ entry_path e = p /\ is_file e = true /\
    _matches_patterns fnmatch p (include_patterns config) (exclude_patterns config) = true /\
    is_Some (stat e).
Proof.
  induction l as [| e l IH]; intros results; cbn [foldl].
  - split; [auto | intros [H | (e & He & _)]; [exact H | inversion He]].
  - rewrite IH, scan_step_dom. split.
    + intros [[H | H] | (e' & He' & H)]; [left; exact H | right | right].
      * exists e. split; [left | exact H].
      * exists e'. split; [now right | exact H].
    + intros [H | (e' & He' & H)]; [left; left; exact H|].
      apply elem_of_cons in He' as [-> | He']; [left; right; exact H|].
      right. exists e'. auto.
Qed.

(** C5.  What the filter does.  Exclusion comes first and inclusion second,
    an empty include list letting every file through; but each pattern is
    tried against the bare file name and against [str(path)], the path as the
    scan yields it, which starts with the monitored root, not against the path
    relative to that root.  A path is in the snapshot exactly when the scan
    yields it as a regular file that passes this filter and can be stat-ed.
    The last four conjuncts evaluate the filter on /data/raw/img.fits under the
    root /data with the exclude pattern raw/*: the root-relative path
    raw/img.fits matches the pattern, [str(path)] does not, and the file is
    kept although the filter worded on relative paths skips it. *)
Theorem filter_matches_the_scanned_path :
  (forall fnmatch path inc exc,
     _matches_patterns fnmatch path inc exc
     = negb (existsb (fun pat => fnmatch (path_name path) pat || fnmatch (path_str path) pat)
               exc)
       && (bool_decide (inc = [])
           || existsb (fun pat => fnmatch (path_name path) pat || fnmatch (path_str path) pat)
                inc)) /\
  (forall fnmatch config fs p,
     p ∈ dom (_scan fnmatch config fs) <->
     root_exists fs = true /\
     exists e, e ∈ _iter_paths fs (recursive config) /\ entry_path e = p /\
       is_file e = true /\
       _matches_patterns fnmatch p (include_patterns config) (exclude_patterns config) = true /\
       is_Some (stat e)) /\
  path_str sample_file = "/data/raw/img.fits" /\
  rel_str (relative_to sample_root sample_file) = "raw/img.fits" /\
  _matches_patterns fnmatchcase sample_file [] ["raw/*"] = true /\
  spec_filter fnmatchcase sample_root sample_file [] ["raw/*"] = false.
Proof.
  split; [| split; [| repeat split]].
  - intros. apply matches_patterns_eq.
  - intros fnmatch config fs p. unfold _scan.
    destruct (root_exists fs); cbn [negb].
    + rewrite scan_fold_dom, dom_empty, elem_of_empty. split.
      * intros [[] | H]. split; [reflexivity | exact H].
      * intros [_ H]. right. exact H.
    + rewrite dom_empty, elem_of_empty. split; [intros [] | intros [H _]; discriminate].
Qed.

End MonitorFacts.

(** ** The registry *)

Section RegistryFacts.

Import Py Datetime Config Scheduler Events Actions Spec.

Lemma invocations_app tr1 tr2 :
  invocations (tr1 ++ tr2) = invocations tr1 ++ invocations tr2.
Proof. unfold invocations. apply omap_app. Qed.

Lemma invocations_call r ctx a c hint :
  invocations (call_effects r ctx a c hint) = [(r, ctx)].
Proof.
  unfold call_effects. destruct (callback a c (options a)); reflexivity.
Qed.

(** A guarded call returns, having only extended the trace. *)
Lemma safe_invoke_run w r ctx hint a c :
  objs w !! r = Some a -> contexts w !! ctx = Some c ->
  _safe_invoke r ctx hint w
  = (Ok tt, mk_world (objs w) (contexts w) (trace w ++ call_effects r ctx a c hint)).
Proof.
  intros Ha Hc. destruct w as [os cs tr]. cbn in Ha, Hc.
  unfold _safe_invoke, try_except, invoke, mbind, get_action, get_context, emit,
    call_effects, ret, raise.
  cbn. rewrite Ha. cbn. rewrite Hc. cbn.
  destruct (callback a c (options a)); cbn; rewrite ?Ha; cbn;
    rewrite <- ?app_assoc; reflexivity.
Qed.

(** A loop of guarded calls with one context enters every action with it. *)
Lemma for_each_safe_invoke ctx hint c l : forall w,
  contexts w !! ctx = Some c ->
  (forall r, r ∈ l -> is_Some (objs w !! r)) ->
  exists tr,
    for_each l (fun r => _safe_invoke r ctx hint) w
    = (Ok tt, mk_world (objs w) (contexts w) (trace w ++ tr)) /\
    invocations tr = (fun r => (r, ctx)) <$> l.
Proof.
  induction l as [| r l IH]; intros w Hc Hl.
  - exists []. rewrite app_nil_r. destruct w; split; reflexivity.
  - destruct (Hl r ltac:(left)) as [a Ha].
    cbn [for_each]. unfold mbind at 1. rewrite (safe_invoke_run _ _ _ _ _ _ Ha Hc).
    destruct (IH (mk_world (objs w) (contexts w) (trace w ++ call_effects r ctx a c hint)))
      as (tr & Hrun & Hinv).
    + exact Hc.
    + intros r' Hr'. apply Hl. now right.
    + exists (call_effects r ctx a c hint ++ tr). split.
      * rewrite Hrun. cbn. rewrite <- app_assoc. reflexivity.
      * rewrite invocations_app, invocations_call, Hinv. reflexivity.
Qed.

(** [registry_ok] as propositions. *)
Lemma registry_ok_spec w reg :
  registry_ok w reg = true ->
  NoDup (_actions reg) /\
  (forall r, r ∈ _actions reg -> exists a, objs w !! r = Some a /\ action_ok a = true) /\
  _event_actions reg = List.filter (event_ref w) (_actions reg) /\
  _scheduled_actions reg = List.filter (fun r => negb (event_ref w r)) (_actions reg).
Proof.
  unfold registry_ok. rewrite !andb_true_iff, !bool_decide_eq_true.
  intros [[[Hall Hnd] He] Hs]. repeat split; try assumption.
  intros r Hr. rewrite forallb_forall in Hall. apply list_elem_of_In in Hr.
  specialize (Hall r Hr). destruct (objs w !! r) as [a |]; [eauto | discriminate].
Qed.

Lemma event_actions_spec w reg r :
  registry_ok w reg = true ->
  r ∈ _event_actions reg <->
  r ∈ _actions reg /\ exists a, objs w !! r = Some a /\ is_event_trigger a = true.
Proof.
  intros Hok. destruct (registry_ok_spec _ _ Hok) as (_ & Hall & -> & _).
  rewrite list_elem_of_In, filter_In, <- list_elem_of_In. unfold event_ref.
  split; intros [Hr H]; split; try assumption.
  - destruct (objs w !! r) as [a |]; [eauto | discriminate].
  - destruct H as (a & -> & Ha). exact Ha.
Qed.

Lemma scheduled_actions_spec w reg r :
  registry_ok w reg = true ->
  r ∈ _scheduled_actions reg <->
  r ∈ _actions reg /\
  exists a, objs w !! r = Some a /\ is_event_trigger a = false /\ action_ok a = true.
Proof.
  intros Hok. destruct (registry_ok_spec _ _ Hok) as (_ & Hall & _ & ->).
  rewrite list_elem_of_In, filter_In, <- list_elem_of_In. unfold event_ref.
  split; intros [Hr H]; split; try assumption.
  - destruct (Hall r Hr) as (a & Ha & Hok'). rewrite Ha in H.
    exists a. apply negb_true_iff in H. auto.
  - destruct H as (a & -> & Ha & _). now rewrite Ha.
Qed.

Lemma scheduled_actions_NoDup w reg :
  registry_ok w reg = true -> NoDup (_scheduled_actions reg).
Proof.
  intros Hok. destruct (registry_ok_spec _ _ Hok) as (Hnd & _ & _ & ->).
  apply NoDup_ListNoDup, List.NoDup_filter, NoDup_ListNoDup, Hnd.
Qed.

(** [dispatch_event] returns; it adds one context unless there is no listener. *)
Lemma dispatch_event_run w reg ev root snap :
  registry_ok w reg = true ->
  exists tr,
    dispatch_event reg ev root snap w
    = (Ok tt,
       mk_world (objs w)
         (if bool_decide (_event_actions reg = []) then contexts w
          else contexts w ++ [mk_context root snap (Some ev) []])
         (trace w ++ tr)) /\
    invocations tr = (fun r => (r, length (contexts w))) <$> _event_actions reg.
Proof.
  intros Hok. unfold dispatch_event.
  destruct (bool_decide (_event_actions reg = [])) eqn:He.
  - apply bool_decide_eq_true in He. rewrite He. exists [].
    rewrite app_nil_r. destruct w; split; reflexivity.
  - unfold mbind, new_context.
    destruct (for_each_safe_invoke (length (contexts w)) (Some ev)
                (mk_context root snap (Some ev) []) (_event_actions reg)
                (mk_world (objs w) (contexts w ++ [mk_context root snap (Some ev) []])
                   (trace w))) as (tr & Hrun & Hinv).
    + cbn. rewrite lookup_app_r by lia. now rewrite Nat.sub_diag.
    + intros r Hr. cbn. apply (event_actions_spec _ _ _ Hok) in Hr as (_ & a & -> & _). eauto.
    + exists tr. split; [exact Hrun | exact Hinv].
Qed.

Lemma is_event_trigger_false a :
  is_event_trigger a = false -> type (trigger a) <> EVENT.
Proof. unfold is_event_trigger. apply bool_decide_eq_false. Qed.

Lemma action_ok_spec a :
  action_ok a = true ->
  validated_trigger (trigger a) = true /\
  forall t, next_run_at a = Some t -> valid_datetime t = true.
Proof.
  unfold action_ok. rewrite andb_true_iff. intros [Hv Ht]. split; [assumption|].
  intros t E. now rewrite E in Ht.
Qed.

(** Before year 9999, [now + timedelta(seconds=1)] exists and is still far from
    the end of the range. *)
Lemma one_second_later now :
  valid_datetime now = true -> (year now < MAXYEAR)%Z ->
  exists reference,
    datetime_add now (timedelta_new 0 0 0 1) = Ok reference /\
    valid_datetime reference = true /\
    (to_micro reference = to_micro now + 1000000)%Z /\
    (toordinal reference <= LAST_SAFE_ORDINAL)%Z.
Proof.
  intros Hnow Hy. unfold MAXYEAR in Hy.
  pose proof (before_last_year_micro _ Hnow Hy) as Hend.
  assert (Hnn : nonneg_delta (timedelta_new 0 0 0 1)) by (apply nonneg_delta_new; lia).
  destruct (datetime_add_ok now (timedelta_new 0 0 0 1) Hnow Hnn) as [reference Hadd].
  { rewrite delta_micro_new. unfold END_OF_TIME, MAXORDINAL. lia. }
  destruct (datetime_add_inv _ _ _ Hnow Hnn Hadd) as [Hv Hm].
  rewrite delta_micro_new in Hm.
  exists reference. split; [exact Hadd|]. split; [exact Hv|]. split; [lia|].
  pose proof Hv as Hv'. apply valid_datetime_spec in Hv' as (_ & ? & ? & ? & ?).
  unfold LAST_SAFE_ORDINAL. unfold to_micro at 1 in Hm. lia.
Qed.

(** One pass of the loop body of [dispatch_scheduled] on a time triggered
    action, at an instant before year 9999. *)
Lemma dispatch_one_run now root snap r w a :
  objs w !! r = Some a -> action_ok a = true -> is_event_trigger a = false ->
  valid_datetime now = true -> (year now < MAXYEAR)%Z ->
  exists a' tr,
    dispatch_one now root snap r w
    = (Ok tt,
       mk_world (<[r := a']> (objs w))
         (if is_due now a then contexts w ++ [fired root snap a] else contexts w)
         (trace w ++ tr)) /\
    invocations tr = (if is_due now a then [(r, length (contexts w))] else []) /\
    stepped now snap a a'.
Proof.
  intros Ha Hok Hev Hnow Hy.
  destruct (action_ok_spec _ Hok) as [Hvt Hvn].
  pose proof (is_event_trigger_false _ Hev) as Hty.
  pose proof (lookup_lt_Some _ _ _ Ha) as Hlen.
  destruct w as [os cs tr0]. cbn [objs contexts trace] in *.
  destruct (next_run_at a) as [due |] eqn:Hnext.
  - (* a due time is set *)
    specialize (Hvn due eq_refl).
    destruct (datetime_lt now due) eqn:Hlt.
    + (* not yet due *)
      exists a, []. unfold is_due. rewrite Hnext, Hlt. cbn [negb].
      split; [| split; [reflexivity|]].
      * unfold dispatch_one, mbind, get_action, ret. cbn. rewrite Ha. cbn.
        rewrite Hnext. cbn. rewrite Ha. cbn. rewrite Hnext, Hlt.
        rewrite list_insert_id by exact Ha. now rewrite app_nil_r.
      * unfold stepped, is_due. rewrite Hnext, Hlt. cbn [negb].
        repeat split; try reflexivity; try assumption. eauto.
    + (* due: fire, then reschedule from now + 1s *)
      destruct (one_second_later now Hnow Hy) as (reference & Hadd & Hvr & Hmr & Hor).
      destruct (compute_next_run_returns_ordinal (trigger a) reference Hvt Hvr Hor)
        as [res Hres].
      destruct (compute_next_run_after _ _ _ Hvt Hvr Hty Hres) as (next & -> & Hvnext & Hltn).
      set (c := fired root snap a).
      set (a' := mk_action (name a) (callback a) (options a) (trigger a) (Some next)
                   (Some snap)).
      exists a', (call_effects r (length cs) a c None).
      unfold is_due. rewrite Hnext, Hlt. cbn [negb].
      split; [| split; [apply invocations_call|]].
      * unfold dispatch_one, mbind at 1 2 3, get_action at 1 2, ret.
        cbn. rewrite Ha. cbn. rewrite Hnext. cbn. rewrite Ha. cbn. rewrite Hnext, Hlt.
        unfold mbind at 1, new_context. cbn.
        unfold mbind at 1.
        rewrite (safe_invoke_run _ r (length cs) None a c).
        2: { exact Ha. }
        2: { cbn. rewrite lookup_app_r by lia. now rewrite Nat.sub_diag. }
        cbn [objs contexts trace].
        unfold mbind, get_action, put_action, lift, schedule_next_run, mbind, get_action,
          put_action, lift.
        cbn. rewrite Ha. cbn. rewrite Hadd. cbn.
        rewrite list_lookup_insert_eq by exact Hlen. cbn. rewrite Hres. cbn.
        rewrite list_insert_insert_eq. reflexivity.
      * unfold stepped, is_due. rewrite Hnext, Hlt. cbn [negb].
        subst a'. cbn [name callback options trigger next_run_at previous_snapshot].
        repeat split.
        -- unfold action_ok. cbn. now rewrite Hvt, Hvnext.
        -- exists next. split; [reflexivity|].
           apply datetime_lt_micro in Hltn; [| assumption..].
           apply datetime_lt_micro; [assumption..|]. lia.
        -- exists reference. auto.
  - (* no due time yet: schedule from now and skip this cycle *)
    unfold MAXYEAR in Hy.
    destruct (compute_next_run_returns (trigger a) now Hvt Hnow Hy) as [res Hres].
    destruct (compute_next_run_after _ _ _ Hvt Hnow Hty Hres) as (next & -> & Hvnext & Hltn).
    set (a' := mk_action (name a) (callback a) (options a) (trigger a) (Some next)
                 (previous_snapshot a)).
    exists a', []. unfold is_due. rewrite Hnext.
    split; [| split; [reflexivity|]].
    + unfold dispatch_one, mbind, get_action, ret, schedule_next_run, mbind, get_action,
        put_action, lift.
      cbn. rewrite Ha. cbn. rewrite Hnext. cbn. rewrite Ha. cbn. rewrite Hres. cbn.
      rewrite list_lookup_insert_eq by exact Hlen. cbn. rewrite Hltn.
      now rewrite app_nil_r.
    + unfold stepped, is_due. rewrite Hnext.
      subst a'. cbn [name callback options trigger next_run_at previous_snapshot].
      repeat split.
      * unfold action_ok. cbn. now rewrite Hvt, Hvnext.
      * eauto.
      * exact Hres.
Qed.

(** The whole loop: every action of the list is stepped once, the others are
    untouched, and the due ones are entered in order with fresh contexts. *)
Lemma for_each_dispatch now root snap l :
  NoDup l -> valid_datetime now = true -> (year now < MAXYEAR)%Z ->
  forall w,
  (forall r, r ∈ l -> time_triggered w r) ->
  exists w' tr,
    for_each l (dispatch_one now root snap) w = (Ok tt, w') /\
    length (objs w') = length (objs w) /\
    (forall r, r ∉ l -> objs w' !! r = objs w !! r) /\
    (forall r a, r ∈ l -> objs w !! r = Some a ->
       exists a', objs w' !! r = Some a' /\ stepped now snap a a') /\
    contexts w' = contexts w ++ (context_for root snap w <$> List.filter (due_ref now w) l) /\
    trace w' = trace w ++ tr /\
    invocations tr = numbered (length (contexts w)) (List.filter (due_ref now w) l).
Proof.
  intros Hnd Hnow Hy. induction l as [| r l IH]; intros w Hl.
  - exists w, []. cbn. rewrite !app_nil_r. repeat split; try reflexivity.
    intros r a Hr. inversion Hr.
  - apply NoDup_cons in Hnd as [Hrl Hnd].
    destruct (Hl r ltac:(left)) as (a & Ha & Hok & Hev).
    destruct (dispatch_one_run now root snap r w a Ha Hok Hev Hnow Hy)
      as (a' & tr1 & Hrun & Hinv1 & Hstep).
    set (w1 := mk_world (<[r := a']> (objs w))
                 (if is_due now a then contexts w ++ [fired root snap a] else contexts w)
                 (trace w ++ tr1)) in *.
    pose proof (lookup_lt_Some _ _ _ Ha) as Hlen.
    assert (Hsame : forall r', r' ∈ l -> objs w1 !! r' = objs w !! r').
    { intros r' Hr'. cbn. apply list_lookup_insert_ne. intros ->. contradiction. }
    destruct (IH Hnd w1) as (w' & tr2 & Hrun2 & Hlen2 & Hout & Hin & Hctx & Htr & Hinv2).
    { intros r' Hr'. destruct (Hl r' ltac:(now right)) as (b & Hb & Hbok & Hbev).
      exists b. rewrite (Hsame r' Hr'). auto. }
    assert (Hdue : List.filter (due_ref now w1) l = List.filter (due_ref now w) l).
    { apply List.filter_ext_in. intros r' Hr'. apply list_elem_of_In in Hr'.
      unfold due_ref. now rewrite (Hsame r' Hr'). }
    assert (Hcf : context_for root snap w1 <$> List.filter (due_ref now w) l
                  = context_for root snap w <$> List.filter (due_ref now w) l).
    { apply list_fmap_ext. intros i r' Hr'. apply list_elem_of_lookup_2 in Hr'.
      apply list_elem_of_In, filter_In in Hr' as [Hr' _]. apply list_elem_of_In in Hr'.
      unfold context_for. now rewrite (Hsame r' Hr'). }
    assert (Hdr : due_ref now w r = is_due now a) by (unfold due_ref; now rewrite Ha).
    assert (Hcr : context_for root snap w r = fired root snap a)
      by (unfold context_for; now rewrite Ha).
    exists w', (tr1 ++ tr2).
    split; [| split; [| split; [| split; [| split; [| split]]]]].
    + cbn [for_each]. unfold mbind. rewrite Hrun. exact Hrun2.
    + rewrite Hlen2. cbn. apply length_insert.
    + intros r0 Hr0. apply not_elem_of_cons in Hr0 as [Hne Hr0].
      rewrite (Hout r0 Hr0). cbn. now apply list_lookup_insert_ne.
    + intros r0 a0 Hr0 Ha0. apply elem_of_cons in Hr0 as [-> | Hr0].
      * assert (a0 = a) by congruence. subst a0.
        exists a'. split; [| exact Hstep].
        rewrite (Hout r Hrl). cbn. now apply list_lookup_insert_eq.
      * apply (Hin r0 a0 Hr0). now rewrite (Hsame r0 Hr0).
    + rewrite Hctx, Hdue, Hcf. cbn [List.filter]. rewrite Hdr. subst w1. cbn [contexts].
      destruct (is_due now a); [| reflexivity].
      cbn [fmap list_fmap]. rewrite Hcr, <- app_assoc. reflexivity.
    + rewrite Htr. cbn. now rewrite app_assoc.
    + rewrite invocations_app, Hinv1, Hinv2, Hdue. cbn [List.filter]. rewrite Hdr.
      subst w1. cbn [contexts].
      destruct (is_due now a); [| reflexivity].
      rewrite length_app. cbn. now rewrite Nat.add_1_r.
Qed.

Lemma dispatch_scheduled_run w reg now root snap :
  registry_ok w reg = true -> valid_datetime now = true -> (year now < MAXYEAR)%Z ->
  exists w' tr,
    dispatch_scheduled reg now root snap w = (Ok tt, w') /\
    length (objs w') = length (objs w) /\
    (forall r, r ∉ _scheduled_actions reg -> objs w' !! r = objs w !! r) /\
    (forall r a, r ∈ _scheduled_actions reg -> objs w !! r = Some a ->
       exists a', objs w' !! r = Some a' /\ stepped now snap a a') /\
    contexts w' = contexts w ++
      (context_for root snap w <$> List.filter (due_ref now w) (_scheduled_actions reg)) /\
    trace w' = trace w ++ tr /\
    invocations tr
    = numbered (length (contexts w)) (List.filter (due_ref now w) (_scheduled_actions reg)).
Proof.
  intros Hok Hnow Hy. unfold dispatch_scheduled.
  destruct (bool_decide (_scheduled_actions reg = [])) eqn:He.
  - apply bool_decide_eq_true in He. rewrite He. exists w, []. cbn.
    rewrite !app_nil_r. repeat split; try reflexivity. intros r a Hr. inversion Hr.
  - apply for_each_dispatch; try assumption.
    + exact (scheduled_actions_NoDup _ _ Hok).
    + intros r Hr. apply (scheduled_actions_spec _ _ _ Hok) in Hr as (_ & a & Ha & Hev & Haok).
      exists a. auto.
Qed.

(** An action that is not yet due is left alone. *)
Lemma dispatch_one_idle now root snap r w a next :
  objs w !! r = Some a -> next_run_at a = Some next -> datetime_lt now next = true ->
  dispatch_one now root snap r w = (Ok tt, w).
Proof.
  intros Ha Hn Hlt. unfold dispatch_one, mbind, get_action, ret.
  rewrite Ha. cbn. rewrite Hn. cbn. rewrite Ha. cbn. now rewrite Hn, Hlt.
Qed.

Lemma for_each_idle now root snap w l :
  (forall r, r ∈ l -> exists a next,
     objs w !! r = Some a /\ next_run_at a = Some next /\ datetime_lt now next = true) ->
  for_each l (dispatch_one now root snap) w = (Ok tt, w).
Proof.
  induction l as [| r l IH]; intros Hl; [reflexivity|].
  destruct (Hl r ltac:(left)) as (a & next & Ha & Hn & Hlt).
  cbn [for_each]. unfold mbind. rewrite (dispatch_one_idle _ _ _ _ _ _ _ Ha Hn Hlt).
  apply IH. intros r' Hr'. apply Hl. now right.
Qed.

(** C8.  [dispatch_event] on a registry without event triggered actions
    changes nothing: no context object, no call.  Otherwise it allocates
    exactly one [ActionContext], carrying the change as [event] and an empty
    [modified_events], and enters every event triggered action, in order,
    with that one context object. *)
Theorem dispatch_event_shares_one_context w reg ev root snap :
  registry_ok w reg = true ->
  exists w' tr,
    dispatch_event reg ev root snap w = (Ok tt, w') /\
    objs w' = objs w /\ trace w' = trace w ++ tr /\
    _event_actions reg = List.filter (event_ref w) (_actions reg) /\
    (_event_actions reg = [] -> w' = w) /\
    (_event_actions reg <> [] ->
       contexts w' = contexts w ++ [mk_context root snap (Some ev) []] /\
       invocations tr = (fun r => (r, length (contexts w))) <$> _event_actions reg).
Proof.
  intros Hok. destruct (registry_ok_spec _ _ Hok) as (_ & _ & Hev & _).
  destruct (dispatch_event_run w reg ev root snap Hok) as (tr & Hrun & Hinv).
  destruct (bool_decide (_event_actions reg = [])) eqn:He.
  - apply bool_decide_eq_true in He. exists w, [].
    split; [| split; [reflexivity | split; [now rewrite app_nil_r | split; [exact Hev|]]]].
    + unfold dispatch_event. rewrite He. reflexivity.
    + split; [reflexivity | congruence].
  - apply bool_decide_eq_false in He. eexists _, tr.
    split; [exact Hrun|]. cbn. repeat split; try assumption; try reflexivity.
    contradiction.
Qed.

(** C4, amended.  For a time triggered action that is due in a call of
    [dispatch_scheduled] at an instant [now] before the last year of the
    datetime range: the call returns, and afterwards, whether the callback
    returned or raised, the action's [previous_snapshot] is the current
    snapshot and its [next_run_at] is [_compute_next_run] of its trigger at
    [now] plus one second, which is strictly after [now]; the action is no
    longer due at [now], and a second call at the same instant changes nothing
    and enters no callback. *)
Theorem due_action_is_rescheduled_after_now w reg now root snap r a :
  registry_ok w reg = true -> valid_datetime now = true -> (year now < MAXYEAR)%Z ->
  r ∈ _scheduled_actions reg -> objs w !! r = Some a -> is_due now a = true ->
  exists w' a' reference next,
    dispatch_scheduled reg now root snap w = (Ok tt, w') /\
    objs w' !! r = Some a' /\
    previous_snapshot a' = Some snap /\
    datetime_add now (timedelta_new 0 0 0 1) = Ok reference /\
    _compute_next_run (trigger a) reference = Ok (Some next) /\
    next_run_at a' = Some next /\
    datetime_lt now next = true /\
    is_due now a' = false /\
    dispatch_scheduled reg now root snap w' = (Ok tt, w').
Proof.
  intros Hok Hnow Hy Hr Ha Hdue.
  destruct (dispatch_scheduled_run w reg now root snap Hok Hnow Hy)
    as (w' & tr & Hrun & Hlen & Hout & Hin & Hctx & Htr & Hinv).
  destruct (Hin r a Hr Ha) as (a' & Ha' & Hstep).
  destruct Hstep as (_ & _ & _ & _ & _ & (next & Hnext & Hlt) & Hcase).
  rewrite Hdue in Hcase. destruct Hcase as (Hprev & reference & Hadd & Hcomp).
  exists w', a', reference, next. rewrite Hnext in Hcomp.
  repeat split; try assumption.
  - unfold is_due. now rewrite Hnext, Hlt.
  - unfold dispatch_scheduled. destruct (bool_decide _); [reflexivity|].
    apply for_each_idle. intros r' Hr'.
    apply (scheduled_actions_spec _ _ _ Hok) in Hr' as Hspec.
    destruct Hspec as (_ & b & Hb & _).
    destruct (Hin r' b Hr' Hb) as (b' & Hb' & Hstep').
    destruct Hstep' as (_ & _ & _ & _ & _ & (n' & Hn' & Hlt') & _).
    exists b', n'. auto.
Qed.

(** C3, amended.  An exception raised by a callback is caught at the
    per-action call site: [_safe_invoke] logs it and returns, and
    [dispatch_event] enters every event triggered action whatever the others
    do.  For an instant [now] before the last year of the datetime range,
    [dispatch_scheduled] returns, enters every due action in order and moves
    the due time of each after [now]; in particular when two time triggered
    actions are due at [now] and the callback of the first raises, the second
    is still entered and both due times advance.  (In the last year
    rescheduling itself can raise and end the loop.) *)
Theorem callback_failure_is_isolated w reg now root snap ev :
  registry_ok w reg = true ->
  (forall r a ctx c hint e,
     objs w !! r = Some a -> contexts w !! ctx = Some c ->
     callback a c (options a) = Raised e ->
     _safe_invoke r ctx hint w
     = (Ok tt,
        mk_world (objs w) (contexts w)
          (trace w ++ [LogDebug (name a) (type (trigger a)); Invoked r ctx;
                       LogException (name a) hint]))) /\
  (exists w' tr,
     dispatch_event reg ev root snap w = (Ok tt, w') /\ trace w' = trace w ++ tr /\
     invocations tr = (fun r => (r, length (contexts w))) <$> _event_actions reg) /\
  (valid_datetime now = true -> (year now < MAXYEAR)%Z ->
   exists w' tr,
     dispatch_scheduled reg now root snap w = (Ok tt, w') /\ trace w' = trace w ++ tr /\
     invocations tr
     = numbered (length (contexts w)) (List.filter (due_ref now w) (_scheduled_actions reg)) /\
     forall r a, r ∈ _scheduled_actions reg -> objs w !! r = Some a -> is_due now a = true ->
       exists a' next, objs w' !! r = Some a' /\ next_run_at a' = Some next /\
         datetime_lt now next = true) /\
  (valid_datetime now = true -> (year now < MAXYEAR)%Z ->
   forall r1 r2 a1 a2 e,
     _scheduled_actions reg = [r1; r2] ->
     objs w !! r1 = Some a1 -> objs w !! r2 = Some a2 ->
     is_due now a1 = true -> is_due now a2 = true ->
     callback a1 (fired root snap a1) (options a1) = Raised e ->
     exists w' tr a1' a2' next1 next2,
       dispatch_scheduled reg now root snap w = (Ok tt, w') /\ trace w' = trace w ++ tr /\
       invocations tr = [(r1, length (contexts w)); (r2, S (length (contexts w)))] /\
       objs w' !! r1 = Some a1' /\ next_run_at a1' = Some next1 /\
       datetime_lt now next1 = true /\
       objs w' !! r2 = Some a2' /\ next_run_at a2' = Some next2 /\
       datetime_lt now next2 = true).
Proof.
  intros Hok. split; [| split; [| split]].
  - intros r a ctx c hint e Ha Hc Hraise.
    rewrite (safe_invoke_run _ _ _ _ _ _ Ha Hc). unfold call_effects. now rewrite Hraise.
  - destruct (dispatch_event_run w reg ev root snap Hok) as (tr & Hrun & Hinv).
    eexists _, tr. split; [exact Hrun|]. split; [reflexivity | exact Hinv].
  - intros Hnow Hy.
    destruct (dispatch_scheduled_run w reg now root snap Hok Hnow Hy)
      as (w' & tr & Hrun & Hlen & Hout & Hin & Hctx & Htr & Hinv).
    exists w', tr. repeat split; try assumption.
    intros r a Hr Ha Hdue. destruct (Hin r a Hr Ha) as (a' & Ha' & Hstep).
    destruct Hstep as (_ & _ & _ & _ & _ & (next & Hnext & Hlt) & _).
    exists a', next. auto.
  - intros Hnow Hy r1 r2 a1 a2 e Hsched Ha1 Ha2 Hd1 Hd2 Hraise.
    destruct (dispatch_scheduled_run w reg now root snap Hok Hnow Hy)
      as (w' & tr & Hrun & Hlen & Hout & Hin & Hctx & Htr & Hinv).
    rewrite Hsched in Hin, Hinv.
    destruct (Hin r1 a1 ltac:(left) Ha1) as (a1' & Ha1' & Hs1).
    destruct (Hin r2 a2 ltac:(right; left) Ha2) as (a2' & Ha2' & Hs2).
    destruct Hs1 as (_ & _ & _ & _ & _ & (n1 & Hn1 & Hl1) & _).
    destruct Hs2 as (_ & _ & _ & _ & _ & (n2 & Hn2 & Hl2) & _).
    exists w', tr, a1', a2', n1, n2. repeat split; try assumption.
    rewrite Hinv. cbn [List.filter]. unfold due_ref. rewrite Ha1, Ha2, Hd1, Hd2. reflexivity.
Qed.

(** [load_all] appends one unscheduled action per configuration. *)
Lemma load_all_run modules configs : forall w refs w1,
  load_all modules configs w = (Ok refs, w1) ->
  exists acts,
    objs w1 = objs w ++ acts /\ contexts w1 = contexts w /\ trace w1 = trace w /\
    refs = seq (length (objs w)) (length acts) /\
    Forall2 (fun cfg a => trigger a = cfg_trigger cfg /\ next_run_at a = None) configs acts.
Proof.
  induction configs as [| cfg configs IH]; intros w refs w1 Hrun.
  - cbn in Hrun. injection Hrun as <- <-. exists []. rewrite app_nil_r.
    repeat split; constructor.
  - cbn [load_all] in Hrun. unfold mbind at 1, lift in Hrun.
    destruct (_load_action modules cfg) as [a |] eqn:Hload; [| discriminate].
    unfold mbind at 1, new_action in Hrun.
    unfold mbind at 1 in Hrun.
    destruct (load_all modules configs _) as [[rest | e] w2] eqn:Hrest; [| discriminate].
    cbn in Hrun. injection Hrun as <- <-.
    destruct (IH _ _ _ Hrest) as (acts & Ho & Hc & Ht & Hr & Hf). cbn in Ho, Hc, Ht, Hr.
    exists (a :: acts). rewrite Ho, <- app_assoc. repeat split; try assumption.
    + rewrite Hr, length_app. cbn. rewrite Nat.add_1_r. reflexivity.
    + constructor; [| exact Hf].
      unfold _load_action, _import_module, Py.bind in Hload.
      destruct (modules !! cfg_module cfg) as [m |]; [| discriminate].
      destruct (m !! cfg_function cfg) as [[f |] |]; try discriminate.
      injection Hload as <-. split; reflexivity.
Qed.

(** [select] is a filter on the store. *)
Lemma select_run keep refs : forall w,
  (forall r, r ∈ refs -> is_Some (objs w !! r)) ->
  select keep refs w
  = (Ok (List.filter (fun r => match objs w !! r with Some a => keep a | None => false end)
           refs), w).
Proof.
  induction refs as [| r refs IH]; intros w Hl; [reflexivity|].
  destruct (Hl r ltac:(left)) as [a Ha].
  cbn [select List.filter]. unfold mbind, get_action, ret. rewrite Ha.
  rewrite IH by (intros r' Hr'; apply Hl; now right).
  destruct (keep a); reflexivity.
Qed.

(** The scheduling loop of the constructor. *)
Lemma for_each_schedule now l :
  NoDup l -> valid_datetime now = true ->
  forall w w',
  (forall r, r ∈ l -> exists a, objs w !! r = Some a /\
      validated_trigger (trigger a) = true /\ is_event_trigger a = false) ->
  for_each l (fun r => schedule_next_run r now) w = (Ok tt, w') ->
  contexts w' = contexts w /\ trace w' = trace w /\
  length (objs w') = length (objs w) /\
  (forall r, r ∉ l -> objs w' !! r = objs w !! r) /\
  (forall r a, r ∈ l -> objs w !! r = Some a ->
     exists next, valid_datetime next = true /\
       objs w' !! r = Some (mk_action (name a) (callback a) (options a) (trigger a)
                              (Some next) (previous_snapshot a))).
Proof.
  intros Hnd Hnow. induction l as [| r l IH]; intros w w' Hl Hrun.
  - cbn in Hrun. injection Hrun as <-. repeat split; try reflexivity.
    intros r a Hr. inversion Hr.
  - apply NoDup_cons in Hnd as [Hrl Hnd].
    destruct (Hl r ltac:(left)) as (a & Ha & Hvt & Hev).
    pose proof (lookup_lt_Some _ _ _ Ha) as Hlen.
    cbn [for_each] in Hrun. unfold mbind at 1 in Hrun.
    unfold schedule_next_run, mbind, get_action, lift, put_action in Hrun.
    rewrite Ha in Hrun.
    destruct (_compute_next_run (trigger a) now) as [res |] eqn:Hres; [| discriminate].
    destruct (compute_next_run_after _ _ _ Hvt Hnow (is_event_trigger_false _ Hev) Hres)
      as (next & -> & Hvn & _).
    match type of Hrun with
    | for_each _ _ ?w1 = _ => set (w1' := w1) in *
    end.
    assert (Hsame : forall r', r' ∈ l -> objs w1' !! r' = objs w !! r').
    { intros r' Hr'. cbn. apply list_lookup_insert_ne. intros ->. contradiction. }
    destruct (IH Hnd w1' w') as (Hc & Ht & Hlen' & Hout & Hin).
    { intros r' Hr'. rewrite (Hsame r' Hr'). apply Hl. now right. }
    { exact Hrun. }
    split; [exact Hc|]. split; [exact Ht|].
    split; [rewrite Hlen'; cbn; apply length_insert|].
    split.
    + intros r0 Hr0. apply not_elem_of_cons in Hr0 as [Hne Hr0].
      rewrite (Hout r0 Hr0). cbn. now apply list_lookup_insert_ne.
    + intros r0 a0 Hr0 Ha0. apply elem_of_cons in Hr0 as [-> | Hr0].
      * assert (a0 = a) by congruence. subst a0. exists next. split; [exact Hvn|].
        rewrite (Hout r Hrl). cbn. now apply list_lookup_insert_eq.
      * apply (Hin r0 a0 Hr0). now rewrite (Hsame r0 Hr0).
Qed.

(** The constructor establishes [registry_ok]. *)
Lemma init_establishes_registry_ok modules configs reference_time clock w reg w' :
  Forall (fun cfg => validated_trigger (cfg_trigger cfg) = true) configs ->
  valid_datetime (default clock reference_time) = true ->
  __init__ modules configs reference_time clock w = (Ok reg, w') ->
  registry_ok w' reg = true /\ contexts w' = contexts w /\ trace w' = trace w /\
  length (_actions reg) = length configs.
Proof.
  intros Hcfg Hnow Hrun. unfold __init__ in Hrun. unfold mbind at 1 in Hrun.
  destruct (load_all modules configs w) as [[refs | e] w1] eqn:Hload; [| discriminate].
  destruct (load_all_run _ _ _ _ _ Hload) as (acts & Ho & Hc & Ht & Hrefs & Hf).
  assert (Hget : forall r, r ∈ refs ->
            exists a, objs w1 !! r = Some a /\ validated_trigger (trigger a) = true /\
                      next_run_at a = None).
  { intros r Hr. rewrite Hrefs in Hr. apply elem_of_seq in Hr.
    destruct (lookup_lt_is_Some_2 acts (r - length (objs w))) as [a Ha]; [lia|].
    exists a. rewrite Ho, lookup_app_r by lia. split; [exact Ha|].
    destruct (Forall2_lookup_r _ _ _ _ _ Hf Ha) as (cfg & Hcfg' & Htr & Hn).
    rewrite Htr. split; [| exact Hn].
    rewrite Forall_forall in Hcfg. apply Hcfg. eapply list_elem_of_lookup_2, Hcfg'. }
  assert (Hsome : forall r, r ∈ refs -> is_Some (objs w1 !! r)).
  { intros r Hr. destruct (Hget r Hr) as (a & -> & _). eauto. }
  unfold mbind at 1 in Hrun. rewrite (select_run _ _ _ Hsome) in Hrun.
  unfold mbind at 1 in Hrun. rewrite (select_run _ _ _ Hsome) in Hrun.
  unfold mbind at 1 in Hrun.
  set (sched := List.filter _ refs) in Hrun.
  set (evs := List.filter _ refs) in Hrun.
  destruct (for_each sched _ w1) as [[[] | e] w2] eqn:Hloop; [| discriminate].
  cbn in Hrun. injection Hrun as <- <-.
  assert (Hndr : NoDup refs) by (rewrite Hrefs; apply NoDup_seq).
  assert (Hnds : NoDup sched)
    by (apply NoDup_ListNoDup, List.NoDup_filter, NoDup_ListNoDup, Hndr).
  destruct (for_each_schedule _ sched Hnds Hnow w1 w2) as (Hc2 & Ht2 & Hlen2 & Hout & Hin).
  { intros r Hr. apply list_elem_of_In, filter_In in Hr as [Hr Hk].
    apply list_elem_of_In in Hr. destruct (Hget r Hr) as (a & Ha & Hv & _).
    rewrite Ha in Hk. exists a. apply negb_true_iff in Hk. auto. }
  { exact Hloop. }
  assert (Hev : forall r, r ∈ refs -> event_ref w2 r = event_ref w1 r).
  { intros r Hr. unfold event_ref. destruct (Hget r Hr) as (a & Ha & _).
    destruct (decide (r ∈ sched)) as [Hs | Hs].
    - destruct (Hin r a Hs Ha) as (next & _ & ->). now rewrite Ha.
    - now rewrite (Hout r Hs). }
  split; [| split; [congruence | split; [congruence|]]].
  2: { cbn. rewrite Hrefs, length_seq. symmetry. eapply Forall2_length, Hf. }
  unfold registry_ok. cbn [_actions _event_actions _scheduled_actions].
  rewrite !andb_true_iff, !bool_decide_eq_true. repeat split.
  - apply forallb_forall. intros r Hr. apply list_elem_of_In in Hr.
    destruct (Hget r Hr) as (a & Ha & Hv & Hn).
    destruct (decide (r ∈ sched)) as [Hs | Hs].
    + destruct (Hin r a Hs Ha) as (next & Hvn & ->). unfold action_ok. cbn.
      now rewrite Hv, Hvn.
    + rewrite (Hout r Hs), Ha. unfold action_ok. now rewrite Hv, Hn.
  - exact Hndr.
  - subst evs. apply List.filter_ext_in. intros r Hr. apply list_elem_of_In in Hr.
    now rewrite (Hev r Hr).
  - subst sched. apply List.filter_ext_in. intros r Hr. apply list_elem_of_In in Hr.
    rewrite (Hev r Hr). unfold event_ref. destruct (Hget r Hr) as (a & -> & _). reflexivity.
Qed.

(** [dispatch_scheduled] keeps [registry_ok]. *)
Lemma dispatch_scheduled_keeps_registry_ok w reg now root snap w' :
  registry_ok w reg = true -> valid_datetime now = true -> (year now < MAXYEAR)%Z ->
  dispatch_scheduled reg now root snap w = (Ok tt, w') ->
  registry_ok w' reg = true.
Proof.
  intros Hok Hnow Hy Hrun.
  destruct (dispatch_scheduled_run w reg now root snap Hok Hnow Hy)
    as (w2 & tr & Hrun2 & _ & Hout & Hin & _).
  rewrite Hrun in Hrun2. injection Hrun2 as <-.
  destruct (registry_ok_spec _ _ Hok) as (Hnd & Hall & Hev & Hsch).
  assert (Hkeep : forall r, r ∈ _actions reg ->
            exists a a', objs w !! r = Some a /\ objs w' !! r = Some a' /\
              trigger a' = trigger a /\ action_ok a' = true).
  { intros r Hr. destruct (Hall r Hr) as (a & Ha & Haok).
    destruct (decide (r ∈ _scheduled_actions reg)) as [Hs | Hs].
    - destruct (Hin r a Hs Ha) as (a' & Ha' & Hstep).
      destruct Hstep as (_ & _ & _ & Htr & Hok' & _). exists a, a'. auto.
    - exists a, a. rewrite (Hout r Hs). auto. }
  assert (Hevr : forall r, r ∈ _actions reg -> event_ref w' r = event_ref w r).
  { intros r Hr. destruct (Hkeep r Hr) as (a & a' & Ha & Ha' & Htr & _).
    unfold event_ref, is_event_trigger. now rewrite Ha, Ha', Htr. }
  unfold registry_ok. rewrite !andb_true_iff, !bool_decide_eq_true. repeat split.
  - apply forallb_forall. intros r Hr. apply list_elem_of_In in Hr.
    destruct (Hkeep r Hr) as (a & a' & _ & -> & _ & Hok'). exact Hok'.
  - exact Hnd.
  - rewrite Hev. apply List.filter_ext_in. intros r Hr. apply list_elem_of_In in Hr.
    now rewrite (Hevr r Hr).
  - rewrite Hsch. apply List.filter_ext_in. intros r Hr. apply list_elem_of_In in Hr.
    now rewrite (Hevr r Hr).
Qed.

End RegistryFacts.

(** ** Worked instances *)

Section Instances.

Import Py Datetime Config Scheduler Events Actions Spec Samples.
Local Open Scope string_scope.

(** The constructor leaves the sample stores. *)
Lemma two_timers_constructed :
  __init__ sample_modules two_timers (Some an_evening) an_evening empty_world
  = (Ok timers_registry, timers_world eleven_pm).
Proof. vm_compute. reflexivity. Qed.

Lemma two_timers_constructed_late :
  __init__ sample_modules two_timers (Some last_half_minute) last_half_minute empty_world
  = (Ok timers_registry, timers_world last_minute).
Proof. vm_compute. reflexivity. Qed.

Lemma listeners_constructed :
  __init__ sample_modules listeners_and_timer (Some an_evening) an_evening empty_world
  = (Ok listeners_registry, listeners_world).
Proof. vm_compute. reflexivity. Qed.

(** Hourly at minute 30 from 10:45:00 gives 11:30:00. *)
Example hourly_from_quarter_to_eleven :
  _compute_next_run hourly_at_30 quarter_to_eleven
  = Ok (Some (mk_datetime 2024 5 6 11 30 0 0)).
Proof. vm_compute. reflexivity. Qed.

(** A file that grew and a new file: one [MODIFIED], one [CREATED], nothing
    [DELETED]. *)
Example diff_end_to_end :
  let a := ["data"; "a.txt"] in
  let b := ["data"; "b.txt"] in
  let old : Snapshot := {[ a := (100, 10)%Z ]} in
  let new : Snapshot := {[ a := (100, 20)%Z; b := (101, 5)%Z ]} in
  Actions._diff_snapshots old new
  ≡ₚ [ mk_event MODIFIED a None (Some 20%Z) (Some 100%Z);
       mk_event CREATED b None (Some 5%Z) (Some 101%Z) ].
Proof.
  cbv zeta. apply NoDup_Permutation.
  - eapply NoDup_fmap_1, diff_paths_NoDup.
  - repeat constructor; rewrite ?list_elem_of_singleton, ?elem_of_nil; intuition discriminate.
  - intros e. rewrite diff_elem_of. split.
    + intros [p m s Hn Ho | p m s m' s' Hn Ho Hd | p m s Ho Hn].
      * apply lookup_insert_Some in Hn as [[<- [= <- <-]] | [Hne Hn]].
        { rewrite lookup_singleton_eq in Ho. discriminate. }
        apply lookup_singleton_Some in Hn as [<- [= <- <-]]. right. left.
      * apply lookup_singleton_Some in Ho as [<- [= <- <-]].
        rewrite lookup_insert_eq in Hn. injection Hn as <- <-. left.
      * apply lookup_singleton_Some in Ho as [<- [= <- <-]].
        rewrite lookup_insert_eq in Hn. discriminate.
    + intros He. apply elem_of_cons in He as [-> | He].
      * eapply change_modified;
          [apply lookup_insert_eq | apply lookup_singleton_eq | congruence].
      * apply list_elem_of_singleton in He as ->. apply change_created.
        -- rewrite lookup_insert_ne by discriminate. apply lookup_singleton_eq.
        -- apply lookup_singleton_ne. discriminate.
Qed.

Lemma next_run_strictly_after_reference_witness :
  validated_trigger hourly_at_30 = true /\
  valid_datetime quarter_to_eleven = true /\
  Config.type hourly_at_30 <> EVENT /\
  (year quarter_to_eleven < MAXYEAR)%Z /\
  exists c, _compute_next_run hourly_at_30 quarter_to_eleven = Ok (Some c) /\
    valid_datetime c = true /\ datetime_lt quarter_to_eleven c = true.
Proof.
  assert (H1 : validated_trigger hourly_at_30 = true) by (vm_compute; reflexivity).
  assert (H2 : valid_datetime quarter_to_eleven = true) by (vm_compute; reflexivity).
  assert (H3 : Config.type hourly_at_30 <> EVENT) by discriminate.
  assert (H4 : (year quarter_to_eleven < MAXYEAR)%Z) by (vm_compute; reflexivity).
  repeat (split; [assumption|]).
  exact (proj2 (next_run_strictly_after_reference hourly_at_30 quarter_to_eleven H1 H2 H3) H4).
Defined.

(** In the last minute of year 9999 the minutely candidate is not after the
    reference and adding a minute leaves the datetime range. *)
Lemma next_run_raises_in_the_last_minute :
  validated_trigger every_minute = true /\
  valid_datetime last_second = true /\
  Config.type every_minute <> EVENT /\
  _compute_next_run every_minute last_second = Raise OverflowError /\
  ~ (exists c, _compute_next_run every_minute last_second = Ok (Some c) /\
       datetime_lt last_second c = true).
Proof.
  assert (H : _compute_next_run every_minute last_second = Raise OverflowError)
    by (vm_compute; reflexivity).
  split; [vm_compute; reflexivity|]. split; [vm_compute; reflexivity|].
  split; [discriminate|]. split; [exact H|].
  intros (c & Hc & _). rewrite H in Hc. discriminate.
Qed.

Lemma monthly_day_is_clamped_witness :
  validated_trigger monthly_on_31 = true /\
  valid_datetime end_of_january = true /\
  Config.type monthly_on_31 = MONTHLY /\
  (year end_of_january < MAXYEAR)%Z /\
  _is_leap 2023 = false /\
  _compute_next_run monthly_on_31 end_of_january
  = Ok (Some (mk_datetime 2023 2 28 9 0 0 0)).
Proof.
  assert (H1 : validated_trigger monthly_on_31 = true) by (vm_compute; reflexivity).
  assert (H2 : valid_datetime end_of_january = true) by (vm_compute; reflexivity).
  assert (H3 : Config.type monthly_on_31 = MONTHLY) by reflexivity.
  assert (H4 : (year end_of_january < MAXYEAR)%Z) by (vm_compute; reflexivity).
  repeat (split; [assumption|]). split; [vm_compute; reflexivity|].
  exact (proj1 (proj2 (monthly_day_is_clamped monthly_on_31 end_of_january H1 H2 H3)) H4).
Defined.

Lemma weekly_next_run_witness :
  validated_trigger wednesday_morning = true /\
  valid_datetime wednesday_night = true /\
  Config.type wednesday_morning = WEEKLY /\
  Datetime.weekday wednesday_night = 2%Z /\
  _compute_next_run wednesday_morning wednesday_night
  = Ok (Some (mk_datetime 2024 5 15 9 0 0 0)) /\
  (forall c, weekly_next 2 (mk_time 9 0 0) wednesday_night = Ok c ->
     toordinal c = (toordinal wednesday_night + 7)%Z).
Proof.
  assert (H1 : validated_trigger wednesday_morning = true) by (vm_compute; reflexivity).
  assert (H2 : valid_datetime wednesday_night = true) by (vm_compute; reflexivity).
  assert (H3 : Config.type wednesday_morning = WEEKLY) by reflexivity.
  repeat (split; [assumption|]). split; [vm_compute; reflexivity|].
  destruct (weekly_next_run wednesday_morning wednesday_night H1 H2 H3) as (Heq & _ & Hprops).
  split; [vm_compute; reflexivity|].
  intros c Hc. destruct (Hprops c Hc) as (_ & _ & _ & _ & _ & _ & _ & Hsame).
  apply Hsame; vm_compute; reflexivity.
Defined.

Lemma dispatch_event_shares_one_context_witness :
  registry_ok listeners_world listeners_registry = true /\
  exists w' tr,
    dispatch_event listeners_registry sample_event sample_root sample_snapshot listeners_world
    = (Ok tt, w') /\
    objs w' = objs listeners_world /\ trace w' = (trace listeners_world ++ tr)%list /\
    _event_actions listeners_registry
    = List.filter (event_ref listeners_world) (_actions listeners_registry) /\
    (_event_actions listeners_registry = [] -> w' = listeners_world) /\
    (_event_actions listeners_registry <> [] ->
       contexts w' = (contexts listeners_world
                      ++ [mk_context sample_root sample_snapshot (Some sample_event) []])%list /\
       invocations tr
       = (fun r => (r, length (contexts listeners_world))) <$> _event_actions listeners_registry).
Proof.
  assert (H1 : registry_ok listeners_world listeners_registry = true)
    by (vm_compute; reflexivity).
  split; [exact H1|].
  exact (dispatch_event_shares_one_context listeners_world listeners_registry sample_event
           sample_root sample_snapshot H1).
Defined.

(** Both listeners are entered with context object 0, the first one raising. *)
Example dispatch_event_sample :
  let '(res, w') :=
    dispatch_event listeners_registry sample_event sample_root sample_snapshot listeners_world in
  res = Ok tt /\ invocations (trace w') = [(0, 0); (2, 0)] /\
  contexts w' = [mk_context sample_root sample_snapshot (Some sample_event) []] /\
  LogException "notify" (Some sample_event) ∈ trace w'.
Proof.
  vm_compute. repeat split. apply list_elem_of_lookup. exists 2. reflexivity.
Qed.

Lemma due_action_is_rescheduled_after_now_witness :
  registry_ok (timers_world eleven_pm) timers_registry = true /\
  valid_datetime eleven_pm = true /\
  (year eleven_pm < MAXYEAR)%Z /\ 0 ∈ _scheduled_actions timers_registry /\
  objs (timers_world eleven_pm) !! 0 = Some (timer "first" failing eleven_pm) /\
  is_due eleven_pm (timer "first" failing eleven_pm) = true /\
  exists w' a' reference next,
    dispatch_scheduled timers_registry eleven_pm sample_root sample_snapshot
      (timers_world eleven_pm) = (Ok tt, w') /\
    objs w' !! 0 = Some a' /\
    previous_snapshot a' = Some sample_snapshot /\
    datetime_add eleven_pm (timedelta_new 0 0 0 1) = Ok reference /\
    _compute_next_run (trigger (timer "first" failing eleven_pm)) reference = Ok (Some next) /\
    next_run_at a' = Some next /\
    datetime_lt eleven_pm next = true /\
    is_due eleven_pm a' = false /\
    dispatch_scheduled timers_registry eleven_pm sample_root sample_snapshot w' = (Ok tt, w').
Proof.
  assert (H1 : registry_ok (timers_world eleven_pm) timers_registry = true)
    by (vm_compute; reflexivity).
  assert (H2 : valid_datetime eleven_pm = true) by (vm_compute; reflexivity).
  assert (H3 : (year eleven_pm < MAXYEAR)%Z) by (vm_compute; reflexivity).
  assert (H4 : 0 ∈ _scheduled_actions timers_registry) by (apply list_elem_of_here).
  assert (H5 : objs (timers_world eleven_pm) !! 0 = Some (timer "first" failing eleven_pm))
    by reflexivity.
  assert (H6 : is_due eleven_pm (timer "first" failing eleven_pm) = true)
    by (vm_compute; reflexivity).
  repeat (split; [assumption|]).
  exact (due_action_is_rescheduled_after_now _ _ _ sample_root sample_snapshot _ _
           H1 H2 H3 H4 H5 H6).
Defined.

(** In the last minute of year 9999 a due timer is fired, its baseline is
    replaced, and then [now + timedelta(seconds=1)] raises: the due time stays
    where it was, not after [now], and a second pass at the same instant
    fires the timer again. *)
Lemma due_timer_not_rescheduled_in_the_last_minute :
  let run := dispatch_scheduled timers_registry last_second sample_root sample_snapshot in
  registry_ok (timers_world last_minute) timers_registry = true /\
  valid_datetime last_second = true /\
  0 ∈ _scheduled_actions timers_registry /\
  objs (timers_world last_minute) !! 0 = Some (timer "first" failing last_minute) /\
  is_due last_second (timer "first" failing last_minute) = true /\
  (run (timers_world last_minute)).1 = Raise OverflowError /\
  (previous_snapshot <$> objs (run (timers_world last_minute)).2 !! 0)
  = Some (Some sample_snapshot) /\
  (next_run_at <$> objs (run (timers_world last_minute)).2 !! 0) = Some (Some last_minute) /\
  datetime_lt last_second last_minute = false /\
  invocations (trace (run (run (timers_world last_minute)).2).2) = [(0, 0); (0, 1)].
Proof.
  cbv zeta. split; [vm_compute; reflexivity|]. split; [vm_compute; reflexivity|].
  split; [apply list_elem_of_here|]. repeat split; vm_compute; reflexivity.
Qed.

Lemma callback_failure_is_isolated_witness :
  registry_ok (timers_world eleven_pm) timers_registry = true /\
  valid_datetime eleven_pm = true /\ (year eleven_pm < MAXYEAR)%Z /\
  _scheduled_actions timers_registry = [0; 1] /\
  is_due eleven_pm (timer "first" failing eleven_pm) = true /\
  is_due eleven_pm (timer "second" quiet eleven_pm) = true /\
  callback (timer "first" failing eleven_pm)
    (fired sample_root sample_snapshot (timer "first" failing eleven_pm))
    (options (timer "first" failing eleven_pm)) = Raised (UserError "boom") /\
  exists w' tr a1' a2' next1 next2,
    dispatch_scheduled timers_registry eleven_pm sample_root sample_snapshot
      (timers_world eleven_pm) = (Ok tt, w') /\
    trace w' = (trace (timers_world eleven_pm) ++ tr)%list /\
    invocations tr = [(0, length (contexts (timers_world eleven_pm)));
                      (1, S (length (contexts (timers_world eleven_pm))))] /\
    objs w' !! 0 = Some a1' /\ next_run_at a1' = Some next1 /\
    datetime_lt eleven_pm next1 = true /\
    objs w' !! 1 = Some a2' /\ next_run_at a2' = Some next2 /\
    datetime_lt eleven_pm next2 = true.
Proof.
  assert (H1 : registry_ok (timers_world eleven_pm) timers_registry = true)
    by (vm_compute; reflexivity).
  assert (H2 : valid_datetime eleven_pm = true) by (vm_compute; reflexivity).
  assert (H3 : (year eleven_pm < MAXYEAR)%Z) by (vm_compute; reflexivity).
  assert (H4 : is_due eleven_pm (timer "first" failing eleven_pm) = true)
    by (vm_compute; reflexivity).
  assert (H5 : is_due eleven_pm (timer "second" quiet eleven_pm) = true)
    by (vm_compute; reflexivity).
  split; [exact H1|]. split; [exact H2|]. split; [exact H3|]. split; [reflexivity|].
  split; [exact H4|]. split; [exact H5|]. split; [reflexivity|].
  exact (proj2 (proj2 (proj2
           (callback_failure_is_isolated (timers_world eleven_pm) timers_registry eleven_pm
              sample_root sample_snapshot sample_event H1)))
           H2 H3 0 1 _ _ _ eq_refl eq_refl eq_refl H4 H5 eq_refl).
Defined.

(** In the last minute of year 9999 the first timer's callback raises and is
    caught, but rescheduling that timer raises [OverflowError], which leaves
    the loop: the second timer, due at the same instant, is not entered and
    its due time does not move. *)
Lemma second_timer_not_reached_in_the_last_minute :
  let run := dispatch_scheduled timers_registry last_second sample_root sample_snapshot in
  registry_ok (timers_world last_minute) timers_registry = true /\
  valid_datetime last_second = true /\
  _scheduled_actions timers_registry = [0; 1] /\
  is_due last_second (timer "first" failing last_minute) = true /\
  is_due last_second (timer "second" quiet last_minute) = true /\
  callback (timer "first" failing last_minute)
    (fired sample_root sample_snapshot (timer "first" failing last_minute))
    (options (timer "first" failing last_minute)) = Raised (UserError "boom") /\
  (run (timers_world last_minute)).1 = Raise OverflowError /\
  invocations (trace (run (timers_world last_minute)).2) = [(0, 0)] /\
  objs (run (timers_world last_minute)).2 !! 1 = Some (timer "second" quiet last_minute).
Proof.
  cbv zeta. repeat split; vm_compute; reflexivity.
Qed.

End Instances.

(** ** The first occurrence of a schedule *)

(** The field ranges of a valid datetime, as hypotheses. *)
Ltac time_bounds H :=
  let H' := fresh H in
  pose proof H as H'; apply valid_datetime_spec in H' as (? & ? & ? & ? & ?).

Section OccurrenceFacts.

Import Py Datetime Config Scheduler Spec Occurrences Samples.
Local Open Scope Z_scope.

Lemma advance_if_due_micro base reference delta c :
  valid_datetime base = true -> valid_datetime reference = true ->
  nonneg_delta delta ->
  advance_if_due base reference delta = Ok (Some c) ->
  valid_datetime c = true /\
  ((to_micro base <= to_micro reference /\
    to_micro c = to_micro base + delta_micro delta) \/
   (to_micro reference < to_micro base /\ c = base)).
Proof.
  intros Hb Hr Hd. unfold advance_if_due.
  destruct (datetime_le base reference) eqn:Hle.
  - unfold Py.bind. destruct (datetime_add base delta) as [c' |] eqn:Hadd; [| discriminate].
    intros [= <-]. destruct (datetime_add_inv _ _ _ Hb Hd Hadd) as [Hc Hm].
    apply datetime_le_micro in Hle; [| assumption..]. auto.
  - intros [= <-]. apply datetime_le_false_micro in Hle; [| assumption..]. auto.
Qed.

(** Two valid datetimes at the same point of the line are the same. *)
Lemma to_micro_inj a b :
  valid_datetime a = true -> valid_datetime b = true ->
  to_micro a = to_micro b -> a = b.
Proof.
  intros Ha Hb Heq.
  pose proof (datetime_compare_micro a b Ha Hb) as Hc.
  rewrite Heq, Z.compare_refl in Hc.
  unfold datetime_compare, date_compare, tod_compare, lex in Hc.
  destruct a as [y1 m1 d1 h1 mi1 s1 u1], b as [y2 m2 d2 h2 mi2 s2 u2]. cbn in Hc.
  destruct (Z.compare_spec y1 y2); try discriminate.
  destruct (Z.compare_spec m1 m2); try discriminate.
  destruct (Z.compare_spec d1 d2); try discriminate.
  destruct (Z.compare_spec h1 h2); try discriminate.
  destruct (Z.compare_spec mi1 mi2); try discriminate.
  destruct (Z.compare_spec s1 s2); try discriminate.
  destruct (Z.compare_spec u1 u2); try discriminate.
  congruence.
Qed.

Lemma minutely_first trigger reference c :
  validated_trigger trigger = true -> valid_datetime reference = true ->
  Config.type trigger = MINUTELY ->
  _compute_next_run trigger reference = Ok (Some c) ->
  first_after trigger reference c.
Proof.
  intros Hv Href Hty.
  pose proof (trigger_second_bounds _ Hv) as Hsec.
  time_bounds Href.
  unfold _compute_next_run. rewrite Hty.
  destruct (decide (MINUTELY = EVENT)); [discriminate|].
  destruct (decide (MINUTELY = MINUTELY)); [| contradiction].
  rewrite replace_ok
    by (try assumption; cbn [default from_option id]; apply check_time_fields_intro; lia).
  cbn [default from_option id Py.bind].
  set (base := mk_datetime _ _ _ _ _ _ _).
  assert (Hbase : valid_datetime base = true)
    by (apply valid_same_date; [assumption|]; apply check_time_fields_intro; lia).
  intros Hrun.
  apply (advance_if_due_micro base reference) in Hrun as [Hc Hcase];
    [| assumption | assumption | apply nonneg_delta_new; lia].
  rewrite delta_micro_new in Hcase.
  assert (Hbm : to_micro base
    = (toordinal reference * 86400 + hour reference * 3600
       + Datetime.minute reference * 60 + trigger_second trigger) * 1000000 + 0)
    by reflexivity.
  unfold first_after, occurrence. rewrite Hty. cbn [period_micro].
  fold (trigger_second trigger) in *.
  time_bounds Hc.
  assert (Hfields : second c = trigger_second trigger /\ microsecond c = 0).
  { destruct Hcase as [[_ Hcm] | [_ ->]]; [| split; reflexivity].
    rewrite Hbm in Hcm. unfold to_micro in Hcm. lia. }
  destruct Hfields as [Hs Hu].
  split; [assumption|]. split; [auto|].
  assert (Hcr : to_micro reference < to_micro c <= to_micro reference + 60000000).
  { destruct Hcase as [[Hle Hcm] | [Hlt ->]]; rewrite ?Hbm in *; unfold to_micro in *; lia. }
  split; [lia|]. split; [lia|].
  intros d Hd [Hds Hdu] Hlt. time_bounds Hd.
  unfold to_micro in *. lia.
Qed.

Lemma hourly_first trigger reference c :
  validated_trigger trigger = true -> valid_datetime reference = true ->
  Config.type trigger = HOURLY ->
  _compute_next_run trigger reference = Ok (Some c) ->
  first_after trigger reference c.
Proof.
  intros Hv Href Hty.
  pose proof (trigger_second_bounds _ Hv) as Hsec.
  pose proof (trigger_minute_bounds _ Hv) as Hmn.
  time_bounds Href.
  unfold _compute_next_run. rewrite Hty.
  destruct (decide (HOURLY = EVENT)); [discriminate|].
  destruct (decide (HOURLY = MINUTELY)); [discriminate|].
  destruct (decide (HOURLY = HOURLY)); [| contradiction].
  rewrite replace_ok
    by (try assumption; cbn [default from_option id]; apply check_time_fields_intro; lia).
  cbn [default from_option id Py.bind].
  set (base := mk_datetime _ _ _ _ _ _ _).
  assert (Hbase : valid_datetime base = true)
    by (apply valid_same_date; [assumption|]; apply check_time_fields_intro; lia).
  intros Hrun.
  apply (advance_if_due_micro base reference) in Hrun as [Hc Hcase];
    [| assumption | assumption | apply nonneg_delta_new; lia].
  rewrite delta_micro_new in Hcase.
  assert (Hbm : to_micro base
    = (toordinal reference * 86400 + hour reference * 3600
       + trigger_minute trigger * 60 + trigger_second trigger) * 1000000 + 0)
    by reflexivity.
  unfold first_after, occurrence. rewrite Hty. cbn [period_micro].
  fold (trigger_second trigger) in *. fold (trigger_minute trigger) in *.
  time_bounds Hc.
  assert (Hfields : Datetime.minute c = trigger_minute trigger /\
                    second c = trigger_second trigger /\ microsecond c = 0).
  { destruct Hcase as [[_ Hcm] | [_ ->]]; [| repeat split; reflexivity].
    rewrite Hbm in Hcm. unfold to_micro in Hcm. lia. }
  destruct Hfields as (Hm & Hs & Hu).
  split; [assumption|]. split; [auto|].
  assert (Hcr : to_micro reference < to_micro c <= to_micro reference + 3600000000).
  { destruct Hcase as [[Hle Hcm] | [Hlt ->]]; rewrite ?Hbm in *; unfold to_micro in *; lia. }
  split; [lia|]. split; [lia|].
  intros d Hd (Hdm & Hds & Hdu) Hlt. time_bounds Hd.
  unfold to_micro in *. lia.
Qed.

Lemma daily_first trigger reference c :
  validated_trigger trigger = true -> valid_datetime reference = true ->
  Config.type trigger = DAILY ->
  _compute_next_run trigger reference = Ok (Some c) ->
  first_after trigger reference c.
Proof.
  intros Hv Href Hty.
  pose proof (time_of_day_bounds _ Hv) as Htod. cbv zeta in Htod.
  fold (trigger_time_of_day trigger) in Htod. destruct Htod as (Hth & Htm & Hts).
  time_bounds Href.
  unfold _compute_next_run. rewrite Hty.
  destruct (decide (DAILY = EVENT)); [discriminate|].
  destruct (decide (DAILY = MINUTELY)); [discriminate|].
  destruct (decide (DAILY = HOURLY)); [discriminate|].
  fold (trigger_time_of_day trigger).
  rewrite replace_ok
    by (try assumption; cbn [default from_option id]; apply check_time_fields_intro; lia).
  cbn [default from_option id Py.bind].
  set (base := mk_datetime _ _ _ _ _ _ _).
  assert (Hbase : valid_datetime base = true)
    by (apply valid_same_date; [assumption|]; apply check_time_fields_intro; lia).
  destruct (decide (DAILY = DAILY)); [| contradiction].
  intros Hrun.
  apply (advance_if_due_micro base reference) in Hrun as [Hc Hcase];
    [| assumption | assumption | apply nonneg_delta_new; lia].
  rewrite delta_micro_new in Hcase.
  set (tod := trigger_time_of_day trigger) in *.
  assert (Hbm : to_micro base
    = (toordinal reference * 86400 + t_hour tod * 3600
       + t_minute tod * 60 + t_second tod) * 1000000 + 0)
    by reflexivity.
  unfold first_after, occurrence, at_time_of_day. rewrite Hty. cbn [period_micro].
  fold tod.
  time_bounds Hc.
  assert (Hfields : hour c = t_hour tod /\ Datetime.minute c = t_minute tod /\
                    second c = t_second tod /\ microsecond c = 0).
  { destruct Hcase as [[_ Hcm] | [_ ->]]; [| repeat split; reflexivity].
    rewrite Hbm in Hcm. unfold to_micro in Hcm. lia. }
  destruct Hfields as (Hh & Hm & Hs & Hu).
  split; [assumption|]. split; [auto|].
  assert (Hcr : to_micro reference < to_micro c <= to_micro reference + 86400000000).
  { destruct Hcase as [[Hle Hcm] | [Hlt ->]]; rewrite ?Hbm in *; unfold to_micro in *; lia. }
  split; [lia|]. split; [lia|].
  intros d Hd (Hdh & Hdm & Hds & Hdu) Hlt. time_bounds Hd.
  unfold to_micro in *. lia.
Qed.

Lemma weekly_first trigger reference c :
  validated_trigger trigger = true -> valid_datetime reference = true ->
  Config.type trigger = WEEKLY ->
  _compute_next_run trigger reference = Ok (Some c) ->
  first_after trigger reference c.
Proof.
  intros Hv Href Hty Hrun.
  pose proof (time_of_day_bounds _ Hv) as Htod. cbv zeta in Htod.
  fold (trigger_time_of_day trigger) in Htod.
  pose proof (trigger_weekday_bounds trigger reference Hv) as Hw.
  rewrite weekly_run in Hrun by assumption.
  destruct (weekly_next _ _ reference) as [c' |] eqn:Hnext; [| discriminate].
  cbn in Hrun. injection Hrun as ->.
  destruct (weekly_next_props _ _ _ _ Href Htod Hw Hnext)
    as (Hc & Hwd & Hh & Hm & Hs & Hu & Hlt & Hord).
  cbv zeta in Hord.
  set (tod := trigger_time_of_day trigger) in *.
  set (w := trigger_weekday trigger reference) in *.
  destruct Htod as (Hth & Htm & Hts).
  time_bounds Href. time_bounds Hc.
  apply datetime_lt_micro in Hlt; [| assumption..].
  unfold first_after, occurrence, at_time_of_day. rewrite Hty. cbn [period_micro].
  fold tod. fold w.
  split; [assumption|]. split; [auto|]. split; [assumption|].
  set (same_day := at_time _ _ _ _) in Hord.
  assert (Hsame : valid_datetime same_day = true)
    by (apply valid_same_date; [assumption|]; apply check_time_fields_intro; lia).
  assert (Hsm : to_micro same_day
    = (toordinal reference * 86400 + t_hour tod * 3600
       + t_minute tod * 60 + t_second tod) * 1000000 + 0) by reflexivity.
  assert (Hahead : 0 <= (w - Datetime.weekday reference) mod 7 < 7)
    by (apply Z.mod_pos_bound; lia).
  set (ahead := (w - Datetime.weekday reference) mod 7) in *.
  assert (Hcm : to_micro c
    = (toordinal c * 86400 + t_hour tod * 3600
       + t_minute tod * 60 + t_second tod) * 1000000 + 0)
    by (unfold to_micro; rewrite Hh, Hm, Hs, Hu; reflexivity).
  split.
  { destruct (ahead =? 0) eqn:Hz; cbn [andb] in Hord.
    - destruct (datetime_le same_day reference) eqn:Hle.
      + apply datetime_le_micro in Hle; [| assumption..]. lia.
      + apply Z.eqb_eq in Hz. unfold to_micro at 2. lia.
    - apply Z.eqb_neq in Hz. unfold to_micro at 2. lia. }
  intros d Hd ((Hdh & Hdm & Hds & Hdu) & Hdw) Hltd. time_bounds Hd.
  assert (Hdmicro : to_micro d
    = (toordinal d * 86400 + t_hour tod * 3600
       + t_minute tod * 60 + t_second tod) * 1000000 + 0)
    by (unfold to_micro; rewrite Hdh, Hdm, Hds, Hdu; reflexivity).
  rewrite Hcm, Hdmicro.
  enough (toordinal c <= toordinal d) by lia.
  unfold Datetime.weekday in Hwd, Hdw.
  destruct (Z_lt_le_dec (toordinal d) (toordinal c)) as [Hbad |]; [exfalso | assumption].
  assert (Hweek : toordinal d <= toordinal c - 7)
    by (revert Hwd Hdw Hbad; generalize (toordinal c) (toordinal d); intros;
        Z.div_mod_to_equations; lia).
  destruct (ahead =? 0) eqn:Hz; cbn [andb] in Hord.
  - destruct (datetime_le same_day reference) eqn:Hle.
    + apply datetime_le_micro in Hle; [| assumption..]. lia.
    + unfold to_micro in Hltd at 1. lia.
  - unfold to_micro in Hltd at 1. lia.
Qed.

Lemma later_month_ordinal a b :
  valid_datetime a = true -> valid_datetime b = true ->
  year a < year b \/ (year a = year b /\ month a < month b) ->
  toordinal a < toordinal b.
Proof.
  intros Ha Hb Hlt.
  apply valid_datetime_spec in Ha as (Ha & _). apply valid_datetime_spec in Hb as (Hb & _).
  unfold toordinal. destruct Hlt as [Hy | [Hy Hm]].
  - apply ymd2ord_year_lt; assumption.
  - rewrite Hy in *. apply ymd2ord_month_lt; assumption.
Qed.

Lemma first_of_following_month y m :
  1 <= m <= 12 ->
  let '(y', m') := following_month y m in
  forall d', _ymd2ord y' m' d' = _ymd2ord y m (_days_in_month y m) + d'.
Proof.
  intros Hm. unfold following_month.
  destruct (Z.eqb_spec m 12) as [-> | Hne].
  - intros d'. unfold _ymd2ord. rewrite days_before_year_step.
    unfold _days_before_month, _days_in_month. cbn.
    destruct (_is_leap y); lia.
  - intros d'. unfold _ymd2ord, _days_before_month, _days_in_month.
    month_cases m; try lia; znorm; cbn; destruct (_is_leap y); cbn; lia.
Qed.

Lemma monthly_first trigger reference c :
  validated_trigger trigger = true -> valid_datetime reference = true ->
  Config.type trigger = MONTHLY ->
  _compute_next_run trigger reference = Ok (Some c) ->
  first_after trigger reference c.
Proof.
  intros Hv Href Hty Hrun.
  assert (Hne : Config.type trigger <> EVENT) by (rewrite Hty; discriminate).
  destruct (compute_next_run_after _ _ _ Hv Href Hne Hrun) as (c' & [= <-] & Hc & Hlt).
  apply monthly_run in Hrun; [| assumption..]. injection Hrun as Hrun.
  pose proof (time_of_day_bounds _ Hv) as Htod. cbv zeta in Htod.
  fold (trigger_time_of_day trigger) in Htod. destruct Htod as (Hth & Htm & Hts).
  fold (trigger_day trigger reference) in Hrun.
  set (tod := trigger_time_of_day trigger) in *.
  set (dd := trigger_day trigger reference) in *.
  assert (Hdd : 1 <= dd).
  { subst dd. unfold trigger_day.
    apply validated_trigger_spec in Hv as (_ & _ & Hday & _).
    destruct (Config.day trigger) as [x |]; [pose proof (Hday x eq_refl); lia|].
    apply valid_datetime_spec in Href as (Hdate & _).
    apply check_date_fields_spec in Hdate. lia. }
  time_bounds Href. time_bounds Hc.
  match goal with H : check_date_fields (year reference) _ _ = true |- _ =>
    pose proof H as Hrd; apply check_date_fields_spec in Hrd as (Hry & Hrm & Hrday) end.
  apply datetime_lt_micro in Hlt; [| assumption..].
  set (cand := clamped (year reference) (month reference) dd tod).
  assert (Hcand : valid_datetime cand = true).
  { apply valid_datetime_spec. cbn.
    pose proof (days_in_month_pos (year reference) _ Hrm).
    rewrite check_date_fields_spec. lia. }
  assert (Hcandm : to_micro cand
    = (toordinal cand * 86400 + t_hour tod * 3600
       + t_minute tod * 60 + t_second tod) * 1000000 + 0) by reflexivity.
  assert (Hcm : to_micro c
    = (toordinal c * 86400 + t_hour tod * 3600
       + t_minute tod * 60 + t_second tod) * 1000000 + 0).
  { rewrite Hrun. unfold monthly_next. fold cand.
    destruct (datetime_lt reference cand); [reflexivity|].
    destruct (following_month _ _). reflexivity. }
  assert (Hocc : at_time_of_day tod c /\
                 Datetime.day c = Z.min dd (_days_in_month (year c) (month c))).
  { rewrite Hrun. unfold monthly_next. fold cand.
    destruct (datetime_lt reference cand); [repeat split|].
    destruct (following_month _ _). repeat split. }
  unfold first_after, occurrence. rewrite Hty. cbn [period_micro].
  fold tod. fold dd.
  split; [assumption|]. split; [assumption|]. split; [assumption|].
  assert (Hcases : forall x, x = monthly_next dd tod reference ->
    (to_micro reference < to_micro cand /\ x = cand) \/
    (to_micro cand <= to_micro reference /\
     (year x, month x) = following_month (year reference) (month reference) /\
     toordinal x = toordinal cand
                   + (_days_in_month (year reference) (month reference) - Datetime.day cand)
                   + Datetime.day x)).
  { intros x ->. unfold monthly_next. fold cand.
    destruct (datetime_lt reference cand) eqn:Hlc.
    - left. apply datetime_lt_micro in Hlc; [| assumption..]. auto.
    - right. split.
      { destruct (Z_lt_le_dec (to_micro reference) (to_micro cand)) as [Hbad |]; [| lia].
        apply datetime_lt_micro in Hbad; [| assumption..]. congruence. }
      pose proof (first_of_following_month (year reference) (month reference) Hrm) as Hf.
      destruct (following_month _ _) as [y' m']. split; [reflexivity|].
      unfold toordinal at 1. cbn [year month Datetime.day clamped at_time].
      rewrite Hf. unfold toordinal, cand, clamped, at_time.
      cbn [year month Datetime.day]. unfold _ymd2ord. lia. }
  specialize (Hcases c Hrun).
  pose proof (days_in_month_pos (year reference) _ Hrm) as Hdim.
  split.
  { destruct Hcases as [[Hl ->] | (Hle & Hym & Hord)].
    - assert (toordinal cand - toordinal reference
              = Datetime.day cand - Datetime.day reference)
        by (unfold toordinal, cand, clamped, at_time, _ymd2ord; cbn; lia).
      assert (Datetime.day cand <= 31) by (unfold cand, clamped, at_time; cbn; lia).
      rewrite Hcandm. unfold to_micro. lia.
    - destruct Hocc as [_ Hday].
      assert (1 <= month c <= 12).
      { match goal with H : check_date_fields (year c) _ _ = true |- _ =>
          apply check_date_fields_spec in H; lia end. }
      pose proof (days_in_month_pos (year c) (month c) ltac:(assumption)).
      assert (Hcd : Datetime.day cand = Z.min dd (_days_in_month (year reference) (month reference)))
        by reflexivity.
      assert (toordinal c - toordinal cand <= 31) by lia.
      rewrite Hcm. rewrite Hcandm in Hle. lia. }
  intros d Hd ((Hdh & Hdm & Hds & Hdu) & Hdday) Hltd. time_bounds Hd.
  assert (Hdmicro : to_micro d
    = (toordinal d * 86400 + t_hour tod * 3600
       + t_minute tod * 60 + t_second tod) * 1000000 + 0)
    by (unfold to_micro; rewrite Hdh, Hdm, Hds, Hdu; reflexivity).
  assert (Hmonth_of : forall x, valid_datetime x = true ->
            at_time_of_day tod x ->
            Datetime.day x = Z.min dd (_days_in_month (year x) (month x)) ->
            x = clamped (year x) (month x) dd tod).
  { intros [xy xm xd xh xmi xs xu] _ (Hxh & Hxm & Hxs & Hxu) Hxd. cbn in *.
    unfold clamped, at_time. congruence. }
  destruct (Z_lt_le_dec (year d) (year reference)) as [Hy1 | Hy1].
  { pose proof (later_month_ordinal d reference Hd Href ltac:(lia)).
    exfalso. unfold to_micro in Hltd at 1. lia. }
  destruct (Z_lt_le_dec (year reference) (year d)) as [Hy2 | Hy2].
  { (* a later year *)
    destruct Hcases as [[Hl ->] | (Hle & Hym & Hord)].
    - pose proof (later_month_ordinal cand d Hcand Hd ltac:(left; exact Hy2)). lia.
    - unfold following_month in Hym.
      destruct (Z.eqb_spec (month reference) 12) as [Hdec | Hdec]; injection Hym as Hcy Hcmo.
      + destruct (Z_lt_le_dec (year c) (year d)) as [Hl1 |].
        { pose proof (later_month_ordinal c d Hc Hd ltac:(lia)). lia. }
        match goal with H : check_date_fields (year d) _ _ = true |- _ =>
          pose proof H as Hdd'; apply check_date_fields_spec in Hdd' end.
        destruct (Z_lt_le_dec 1 (month d)) as [Hl2 |].
        { pose proof (later_month_ordinal c d Hc Hd ltac:(lia)). lia. }
        assert (d = c); [| subst; lia].
        rewrite (Hmonth_of d Hd ltac:(repeat split; assumption) Hdday).
        rewrite (Hmonth_of c Hc (proj1 Hocc) (proj2 Hocc)).
        f_equal; lia.
      + pose proof (later_month_ordinal c d Hc Hd ltac:(lia)). lia. }
  assert (Hyeq : year d = year reference) by lia.
  destruct (Z_lt_le_dec (month d) (month reference)) as [Hm1 | Hm1].
  { pose proof (later_month_ordinal d reference Hd Href ltac:(lia)).
    exfalso. unfold to_micro in Hltd at 1. lia. }
  destruct (Z_lt_le_dec (month reference) (month d)) as [Hm2 | Hm2].
  { destruct Hcases as [[Hl ->] | (Hle & Hym & Hord)].
    - pose proof (later_month_ordinal cand d Hcand Hd
                    ltac:(right; split; [symmetry; exact Hyeq | exact Hm2])). lia.
    - unfold following_month in Hym.
      match goal with H : check_date_fields (year d) _ _ = true |- _ =>
        pose proof H as Hdd'; apply check_date_fields_spec in Hdd' end.
      destruct (Z.eqb_spec (month reference) 12) as [Hdec | Hdec]; [lia|].
      injection Hym as Hcy Hcmo.
      destruct (Z_lt_le_dec (month c) (month d)) as [Hl1 |].
      { pose proof (later_month_ordinal c d Hc Hd ltac:(lia)). lia. }
      assert (d = c); [| subst; lia].
      rewrite (Hmonth_of d Hd ltac:(repeat split; assumption) Hdday).
      rewrite (Hmonth_of c Hc (proj1 Hocc) (proj2 Hocc)).
      f_equal; lia. }
  assert (Hmeq : month d = month reference) by lia.
  assert (Hdc : d = cand).
  { rewrite (Hmonth_of d Hd ltac:(repeat split; assumption) Hdday).
    unfold cand. rewrite Hyeq, Hmeq. reflexivity. }
  destruct Hcases as [[Hl ->] | (Hle & _)]; subst d; lia.
Qed.

Lemma next_run_first_after trigger reference c :
  validated_trigger trigger = true -> valid_datetime reference = true ->
  _compute_next_run trigger reference = Ok (Some c) ->
  first_after trigger reference c.
Proof.
  intros Hv Href Hrun.
  destruct (Config.type trigger) eqn:Hty.
  - unfold _compute_next_run in Hrun. rewrite Hty in Hrun. cbn in Hrun. discriminate.
  - now apply minutely_first.
  - now apply hourly_first.
  - now apply daily_first.
  - now apply weekly_first.
  - now apply monthly_first.
Qed.

(** A self-contained trigger names the same instants whatever the reference. *)
Lemma occurrence_reference trigger r1 r2 d :
  self_contained trigger = true ->
  occurrence trigger r1 d -> occurrence trigger r2 d.
Proof.
  unfold self_contained, occurrence, trigger_weekday, trigger_day.
  destruct (Config.type trigger), (Config.weekday trigger), (Config.day trigger);
    try discriminate; auto.
Qed.

(** X1.  For a trigger with validated fields, the instant [_compute_next_run]
    returns is the first instant after the reference that the schedule names:
    it is one of the schedule's instants ([occurrence]), it lies strictly
    after the reference, and every instant of the schedule strictly after the
    reference is at or after it, so no instant of the schedule is skipped. *)
Theorem next_run_is_the_first_occurrence trigger reference c :
  validated_trigger trigger = true -> valid_datetime reference = true ->
  _compute_next_run trigger reference = Ok (Some c) ->
  occurrence trigger reference c /\
  datetime_lt reference c = true /\
  forall d, valid_datetime d = true -> occurrence trigger reference d ->
    datetime_lt reference d = true -> datetime_le c d = true.
Proof.
  intros Hv Href Hrun.
  destruct (next_run_first_after _ _ _ Hv Href Hrun) as (Hc & Hocc & Hlt & _ & Hleast).
  split; [assumption|]. split; [apply datetime_lt_micro; assumption|].
  intros d Hd Hoccd Hltd. apply datetime_lt_micro in Hltd; [| assumption..].
  apply datetime_le_micro; auto.
Qed.

(** X2.  The wait never exceeds one period: the instant [_compute_next_run]
    returns lies strictly after the reference and at most one minute (minutely),
    one hour (hourly), one day (daily), seven days (weekly) or 31 days
    (monthly) after it. *)
Theorem next_run_within_one_period trigger reference c :
  validated_trigger trigger = true -> valid_datetime reference = true ->
  _compute_next_run trigger reference = Ok (Some c) ->
  0 < to_micro c - to_micro reference <= period_micro (Config.type trigger).
Proof.
  intros Hv Href Hrun.
  destruct (next_run_first_after _ _ _ Hv Href Hrun) as (_ & _ & Hlt & Hper & _). lia.
Qed.

(** X3.  A later reference never yields an earlier run, for a trigger that names
    its own weekday or day of the month (as every trigger out of the
    configuration does): if [r1 <= r2], the run computed from [r1] is at or
    before the run computed from [r2]. *)
Theorem next_run_is_monotone trigger r1 r2 c1 c2 :
  validated_trigger trigger = true -> self_contained trigger = true ->
  valid_datetime r1 = true -> valid_datetime r2 = true ->
  datetime_le r1 r2 = true ->
  _compute_next_run trigger r1 = Ok (Some c1) ->
  _compute_next_run trigger r2 = Ok (Some c2) ->
  datetime_le c1 c2 = true.
Proof.
  intros Hv Hsc Hr1 Hr2 Hle H1 H2.
  destruct (next_run_first_after _ _ _ Hv Hr1 H1) as (Hc1 & _ & _ & _ & Hleast).
  destruct (next_run_first_after _ _ _ Hv Hr2 H2) as (Hc2 & Hocc & Hlt & _ & _).
  apply datetime_le_micro in Hle; [| assumption..].
  apply datetime_le_micro; [assumption..|].
  apply Hleast; [assumption | | lia].
  now apply (occurrence_reference trigger r2 r1).
Qed.

(** X4.  Recomputing the schedule before the run is due does not move it: for a
    trigger that names its own weekday or day, if [c] is the run computed from
    [reference] and [reference <= reference' < c], with [reference'] before
    the last year of the datetime range, then the run computed from
    [reference'] is [c] again. *)
Theorem next_run_is_stable_until_due trigger reference reference' c :
  validated_trigger trigger = true -> self_contained trigger = true ->
  valid_datetime reference = true -> valid_datetime reference' = true ->
  year reference' < MAXYEAR ->
  _compute_next_run trigger reference = Ok (Some c) ->
  datetime_le reference reference' = true -> datetime_lt reference' c = true ->
  _compute_next_run trigger reference' = Ok (Some c).
Proof.
  intros Hv Hsc Hr Hr' Hy Hrun Hle Hlt.
  destruct (next_run_first_after _ _ _ Hv Hr Hrun) as (Hc & Hocc & _ & _ & Hleast).
  assert (Hne : Config.type trigger <> EVENT).
  { intros He. unfold _compute_next_run in Hrun. rewrite He in Hrun. discriminate. }
  destruct (compute_next_run_returns trigger reference' Hv Hr' Hy) as [res Hres].
  destruct (compute_next_run_after _ _ _ Hv Hr' Hne Hres) as (c' & -> & Hc' & _).
  destruct (next_run_first_after _ _ _ Hv Hr' Hres) as (_ & Hocc' & Hlt' & _ & Hleast').
  apply datetime_le_micro in Hle; [| assumption..].
  apply datetime_lt_micro in Hlt; [| assumption..].
  rewrite Hres. do 2 f_equal. apply to_micro_inj; [assumption..|].
  apply Z.le_antisymm.
  - apply Hleast'; [assumption | | assumption].
    now apply (occurrence_reference trigger reference reference').
  - apply Hleast; [assumption | | lia].
    now apply (occurrence_reference trigger reference' reference).
Qed.

End OccurrenceFacts.

(** ** The validators of the configuration *)

Section LoaderFacts.

Import Py Datetime Config Scheduler Spec Occurrences Loader.
Local Open Scope Z_scope.

(** [int], [str.strip] and [str.lower], whatever they accept. *)
Variable int : string -> option Z.
Variable strip : string -> string.
Variable lower : string -> string.

Lemma cbind_Valid {A B : Type} (c : checked A) (k : A -> checked B) b :
  cbind c k = Valid b -> exists a, c = Valid a /\ k a = Valid b.
Proof. destruct c as [a |]; [| discriminate]. cbn. eauto. Qed.

Lemma time_field_valid value field_name t :
  _parse_time_field int value field_name = Valid t -> valid_time t = true.
Proof.
  unfold _parse_time_field. destruct value as [| | | s | | |]; try discriminate.
  cbv zeta.
  destruct (negb _); [discriminate|].
  destruct (int (split ":" s !!! 0%nat)) as [h |]; [| discriminate].
  destruct (int (split ":" s !!! 1%nat)) as [mi |]; [| discriminate].
  destruct (if bool_decide (length (split ":" s) = 3%nat) then _ else _)
    as [sec |]; [| discriminate].
  destruct (negb _) eqn:Hrange; [discriminate|].
  apply negb_false_iff in Hrange. intros [= <-]. exact Hrange.
Qed.

Lemma weekday_lookup_range name n : weekday_lookup !! name = Some n -> 0 <= n <= 6.
Proof.
  unfold weekday_lookup. intros H.
  repeat (apply lookup_insert_Some in H as [[_ <-] | [_ H]]; [lia|]).
  apply lookup_singleton_Some in H as [_ <-]. lia.
Qed.

Lemma weekday_field_inv value field_name w :
  _parse_weekday_field strip lower value field_name = Valid w ->
  0 <= w <= 6 /\
  (as_int value = Some w \/
   exists s, value = YStr s /\ weekday_lookup !! lower (strip s) = Some w).
Proof.
  unfold _parse_weekday_field.
  destruct value as [| b | n | s | | |]; try discriminate; cbn [as_int].
  - destruct b;
      (destruct (_ && _) eqn:Hr; [| discriminate]; intros [= <-]; split; [lia | auto]).
  - destruct (_ && _) eqn:Hr; [| discriminate]. intros [= <-]. boolp. split; [lia | auto].
  - cbv zeta. destruct (weekday_lookup !! _) as [n |] eqn:Hl; [| discriminate].
    intros [= <-]. split; [eapply weekday_lookup_range; eassumption | eauto].
Qed.

Lemma month_day_field_inv value field_name d :
  _parse_month_day_field value field_name = Valid d ->
  1 <= d <= 31 /\ as_int value = Some d.
Proof.
  unfold _parse_month_day_field.
  destruct value as [| b | n | s | | |]; try discriminate; cbn [as_int].
  - destruct b;
      (destruct (_ && _) eqn:Hr; [| discriminate]; intros [= <-]; split; [lia | auto]).
  - destruct (_ && _) eqn:Hr; [| discriminate]. intros [= <-]. boolp. split; [lia | auto].
Qed.

Lemma minute_field_inv value field_name m :
  _parse_minute_field value field_name = Valid m ->
  0 <= m <= 59 /\ as_int value = Some m.
Proof.
  unfold _parse_minute_field.
  destruct (as_int value) as [n |]; [| discriminate].
  destruct (_ && _) eqn:Hr; [| discriminate]. intros [= <-]. boolp. split; [lia | auto].
Qed.

(** What an accepted trigger looks like. *)
Lemma parse_action_trigger_inv raw action_index t :
  _parse_action_trigger int strip lower raw action_index = Valid t ->
  match Config.type t with
  | EVENT =>
      Config.time t = None /\ Config.weekday t = None /\ Config.day t = None /\
      Config.minute t = None
  | MINUTELY =>
      Config.weekday t = None /\ Config.day t = None /\ Config.minute t = None
  | HOURLY =>
      Config.weekday t = None /\ Config.day t = None /\
      exists m, Config.minute t = Some m /\ 0 <= m <= 59 /\
        forall tod, Config.time t = Some tod -> t_minute tod = m
  | DAILY =>
      is_Some (Config.time t) /\
      Config.weekday t = None /\ Config.day t = None /\ Config.minute t = None
  | WEEKLY =>
      is_Some (Config.time t) /\ Config.day t = None /\ Config.minute t = None /\
      exists w, Config.weekday t = Some w /\ 0 <= w <= 6
  | MONTHLY =>
      is_Some (Config.time t) /\ Config.weekday t = None /\ Config.minute t = None /\
      exists d, Config.day t = Some d /\ 1 <= d <= 31
  end /\
  forall tod, Config.time t = Some tod -> valid_time tod = true.
Proof.
  unfold _parse_action_trigger. cbv zeta.
  destruct raw as [| | | | | raw |]; try discriminate.
  { intros [= <-]. cbn. split; [auto | discriminate]. }
  destruct (TriggerType_of _) as [ty |]; [| discriminate].
  destruct (decide (ty = EVENT)) as [-> | Hne].
  { intros [= <-]. cbn. split; [auto | discriminate]. }
  intros H.
  apply cbind_Valid in H as (time_obj & Htime & H).
  apply cbind_Valid in H as ([] & Hreq & H).
  apply cbind_Valid in H as (minute_value & Hmin & H).
  apply cbind_Valid in H as ([weekday_value day_value] & Hby & H).
  injection H as <-. cbn [Config.type Config.time Config.weekday Config.day Config.minute].
  assert (Htod : forall tod, time_obj = Some tod -> valid_time tod = true).
  { intros tod ->.
    destruct (get raw "time"); try discriminate;
      apply cbind_Valid in Htime as (t & Ht & [= <-]);
      apply time_field_valid in Ht; exact Ht. }
  split; [| exact Htod].
  assert (Hrequired : ty ∈ [DAILY; WEEKLY; MONTHLY] -> is_Some time_obj).
  { intros Hin. destruct time_obj; [eauto|].
    rewrite (bool_decide_eq_true_2 _ Hin) in Hreq. cbn in Hreq. discriminate. }
  destruct ty; try contradiction; cbn in Hmin, Hby.
  - (* minutely *)
    injection Hmin as <-. injection Hby as <- <-. auto.
  - (* hourly *)
    injection Hby as <- <-. split; [reflexivity|]. split; [reflexivity|].
    apply cbind_Valid in Hmin as (m & Hm & Hmatch).
    assert (Hrange : 0 <= m <= 59).
    { destruct (get raw "minute") eqn:Hraw;
        try (apply minute_field_inv in Hm as [? _]; assumption).
      injection Hm as <-. destruct time_obj as [tod |]; [| lia].
      specialize (Htod tod eq_refl). unfold valid_time in Htod. boolp. lia. }
    destruct time_obj as [tod |].
    + destruct (negb _) eqn:Hneq; [discriminate|]. injection Hmatch as <-.
      apply negb_false_iff, Z.eqb_eq in Hneq.
      exists m. split; [reflexivity|]. split; [assumption|]. intros ? [= <-]. assumption.
    + injection Hmatch as <-. exists m. split; [reflexivity|]. split; [assumption|].
      discriminate.
  - (* daily *)
    injection Hmin as <-. injection Hby as <- <-.
    split; [apply Hrequired; repeat constructor | auto].
  - (* weekly *)
    injection Hmin as <-.
    apply cbind_Valid in Hby as (w & Hw & [= <- <-]).
    destruct (weekday_field_inv _ _ _ Hw) as [Hwr _].
    split; [apply Hrequired; repeat constructor|]. split; [reflexivity|]. split; [reflexivity|].
    eauto.
  - (* monthly *)
    injection Hmin as <-.
    apply cbind_Valid in Hby as (d & Hd & [= <- <-]).
    destruct (month_day_field_inv _ _ _ Hd) as [Hdr _].
    split; [apply Hrequired; repeat constructor|]. split; [reflexivity|]. split; [reflexivity|].
    eauto.
Qed.

Lemma parsed_trigger_validated raw action_index t :
  _parse_action_trigger int strip lower raw action_index = Valid t ->
  validated_trigger t = true.
Proof.
  intros H. apply parse_action_trigger_inv in H as [Hshape Htime].
  unfold validated_trigger, opt_in_range.
  destruct t as [ty tm wd dy mn]. cbn in *.
  assert (Htm : match tm with Some tod => valid_time tod | None => true end = true)
    by (destruct tm; auto).
  rewrite Htm. clear Htm Htime.
  destruct ty; cbn.
  - destruct Hshape as (_ & -> & -> & ->). reflexivity.
  - destruct Hshape as (-> & -> & ->). reflexivity.
  - destruct Hshape as (-> & -> & m & -> & Hm & _). cbn.
    apply andb_true_iff. split; apply Z.leb_le; lia.
  - destruct Hshape as (_ & -> & -> & ->). reflexivity.
  - destruct Hshape as (_ & -> & -> & w & -> & Hw). cbn.
    rewrite !andb_true_r. apply andb_true_iff. split; apply Z.leb_le; lia.
  - destruct Hshape as (_ & -> & -> & d & -> & Hd). cbn.
    rewrite !andb_true_r. apply andb_true_iff. split; apply Z.leb_le; lia.
Qed.

(** X5.  Whatever [_parse_time_field] accepts is a string of two or three parts
    separated by colons, read as a valid time of day (hour 0..23, minute and
    second 0..59); with two parts the second is 0.  This does not depend on
    which numerals [int] accepts. *)
Theorem accepted_time_is_a_time_of_day value field_name t :
  _parse_time_field int value field_name = Valid t ->
  valid_time t = true /\
  exists s, value = YStr s /\
    ((length (split ":" s) = 2%nat /\ t_second t = 0) \/ length (split ":" s) = 3%nat).
Proof.
  intros H. split; [eapply time_field_valid, H|]. revert H.
  unfold _parse_time_field. destruct value as [| | | s | | |]; try discriminate.
  cbv zeta.
  destruct (negb _) eqn:Hlen; [discriminate|].
  apply negb_false_iff, orb_true_iff in Hlen.
  destruct (int (split ":" s !!! 0%nat)) as [h |]; [| discriminate].
  destruct (int (split ":" s !!! 1%nat)) as [mi |]; [| discriminate].
  destruct (if bool_decide (length (split ":" s) = 3%nat) then _ else _)
    as [sec |] eqn:Hsec; [| discriminate].
  destruct (negb _); [discriminate|].
  intros [= <-]. exists s. split; [reflexivity|]. cbn [t_second].
  destruct (bool_decide (length (split ":" s) = 3%nat)) eqn:H3.
  - right. now apply bool_decide_eq_true in H3.
  - left. destruct Hlen as [H2 | H3']; [| congruence].
    apply bool_decide_eq_true in H2. split; [assumption | congruence].
Qed.

(** X6.  Every trigger [_parse_action_trigger] accepts has its fields in the
    ranges the scheduler relies on (a valid time of day, weekday 0..6, day
    1..31, minute 0..59: [validated_trigger]), and names its own weekday when
    it is weekly and its own day when it is monthly. *)
Theorem accepted_trigger_is_validated raw action_index t :
  _parse_action_trigger int strip lower raw action_index = Valid t ->
  validated_trigger t = true /\ self_contained t = true.
Proof.
  intros H. split; [eapply parsed_trigger_validated, H|].
  apply parse_action_trigger_inv in H as [Hshape _].
  unfold self_contained. destruct t as [ty tm wd dy mn]. cbn in *.
  destruct ty; try reflexivity.
  - destruct Hshape as (_ & _ & _ & w & -> & _). reflexivity.
  - destruct Hshape as (_ & -> & _ & d & -> & _). reflexivity.
Qed.

(** X7.  An accepted trigger carries exactly the fields of its type: an event
    trigger has no time, whatever else the mapping holds; daily, weekly and
    monthly triggers have a time; a weekday is there exactly for weekly
    triggers, a day exactly for monthly ones, a minute exactly for hourly
    ones, and the minute equals the minute of the time when both are
    there. *)
Theorem accepted_trigger_has_the_fields_of_its_type raw action_index t :
  _parse_action_trigger int strip lower raw action_index = Valid t ->
  (Config.type t = EVENT -> Config.time t = None) /\
  (Config.type t = DAILY \/ Config.type t = WEEKLY \/ Config.type t = MONTHLY ->
     is_Some (Config.time t)) /\
  (is_Some (Config.weekday t) <-> Config.type t = WEEKLY) /\
  (is_Some (Config.day t) <-> Config.type t = MONTHLY) /\
  (is_Some (Config.minute t) <-> Config.type t = HOURLY) /\
  (forall tod m, Config.time t = Some tod -> Config.minute t = Some m ->
     t_minute tod = m).
Proof.
  intros H. apply parse_action_trigger_inv in H as [Hshape _].
  destruct t as [ty tm wd dy mn]. cbn in *.
  assert (Hnone : forall A : Type, ~ is_Some (@None A)) by (intros A [? [=]]).
  destruct ty.
  - destruct Hshape as (-> & -> & -> & ->).
    repeat split; intros;
      first [discriminate | reflexivity | exfalso; eapply Hnone; eassumption | idtac].
    match goal with H : _ \/ _ |- _ => destruct H as [| [|]]; discriminate end.
  - destruct Hshape as (-> & -> & ->).
    repeat split; intros;
      first [discriminate | reflexivity | exfalso; eapply Hnone; eassumption | idtac].
    match goal with H : _ \/ _ |- _ => destruct H as [| [|]]; discriminate end.
  - destruct Hshape as (-> & -> & m & -> & _ & Hm).
    repeat split; intros;
      first [discriminate | reflexivity | exfalso; eapply Hnone; eassumption
            | by eexists | idtac].
    + match goal with H : _ \/ _ |- _ => destruct H as [| [|]]; discriminate end.
    + match goal with H : Some _ = Some _ |- _ => injection H as <- end. auto.
  - destruct Hshape as (Htm & -> & -> & ->).
    repeat split; intros;
      first [discriminate | reflexivity | assumption | exfalso; eapply Hnone; eassumption].
  - destruct Hshape as (Htm & -> & -> & w & -> & _).
    repeat split; intros;
      first [discriminate | reflexivity | assumption | by eexists
            | exfalso; eapply Hnone; eassumption].
  - destruct Hshape as (Htm & -> & -> & d & -> & _).
    repeat split; intros;
      first [discriminate | reflexivity | assumption | by eexists
            | exfalso; eapply Hnone; eassumption].
Qed.

(** X8.  A trigger the validator accepts can always be scheduled from a
    reference before the last year of the datetime range: for an event
    trigger [_compute_next_run] returns [None], for any other it returns an
    instant of the schedule strictly after the reference. *)
Theorem accepted_trigger_can_be_scheduled raw action_index t reference :
  _parse_action_trigger int strip lower raw action_index = Valid t ->
  valid_datetime reference = true -> year reference < MAXYEAR ->
  if decide (Config.type t = EVENT)
  then _compute_next_run t reference = Ok None
  else exists c,
         _compute_next_run t reference = Ok (Some c) /\
         valid_datetime c = true /\ datetime_lt reference c = true /\
         occurrence t reference c.
Proof.
  intros H Href Hy. apply parsed_trigger_validated in H as Hv.
  destruct (decide (Config.type t = EVENT)) as [He | Hne].
  - unfold _compute_next_run. rewrite He. reflexivity.
  - destruct (compute_next_run_returns t reference Hv Href Hy) as [res Hres].
    destruct (compute_next_run_after _ _ _ Hv Href Hne Hres) as (c & -> & Hc & Hlt).
    exists c. split; [assumption|]. split; [assumption|]. split; [assumption|].
    now destruct (next_run_first_after _ _ _ Hv Href Hres) as (_ & Hocc & _).
Qed.

Lemma ensure_str_error field_name message elems :
  foldl (ensure_str field_name) (ConfigError message) elems = ConfigError message.
Proof. induction elems as [| e elems IH]; [reflexivity | exact IH]. Qed.

Lemma ensure_str_fold field_name elems : forall acc l,
  foldl (ensure_str field_name) (Valid acc) elems = Valid l <->
  exists rest, elems = YStr <$> rest /\ l = (acc ++ rest)%list.
Proof.
  induction elems as [| e elems IH]; intros acc l; cbn [foldl].
  - split.
    + intros [= <-]. exists []. now rewrite app_nil_r.
    + intros (rest & Hrest & ->). symmetry in Hrest. apply fmap_nil_inv in Hrest.
      subst rest. now rewrite app_nil_r.
  - destruct e as [| | | s | | |];
      try (cbn; rewrite ensure_str_error; split;
           [discriminate | intros ([| ? ?] & [=] & _)]).
    cbn. rewrite IH. split.
    + intros (rest & -> & ->). exists (s :: rest). now rewrite <- app_assoc.
    + intros ([| s' rest] & Hrest & ->); [discriminate|].
      injection Hrest as <- ->. exists rest. now rewrite <- app_assoc.
Qed.

(** X9.  [_ensure_str_list] accepts exactly [None], a single string and a list
    of strings, and returns no string, that string, and those strings in
    order; every other value is refused. *)
Theorem string_lists_are_read_in_order value field_name l :
  _ensure_str_list value field_name = Valid l <->
  (value = YNone /\ l = []) \/ (exists s, value = YStr s /\ l = [s]) \/
  value = YSeq (YStr <$> l).
Proof.
  unfold _ensure_str_list. destruct value as [| | | s | elems | |].
  - split; [intros [= <-]; auto | intros [[_ ->] | [(s & [=] & _) | [=]]]; reflexivity].
  - split; [discriminate | intros [[[=] _] | [(s & [=] & _) | [=]]]].
  - split; [discriminate | intros [[[=] _] | [(s & [=] & _) | [=]]]].
  - split.
    + intros [= <-]. right. left. eauto.
    + intros [[[=] _] | [(s' & [= <-] & ->) | [=]]]. reflexivity.
  - rewrite ensure_str_fold. split.
    + intros (rest & -> & ->). auto.
    + intros [[[=] _] | [(s & [=] & _) | [= ->]]]. eauto.
  - split; [discriminate | intros [[[=] _] | [(s & [=] & _) | [=]]]].
  - split; [discriminate | intros [[[=] _] | [(s & [=] & _) | [=]]]].
Qed.

End LoaderFacts.

(** ** The constructor of the registry *)

Section ConstructorFacts.

Import Py Datetime Config Scheduler Events Actions Spec RegistryProps.

Lemma load_action_Ok modules cfg a :
  _load_action modules cfg = Ok a <->
  exists m f, modules !! cfg_module cfg = Some m /\
    m !! cfg_function cfg = Some (Callable f) /\
    a = mk_action (cfg_name cfg) f (cfg_options cfg) (cfg_trigger cfg) None None.
Proof.
  unfold _load_action, _import_module, Py.bind.
  destruct (modules !! cfg_module cfg) as [m |] eqn:Hm.
  - destruct (m !! cfg_function cfg) as [[f |] |] eqn:Hf.
    + split.
      * intros [= <-]. exists m, f. auto.
      * intros (m' & f' & [= <-] & Hf' & ->). rewrite Hf in Hf'. injection Hf' as <-.
        reflexivity.
    + split; [discriminate | intros (m' & f' & [= <-] & Hf' & _); congruence].
    + split; [discriminate | intros (m' & f' & [= <-] & Hf' & _); congruence].
  - split; [discriminate | intros (? & ? & [=] & _)].
Qed.



Lemma load_all_loaded modules configs : forall w refs w1,
  load_all modules configs w = (Ok refs, w1) ->
  exists acts,
    objs w1 = objs w ++ acts /\ contexts w1 = contexts w /\ trace w1 = trace w /\
    refs = seq (length (objs w)) (length acts) /\
    Forall2 (fun cfg a => _load_action modules cfg = Ok a) configs acts.
Proof.
  induction configs as [| cfg configs IH]; intros w refs w1 Hrun.
  - cbn in Hrun. injection Hrun as <- <-. exists []. rewrite app_nil_r.
    repeat split; constructor.
  - cbn [load_all] in Hrun. unfold mbind at 1, lift in Hrun.
    destruct (_load_action modules cfg) as [a |] eqn:Hload; [| discriminate].
    unfold mbind at 1, new_action in Hrun.
    unfold mbind at 1 in Hrun.
    destruct (load_all modules configs _) as [[rest | e] w2] eqn:Hrest; [| discriminate].
    cbn in Hrun. injection Hrun as <- <-.
    destruct (IH _ _ _ Hrest) as (acts & Ho & Hc & Ht & Hr & Hf). cbn in Ho, Hc, Ht, Hr.
    exists (a :: acts). rewrite Ho, <- app_assoc. repeat split; try assumption.
    + rewrite Hr, length_app. cbn. rewrite Nat.add_1_r. reflexivity.
    + constructor; assumption.
Qed.


Lemma for_each_schedule_values now l :
  NoDup l -> valid_datetime now = true ->
  forall w w',
  (forall r, r ∈ l -> exists a, objs w !! r = Some a /\
      validated_trigger (trigger a) = true /\ is_event_trigger a = false) ->
  for_each l (fun r => schedule_next_run r now) w = (Ok tt, w') ->
  forall r a, r ∈ l -> objs w !! r = Some a ->
    exists next, _compute_next_run (trigger a) now = Ok (Some next) /\
      objs w' !! r = Some (mk_action (name a) (callback a) (options a) (trigger a)
                             (Some next) (previous_snapshot a)).
Proof.
  intros Hnd Hnow. induction l as [| r l IH]; intros w w' Hl Hrun r0 a0 Hr0 Ha0.
  - inversion Hr0.
  - apply NoDup_cons in Hnd as [Hrl Hnd].
    destruct (Hl r ltac:(left)) as (a & Ha & Hvt & Hev).
    cbn [for_each] in Hrun. unfold mbind at 1 in Hrun.
    destruct (schedule_next_run r now w) as [[[] | e] w1] eqn:Hstep; [| discriminate].
    unfold schedule_next_run, mbind, get_action, lift, put_action in Hstep.
    rewrite Ha in Hstep.
    destruct (_compute_next_run (trigger a) now) as [res |] eqn:Hres; [| discriminate].
    destruct (compute_next_run_after _ _ _ Hvt Hnow (is_event_trigger_false _ Hev) Hres)
      as (next & -> & Hvn & _).
    injection Hstep as <-.
    match type of Hrun with
    | for_each _ _ ?w1 = _ => set (w1' := w1) in *
    end.
    assert (Hsame : forall r', r' ∈ l -> objs w1' !! r' = objs w !! r').
    { intros r' Hr'. cbn. apply list_lookup_insert_ne. intros ->. contradiction. }
    assert (Hl' : forall r', r' ∈ l -> exists a, objs w1' !! r' = Some a /\
              validated_trigger (trigger a) = true /\ is_event_trigger a = false).
    { intros r' Hr'. rewrite (Hsame r' Hr'). apply Hl. now right. }
    apply elem_of_cons in Hr0 as [-> | Hr0].
    + assert (a0 = a) by congruence. subst a0. exists next. split; [exact Hres|].
      destruct (for_each_schedule now l Hnd Hnow w1' w' Hl' Hrun) as (_ & _ & _ & Hout & _).
      rewrite (Hout r Hrl). cbn.
      apply list_lookup_insert_eq. eapply lookup_lt_Some, Ha.
    + apply (IH Hnd w1' w' Hl' Hrun r0 a0 Hr0). now rewrite (Hsame r0 Hr0).
Qed.


Lemma unset_spec {A : Type} (o : option A) : unset o = true <-> o = None.
Proof. destruct o; cbn; split; congruence. Qed.

Lemma listeners_unscheduled_spec w reg :
  listeners_unscheduled w reg = true <->
  forall r a, r ∈ _event_actions reg -> objs w !! r = Some a ->
    next_run_at a = None /\ previous_snapshot a = None.
Proof.
  unfold listeners_unscheduled. rewrite forallb_forall. split.
  - intros H r a Hr Ha. apply list_elem_of_In in Hr. specialize (H r Hr).
    rewrite Ha in H. apply andb_true_iff in H as [H1 H2].
    split; now apply unset_spec.
  - intros H r Hr. apply list_elem_of_In in Hr.
    destruct (objs w !! r) as [a |] eqn:Ha; [| reflexivity].
    destruct (H r a Hr Ha) as [-> ->]. reflexivity.
Qed.

(** The three steps of the constructor. *)
Lemma init_steps modules configs reference_time clock w reg w' :
  Forall (fun cfg => validated_trigger (cfg_trigger cfg) = true) configs ->
  __init__ modules configs reference_time clock w = (Ok reg, w') ->
  exists acts w1,
    objs w1 = objs w ++ acts /\
    Forall2 (fun cfg a => _load_action modules cfg = Ok a) configs acts /\
    _actions reg = seq (length (objs w)) (length acts) /\
    _scheduled_actions reg
    = List.filter (fun r => negb (event_ref w1 r)) (_actions reg) /\
    (forall r, r ∈ _actions reg ->
       exists a, objs w1 !! r = Some a /\ acts !! (r - length (objs w)) = Some a /\
                 validated_trigger (trigger a) = true) /\
    for_each (_scheduled_actions reg)
      (fun r => schedule_next_run r (default clock reference_time)) w1 = (Ok tt, w').
Proof.
  intros Hcfg Hrun. unfold __init__ in Hrun. unfold mbind at 1 in Hrun.
  destruct (load_all modules configs w) as [[refs | e] w1] eqn:Hload; [| discriminate].
  destruct (load_all_loaded _ _ _ _ _ Hload) as (acts & Ho & Hc & Ht & Hrefs & Hf).
  assert (Hget : forall r, r ∈ refs ->
            exists a, objs w1 !! r = Some a /\ acts !! (r - length (objs w)) = Some a /\
                      validated_trigger (trigger a) = true).
  { intros r Hr. rewrite Hrefs in Hr. apply elem_of_seq in Hr.
    destruct (lookup_lt_is_Some_2 acts (r - length (objs w))) as [a Ha]; [lia|].
    exists a. rewrite Ho, lookup_app_r by lia. split; [exact Ha|]. split; [exact Ha|].
    destruct (Forall2_lookup_r _ _ _ _ _ Hf Ha) as (cfg & Hcfg' & Hl).
    apply load_action_Ok in Hl as (m & f & _ & _ & ->). cbn.
    rewrite Forall_forall in Hcfg. apply Hcfg. eapply list_elem_of_lookup_2, Hcfg'. }
  assert (Hsome : forall r, r ∈ refs -> is_Some (objs w1 !! r)).
  { intros r Hr. destruct (Hget r Hr) as (a & -> & _). eauto. }
  unfold mbind at 1 in Hrun. rewrite (select_run _ _ _ Hsome) in Hrun.
  unfold mbind at 1 in Hrun. rewrite (select_run _ _ _ Hsome) in Hrun.
  unfold mbind at 1 in Hrun.
  destruct (for_each _ _ w1) as [[[] | e] w2] eqn:Hloop; [| discriminate].
  cbn in Hrun. injection Hrun as <- <-.
  exists acts, w1. cbn [_actions _scheduled_actions].
  split; [exact Ho|]. split; [exact Hf|]. split; [exact Hrefs|].
  split; [| split; [exact Hget|]].
  - apply List.filter_ext_in. intros r Hr. apply list_elem_of_In in Hr.
    unfold event_ref. destruct (Hget r Hr) as (a & -> & _). reflexivity.
  - exact Hloop.
Qed.

(** X10.  When the constructor returns, it has appended one action object per
    configuration, in order: each has the configuration's name, options and
    trigger, the callable found under the configured module and function, no
    baseline snapshot, and as due time what [_compute_next_run] gives for its
    trigger at [now] ([None] for an event trigger).  The registry is well
    formed, and no callback was entered and no context created. *)
Theorem constructor_builds_one_action_per_configuration
    modules configs reference_time clock w reg w' :
  Forall (fun cfg => validated_trigger (cfg_trigger cfg) = true) configs ->
  valid_datetime (default clock reference_time) = true ->
  __init__ modules configs reference_time clock w = (Ok reg, w') ->
  registry_ok w' reg = true /\
  contexts w' = contexts w /\ trace w' = trace w /\
  _actions reg = seq (length (objs w)) (length configs) /\
  listeners_unscheduled w' reg = true /\
  exists acts,
    objs w' = objs w ++ acts /\
    Forall2 (built_from modules (default clock reference_time)) configs acts.
Proof.
  intros Hcfg Hnow Hrun.
  destruct (init_establishes_registry_ok _ _ _ _ _ _ _ Hcfg Hnow Hrun)
    as (Hok & Hc & Ht & Hlen).
  destruct (init_steps _ _ _ _ _ _ _ Hcfg Hrun)
    as (acts & w1 & Ho & Hf & Hrefs & Hsched & Hget & Hloop).
  set (now := default clock reference_time) in *.
  pose proof (Forall2_length _ _ _ Hf) as Hlf.
  assert (Hndr : NoDup (_actions reg)) by (rewrite Hrefs; apply NoDup_seq).
  assert (Hnds : NoDup (_scheduled_actions reg)).
  { rewrite Hsched. apply NoDup_ListNoDup, List.NoDup_filter, NoDup_ListNoDup, Hndr. }
  assert (Hsch : forall r, r ∈ _scheduled_actions reg ->
            exists a, objs w1 !! r = Some a /\
              validated_trigger (trigger a) = true /\ is_event_trigger a = false).
  { intros r Hr. rewrite Hsched in Hr.
    apply list_elem_of_In, filter_In in Hr as [Hr Hk]. apply list_elem_of_In in Hr.
    destruct (Hget r Hr) as (a & Ha & _ & Hv). exists a.
    unfold event_ref in Hk. rewrite Ha in Hk. apply negb_true_iff in Hk. auto. }
  destruct (for_each_schedule now _ Hnds Hnow w1 w' Hsch Hloop)
    as (_ & _ & Hlen' & Hout & _).
  pose proof (for_each_schedule_values now _ Hnds Hnow w1 w' Hsch Hloop) as Hin.
  split; [exact Hok|]. split; [exact Hc|]. split; [exact Ht|].
  split; [rewrite Hrefs; congruence|].
  enough (Hbuilt : exists acts', objs w' = objs w ++ acts' /\
            Forall2 (built_from modules now) configs acts').
  { split; [| exact Hbuilt]. destruct Hbuilt as (acts' & Ho' & Hf').
    apply listeners_unscheduled_spec. intros r a Hr Ha.
    apply (event_actions_spec _ _ _ Hok) in Hr as (Hr & a0 & Ha0 & Hev).
    rewrite Ha in Ha0. injection Ha0 as <-.
    rewrite Hrefs in Hr. apply elem_of_seq in Hr.
    rewrite Ho', lookup_app_r in Ha by lia.
    destruct (Forall2_lookup_r _ _ _ _ _ Hf' Ha) as (cfg & _ & Hb).
    destruct Hb as (_ & _ & Htr & Hprev & _ & Hnext).
    split; [| exact Hprev].
    unfold is_event_trigger in Hev. apply bool_decide_eq_true in Hev.
    rewrite <- Htr in Hnext. unfold _compute_next_run in Hnext. rewrite Hev in Hnext.
    destruct (decide (EVENT = EVENT)); [| contradiction]. congruence. }
  exists (drop (length (objs w)) (objs w')). split.
  - rewrite <- (take_drop (length (objs w)) (objs w')) at 1. f_equal.
    apply list_eq. intros i. destruct (decide (i < length (objs w))) as [Hi | Hi].
    + rewrite lookup_take_lt by assumption.
      rewrite Hout.
      * rewrite Ho. now apply lookup_app_l.
      * intros Hs. destruct (Hsch i Hs) as (a & Ha & _).
        rewrite Hsched in Hs. apply list_elem_of_In, filter_In in Hs as [Hs _].
        apply list_elem_of_In in Hs. rewrite Hrefs in Hs. apply elem_of_seq in Hs. lia.
    + rewrite lookup_take_ge by lia. symmetry. apply lookup_ge_None. lia.
  - apply Forall2_same_length_lookup. split.
    + rewrite length_drop, Hlen', Ho, length_app. lia.
    + intros i cfg a' Hcfg' Ha'. rewrite lookup_drop in Ha'.
      set (r := length (objs w) + i) in *.
      assert (Hr : r ∈ _actions reg).
      { rewrite Hrefs. apply elem_of_seq. apply lookup_lt_Some in Hcfg'. lia. }
      destruct (Hget r Hr) as (a & Ha & Hacts & Hv).
      replace (r - length (objs w)) with i in Hacts by lia.
      pose proof (Forall2_lookup_lr _ _ _ _ _ _ Hf Hcfg' Hacts) as Hl.
      apply load_action_Ok in Hl as (m & f & Hm & Hfn & Heq).
      destruct (decide (r ∈ _scheduled_actions reg)) as [Hs | Hs].
      * destruct (Hin r a Hs Ha) as (next & Hnext & Ha'').
        rewrite Ha'' in Ha'. injection Ha' as <-. subst a. unfold built_from. cbn.
        repeat split; try reflexivity; [eauto | exact Hnext].
      * rewrite (Hout r Hs), Ha in Ha'. injection Ha' as <-.
        assert (Hev : is_event_trigger a = true).
        { rewrite Hsched in Hs. destruct (is_event_trigger a) eqn:He; [reflexivity|].
          exfalso. apply Hs. apply list_elem_of_In, filter_In. split.
          - now apply list_elem_of_In.
          - unfold event_ref. now rewrite Ha, He. }
        subst a. unfold built_from. cbn.
        repeat split; try reflexivity; [eauto|].
        unfold is_event_trigger in Hev. cbn in Hev. apply bool_decide_eq_true in Hev.
        unfold _compute_next_run. rewrite Hev. reflexivity.
Qed.


End ConstructorFacts.

(** ** Priming and scheduled dispatch *)

Section DispatchFacts.

Import Py Datetime Config Scheduler Events Actions Spec Occurrences RegistryProps.

(** [registry_ok] only looks at the triggers and due times of the registered
    objects. *)
Lemma registry_ok_transfer w w' reg :
  registry_ok w reg = true ->
  (forall r a, r ∈ _actions reg -> objs w !! r = Some a ->
     exists a', objs w' !! r = Some a' /\ trigger a' = trigger a /\ action_ok a' = true) ->
  registry_ok w' reg = true.
Proof.
  intros Hok Hkeep.
  destruct (registry_ok_spec _ _ Hok) as (Hnd & Hall & Hev & Hsch).
  assert (Hevr : forall r, r ∈ _actions reg -> event_ref w' r = event_ref w r).
  { intros r Hr. destruct (Hall r Hr) as (a & Ha & _).
    destruct (Hkeep r a Hr Ha) as (a' & Ha' & Htr & _).
    unfold event_ref, is_event_trigger. now rewrite Ha, Ha', Htr. }
  unfold registry_ok. rewrite !andb_true_iff, !bool_decide_eq_true. repeat split.
  - apply forallb_forall. intros r Hr. apply list_elem_of_In in Hr.
    destruct (Hall r Hr) as (a & Ha & _).
    destruct (Hkeep r a Hr Ha) as (a' & -> & _ & Hok'). exact Hok'.
  - exact Hnd.
  - rewrite Hev. apply List.filter_ext_in. intros r Hr. apply list_elem_of_In in Hr.
    now rewrite (Hevr r Hr).
  - rewrite Hsch. apply List.filter_ext_in. intros r Hr. apply list_elem_of_In in Hr.
    now rewrite (Hevr r Hr).
Qed.

Lemma registry_ok_same_objs w w' reg :
  objs w' = objs w -> registry_ok w' reg = registry_ok w reg.
Proof. intros H. unfold registry_ok, event_ref. rewrite H. reflexivity. Qed.

(** An object is in at most one of the two dispatch lists. *)
Lemma event_not_scheduled w reg r :
  registry_ok w reg = true -> r ∈ _event_actions reg -> r ∉ _scheduled_actions reg.
Proof.
  intros Hok He Hs.
  apply (event_actions_spec _ _ _ Hok) in He as (_ & a & Ha & Hev).
  apply (scheduled_actions_spec _ _ _ Hok) in Hs as (_ & a' & Ha' & Hnev & _).
  congruence.
Qed.

Lemma primed_primed snap snap' a : primed snap' (primed snap a) = primed snap a.
Proof. reflexivity. Qed.

Lemma primed_with_baseline snap a :
  is_Some (previous_snapshot a) -> primed snap a = a.
Proof. intros [p Hp]. destruct a. cbn in Hp. subst. reflexivity. Qed.

(** The loop of [prime_scheduled_snapshots]. *)
Lemma for_each_prime snap l :
  NoDup l -> forall w,
  (forall r, r ∈ l -> is_Some (objs w !! r)) ->
  exists w',
    for_each l
      (fun action =>
         mbind (get_action action) (fun a =>
         match previous_snapshot a with
         | None =>
             put_action action
               (mk_action (name a) (callback a) (options a) (trigger a) (next_run_at a)
                  (Some snap))
         | Some _ => ret tt
         end)) w = (Ok tt, w') /\
    contexts w' = contexts w /\ trace w' = trace w /\
    length (objs w') = length (objs w) /\
    (forall r, r ∉ l -> objs w' !! r = objs w !! r) /\
    (forall r a, r ∈ l -> objs w !! r = Some a -> objs w' !! r = Some (primed snap a)).
Proof.
  intros Hnd. induction l as [| r l IH]; intros w Hl.
  - exists w. repeat split; try reflexivity. intros r a Hr. inversion Hr.
  - apply NoDup_cons in Hnd as [Hrl Hnd].
    destruct (Hl r ltac:(left)) as [a Ha].
    pose proof (lookup_lt_Some _ _ _ Ha) as Hlt.
    cbn [for_each]. unfold mbind at 1. unfold mbind at 1, get_action. rewrite Ha.
    set (w1 := mk_world (<[r := primed snap a]> (objs w)) (contexts w) (trace w)).
    assert (Hstep : (match previous_snapshot a with
                     | None =>
                         put_action r
                           (mk_action (name a) (callback a) (options a) (trigger a)
                              (next_run_at a) (Some snap))
                     | Some _ => ret tt
                     end) w = (Ok tt, w1)).
    { unfold w1, primed. destruct (previous_snapshot a) as [p |] eqn:Hp.
      - unfold ret. f_equal. destruct w as [o c t]. cbn in *. f_equal.
        symmetry. apply list_insert_id. rewrite Ha. f_equal.
        destruct a. cbn in *. subst. reflexivity.
      - reflexivity. }
    rewrite Hstep.
    destruct (IH Hnd w1) as (w' & Hrun & Hc & Ht & Hlen & Hout & Hin).
    { intros r' Hr'. cbn. rewrite list_lookup_insert_ne by (intros ->; contradiction).
      apply Hl. now right. }
    exists w'. split; [exact Hrun|]. split; [exact Hc|]. split; [exact Ht|].
    split; [rewrite Hlen; cbn; apply length_insert|]. split.
    + intros r0 Hr0. apply not_elem_of_cons in Hr0 as [Hne Hr0].
      rewrite (Hout r0 Hr0). cbn. now apply list_lookup_insert_ne.
    + intros r0 a0 Hr0 Ha0. apply elem_of_cons in Hr0 as [-> | Hr0].
      * assert (a0 = a) by congruence. subst a0.
        rewrite (Hout r Hrl). cbn. now apply list_lookup_insert_eq.
      * apply (Hin r0 a0 Hr0). cbn.
        rewrite list_lookup_insert_ne by (intros ->; contradiction). exact Ha0.
Qed.

Lemma action_ok_primed snap a : action_ok (primed snap a) = action_ok a.
Proof. reflexivity. Qed.

Lemma prime_run w reg snap :
  registry_ok w reg = true ->
  exists w',
    prime_scheduled_snapshots reg snap w = (Ok tt, w') /\
    contexts w' = contexts w /\ trace w' = trace w /\
    length (objs w') = length (objs w) /\
    registry_ok w' reg = true /\
    (forall r, r ∉ _scheduled_actions reg -> objs w' !! r = objs w !! r) /\
    (forall r a, r ∈ _scheduled_actions reg -> objs w !! r = Some a ->
       objs w' !! r = Some (primed snap a)).
Proof.
  intros Hok.
  destruct (for_each_prime snap (_scheduled_actions reg)
              (scheduled_actions_NoDup _ _ Hok) w)
    as (w' & Hrun & Hc & Ht & Hlen & Hout & Hin).
  { intros r Hr. apply (scheduled_actions_spec _ _ _ Hok) in Hr as (_ & a & -> & _). eauto. }
  exists w'. split; [exact Hrun|]. split; [exact Hc|]. split; [exact Ht|].
  split; [exact Hlen|]. split; [| split; assumption].
  apply (registry_ok_transfer w); [exact Hok|].
  intros r a Hr Ha.
  destruct (decide (r ∈ _scheduled_actions reg)) as [Hs | Hs].
  - exists (primed snap a). rewrite (Hin r a Hs Ha). split; [reflexivity|].
    split; [reflexivity|]. rewrite action_ok_primed.
    destruct (registry_ok_spec _ _ Hok) as (_ & Hall & _).
    destruct (Hall r Hr) as (a0 & Ha0 & Hok0). congruence.
  - exists a. rewrite (Hout r Hs). split; [exact Ha|]. split; [reflexivity|].
    destruct (registry_ok_spec _ _ Hok) as (_ & Hall & _).
    destruct (Hall r Hr) as (a0 & Ha0 & Hok0). congruence.
Qed.

(** X12.  [prime_scheduled_snapshots] gives every time-triggered action that
    has no baseline the given snapshot as baseline, keeps an existing baseline,
    changes no other field and no other object, enters no callback, and is
    idempotent: priming again, with whatever snapshot, leaves the store as it
    is. *)
Theorem priming_sets_each_missing_baseline_once w reg snap :
  registry_ok w reg = true ->
  exists w',
    prime_scheduled_snapshots reg snap w = (Ok tt, w') /\
    contexts w' = contexts w /\ trace w' = trace w /\
    length (objs w') = length (objs w) /\
    (forall r, r ∉ _scheduled_actions reg -> objs w' !! r = objs w !! r) /\
    (forall r a, r ∈ _scheduled_actions reg -> objs w !! r = Some a ->
       objs w' !! r
       = Some (mk_action (name a) (callback a) (options a) (trigger a) (next_run_at a)
                 (Some (default snap (previous_snapshot a))))) /\
    forall snap', prime_scheduled_snapshots reg snap' w' = (Ok tt, w').
Proof.
  intros Hok.
  destruct (prime_run w reg snap Hok) as (w' & Hrun & Hc & Ht & Hlen & Hok' & Hout & Hin).
  exists w'. split; [exact Hrun|]. split; [exact Hc|]. split; [exact Ht|].
  split; [exact Hlen|]. split; [exact Hout|]. split; [exact Hin|].
  intros snap'.
  destruct (prime_run w' reg snap' Hok')
    as (w'' & Hrun' & Hc' & Ht' & Hlen' & _ & Hout' & Hin').
  rewrite Hrun'. f_equal.
  destruct w' as [o c t], w'' as [o' c' t']. cbn in *. subst c' t'. f_equal.
  apply list_eq. intros r.
  destruct (decide (r ∈ _scheduled_actions reg)) as [Hs | Hs].
  - apply (scheduled_actions_spec _ _ _ Hok) in Hs as Hs'.
    destruct Hs' as (_ & a & Ha & _).
    rewrite (Hin' r (primed snap a) Hs (Hin r a Hs Ha)), (Hin r a Hs Ha).
    reflexivity.
  - apply Hout', Hs.
Qed.

Lemma numbered_fst n l : (numbered n l).*1 = l.
Proof. revert n. induction l as [| r l IH]; intros n; cbn; [| rewrite IH]; reflexivity. Qed.

Lemma numbered_snd n l : (numbered n l).*2 = seq n (length l).
Proof. revert n. induction l as [| r l IH]; intros n; cbn; [| rewrite IH]; reflexivity. Qed.

Lemma numbered_lookup l : forall n i,
  numbered n l !! i = (fun r => (r, n + i)) <$> l !! i.
Proof.
  induction l as [| r l IH]; intros n i; [reflexivity|].
  destruct i as [| i]; cbn.
  - now rewrite Nat.add_0_r.
  - rewrite IH. replace (S n + i) with (n + S i) by lia. reflexivity.
Qed.

Lemma numbered_elem_of n l r c :
  (r, c) ∈ numbered n l <-> exists i, l !! i = Some r /\ c = n + i.
Proof.
  rewrite list_elem_of_lookup. split.
  - intros [i Hi]. rewrite numbered_lookup in Hi.
    destruct (l !! i) as [r' |] eqn:Hl; [| discriminate].
    injection Hi as <- <-. eauto.
  - intros (i & Hl & ->). exists i. rewrite numbered_lookup, Hl. reflexivity.
Qed.

(** The due actions are the scheduled ones whose due time has come. *)
Lemma due_refs_spec now w reg r :
  r ∈ List.filter (due_ref now w) (_scheduled_actions reg) <->
  r ∈ _scheduled_actions reg /\ exists a, objs w !! r = Some a /\ is_due now a = true.
Proof.
  rewrite !list_elem_of_In, filter_In. unfold due_ref. split.
  - intros [Hr Hd]. split; [exact Hr|].
    destruct (objs w !! r) as [a |]; [eauto | discriminate].
  - intros [Hr (a & Ha & Hd)]. split; [exact Hr|]. now rewrite Ha.
Qed.

(** The call of one due action and its context. *)
Lemma dispatch_scheduled_call_of w reg now root snap r a :
  registry_ok w reg = true -> valid_datetime now = true -> (year now < MAXYEAR)%Z ->
  r ∈ _scheduled_actions reg -> objs w !! r = Some a -> is_due now a = true ->
  exists w' tr c,
    dispatch_scheduled reg now root snap w = (Ok tt, w') /\
    trace w' = trace w ++ tr /\ (r, c) ∈ invocations tr /\
    contexts w' !! c = Some (fired root snap a).
Proof.
  intros Hok Hnow Hy Hr Ha Hdue.
  destruct (dispatch_scheduled_run w reg now root snap Hok Hnow Hy)
    as (w' & tr & Hrun & _ & _ & _ & Hctx & Htr & Hinv).
  assert (Hin : r ∈ List.filter (due_ref now w) (_scheduled_actions reg))
    by (apply due_refs_spec; eauto).
  apply list_elem_of_lookup in Hin as [i Hi].
  exists w', tr, (length (contexts w) + i).
  split; [exact Hrun|]. split; [exact Htr|]. split.
  - rewrite Hinv. apply numbered_elem_of. eauto.
  - rewrite Hctx, lookup_app_r by lia.
    replace (length (contexts w) + i - length (contexts w)) with i by lia.
    rewrite list_lookup_fmap, Hi. cbn. unfold context_for. now rewrite Ha.
Qed.

(** X13.  Before the last year of the datetime range, [dispatch_scheduled]
    enters exactly the due time-triggered actions, each once, and gives each
    of them a new context of its own: no event, the current snapshot, and as
    [modified_events] the diff between the action's baseline and the current
    snapshot, or nothing when the action has no baseline. *)
Theorem scheduled_dispatch_gives_each_due_action_its_own_context w reg now root snap :
  registry_ok w reg = true -> valid_datetime now = true -> (year now < MAXYEAR)%Z ->
  exists w' tr,
    dispatch_scheduled reg now root snap w = (Ok tt, w') /\
    trace w' = trace w ++ tr /\
    length (contexts w') = length (contexts w) + length (invocations tr) /\
    NoDup (invocations tr).*1 /\ NoDup (invocations tr).*2 /\
    (forall r c, (r, c) ∈ invocations tr ->
       length (contexts w) <= c /\
       exists a, r ∈ _scheduled_actions reg /\ objs w !! r = Some a /\
         is_event_trigger a = false /\ is_due now a = true /\
         contexts w' !! c
         = Some (mk_context root snap None
                   match previous_snapshot a with
                   | Some previous => Actions._diff_snapshots previous snap
                   | None => []
                   end)) /\
    (forall r a, r ∈ _scheduled_actions reg -> objs w !! r = Some a ->
       is_due now a = true -> exists c, (r, c) ∈ invocations tr).
Proof.
  intros Hok Hnow Hy.
  destruct (dispatch_scheduled_run w reg now root snap Hok Hnow Hy)
    as (w' & tr & Hrun & _ & _ & _ & Hctx & Htr & Hinv).
  set (due := List.filter (due_ref now w) (_scheduled_actions reg)) in *.
  exists w', tr. split; [exact Hrun|]. split; [exact Htr|].
  rewrite Hinv, Hctx, numbered_fst, numbered_snd.
  split.
  { rewrite length_app, length_fmap. f_equal.
    rewrite <- (length_fmap fst (numbered _ due)), numbered_fst. reflexivity. }
  split.
  { apply NoDup_ListNoDup, List.NoDup_filter, NoDup_ListNoDup.
    eapply scheduled_actions_NoDup, Hok. }
  split; [apply NoDup_seq|]. split.
  - intros r c Hrc. apply numbered_elem_of in Hrc as (i & Hi & ->).
    split; [lia|].
    assert (Hr : r ∈ due) by (eapply list_elem_of_lookup_2, Hi).
    apply due_refs_spec in Hr as (Hs & a & Ha & Hd).
    exists a. split; [exact Hs|]. split; [exact Ha|].
    split.
    { apply (scheduled_actions_spec _ _ _ Hok) in Hs as (_ & a' & Ha' & Hne & _).
      congruence. }
    split; [exact Hd|].
    rewrite lookup_app_r by lia.
    replace (length (contexts w) + i - length (contexts w)) with i by lia.
    rewrite list_lookup_fmap, Hi. cbn. unfold context_for. now rewrite Ha.
  - intros r a Hs Ha Hd.
    assert (Hr : r ∈ due) by (apply due_refs_spec; eauto).
    apply list_elem_of_lookup in Hr as [i Hi].
    exists (length (contexts w) + i). apply numbered_elem_of. eauto.
Qed.

(** X14.  When every time-triggered action has a due time after [now],
    [dispatch_scheduled] returns and changes nothing at all: no callback is
    entered, no context created, no due time or baseline moved.  No
    assumption on [now]. *)
Theorem scheduled_dispatch_before_every_due_time_does_nothing w reg now root snap :
  all_waiting now w reg = true ->
  dispatch_scheduled reg now root snap w = (Ok tt, w).
Proof.
  intros Hidle. unfold dispatch_scheduled.
  destruct (bool_decide (_scheduled_actions reg = [])); [reflexivity|].
  apply for_each_idle. intros r Hr.
  unfold all_waiting in Hidle. rewrite forallb_forall in Hidle.
  apply list_elem_of_In in Hr. specialize (Hidle r Hr).
  destruct (objs w !! r) as [a |]; [| discriminate].
  destruct (next_run_at a) as [next |] eqn:Hn; [| discriminate]. eauto.
Qed.

(** X15.  [dispatch_event], [dispatch_scheduled] and
    [prime_scheduled_snapshots] keep the registry well formed
    ([registry_ok]). *)
Theorem dispatch_keeps_the_registry_well_formed w reg :
  registry_ok w reg = true ->
  (forall ev root snap w',
     dispatch_event reg ev root snap w = (Ok tt, w') -> registry_ok w' reg = true) /\
  (forall now root snap w',
     valid_datetime now = true -> (year now < MAXYEAR)%Z ->
     dispatch_scheduled reg now root snap w = (Ok tt, w') -> registry_ok w' reg = true) /\
  (forall snap w',
     prime_scheduled_snapshots reg snap w = (Ok tt, w') -> registry_ok w' reg = true).
Proof.
  intros Hok. split; [| split].
  - intros ev root snap w' Hrun.
    destruct (dispatch_event_run w reg ev root snap Hok) as (tr & Hrun' & _).
    rewrite Hrun in Hrun'. injection Hrun' as ->.
    rewrite <- Hok. now apply registry_ok_same_objs.
  - intros now root snap w' Hnow Hy Hrun.
    eapply dispatch_scheduled_keeps_registry_ok; eassumption.
  - intros snap w' Hrun.
    destruct (prime_run w reg snap Hok) as (w2 & Hrun' & _ & _ & _ & Hok' & _).
    rewrite Hrun in Hrun'. injection Hrun' as <-. exact Hok'.
Qed.

(** X16.  Event-triggered actions stay unscheduled: if none of them has a due
    time or a baseline, as the constructor leaves them, none has one after
    [dispatch_event], [dispatch_scheduled] or [prime_scheduled_snapshots], and
    [dispatch_scheduled] enters none of them. *)
Theorem event_triggered_actions_never_get_a_due_time w reg :
  registry_ok w reg = true -> listeners_unscheduled w reg = true ->
  (forall ev root snap w',
     dispatch_event reg ev root snap w = (Ok tt, w') ->
     listeners_unscheduled w' reg = true) /\
  (forall now root snap w',
     valid_datetime now = true -> (year now < MAXYEAR)%Z ->
     dispatch_scheduled reg now root snap w = (Ok tt, w') ->
     listeners_unscheduled w' reg = true /\
     exists tr, trace w' = trace w ++ tr /\
       forall r c, (r, c) ∈ invocations tr -> r ∉ _event_actions reg) /\
  (forall snap w',
     prime_scheduled_snapshots reg snap w = (Ok tt, w') ->
     listeners_unscheduled w' reg = true).
Proof.
  intros Hok Hun.
  assert (Hkeep : forall w', (forall r, r ∉ _scheduled_actions reg ->
                                objs w' !! r = objs w !! r) ->
            listeners_unscheduled w' reg = true).
  { intros w' Hout. rewrite listeners_unscheduled_spec in Hun |- *.
    intros r a Hr Ha. rewrite (Hout r (event_not_scheduled _ _ _ Hok Hr)) in Ha.
    now apply (Hun r a). }
  split; [| split].
  - intros ev root snap w' Hrun.
    destruct (dispatch_event_run w reg ev root snap Hok) as (tr & Hrun' & _).
    rewrite Hrun in Hrun'. injection Hrun' as ->. now apply Hkeep.
  - intros now root snap w' Hnow Hy Hrun.
    destruct (dispatch_scheduled_run w reg now root snap Hok Hnow Hy)
      as (w2 & tr & Hrun' & _ & Hout & _ & _ & Htr & Hinv).
    rewrite Hrun in Hrun'. injection Hrun' as <-. split; [now apply Hkeep|].
    exists tr. split; [exact Htr|]. intros r c Hnew Hr.
    rewrite Hinv in Hnew. apply numbered_elem_of in Hnew as (i & Hi & _).
    apply list_elem_of_lookup_2, list_elem_of_In, filter_In in Hi as [Hi _].
    apply list_elem_of_In in Hi.
    now apply (event_not_scheduled _ _ _ Hok Hr).
  - intros snap w' Hrun.
    destruct (prime_run w reg snap Hok) as (w2 & Hrun' & _ & _ & _ & _ & Hout & _).
    rewrite Hrun in Hrun'. injection Hrun' as <-. now apply Hkeep.
Qed.

(** X17.  What priming is for.  A due action without baseline that is primed
    with [snap0] and then dispatched with [snap] is given the diff from
    [snap0] to [snap], that is the changes between the two; dispatched
    without having been primed, it is given no change at all. *)
Theorem first_firing_reports_the_changes_since_priming
    w reg now root snap0 snap r a :
  registry_ok w reg = true -> valid_datetime now = true -> (year now < MAXYEAR)%Z ->
  r ∈ _scheduled_actions reg -> objs w !! r = Some a ->
  previous_snapshot a = None -> is_due now a = true ->
  (exists w1 w2 tr c,
     prime_scheduled_snapshots reg snap0 w = (Ok tt, w1) /\
     dispatch_scheduled reg now root snap w1 = (Ok tt, w2) /\
     trace w2 = trace w ++ tr /\ (r, c) ∈ invocations tr /\
     contexts w2 !! c
     = Some (mk_context root snap None (Actions._diff_snapshots snap0 snap)) /\
     forall e, e ∈ Actions._diff_snapshots snap0 snap <-> is_change snap0 snap e) /\
  (exists w2 tr c,
     dispatch_scheduled reg now root snap w = (Ok tt, w2) /\
     trace w2 = trace w ++ tr /\ (r, c) ∈ invocations tr /\
     contexts w2 !! c = Some (mk_context root snap None [])).
Proof.
  intros Hok Hnow Hy Hr Ha Hprev Hdue. split.
  - destruct (prime_run w reg snap0 Hok) as (w1 & Hrun1 & _ & Ht1 & _ & Hok1 & _ & Hin).
    specialize (Hin r a Hr Ha).
    destruct (dispatch_scheduled_call_of w1 reg now root snap r (primed snap0 a)
                Hok1 Hnow Hy Hr Hin Hdue) as (w2 & tr & c & Hrun2 & Htr & Hc & Hctx).
    exists w1, w2, tr, c. split; [exact Hrun1|]. split; [exact Hrun2|].
    split; [congruence|]. split; [exact Hc|]. split; [| apply diff_elem_of].
    rewrite Hctx. unfold fired, primed. cbn. rewrite Hprev. reflexivity.
  - destruct (dispatch_scheduled_call_of w reg now root snap r a Hok Hnow Hy Hr Ha Hdue)
      as (w2 & tr & c & Hrun2 & Htr & Hc & Hctx).
    exists w2, tr, c. split; [exact Hrun2|]. split; [exact Htr|]. split; [exact Hc|].
    rewrite Hctx. unfold fired. rewrite Hprev. reflexivity.
Qed.

(** X18.  After a due action has fired at [now], its due time is the first
    instant of its schedule more than one second after [now]: the reference
    is [now] plus one second and the next run is strictly after the
    reference, so an instant of the schedule up to one second after [now] is
    passed over. *)
Theorem fired_action_is_due_again_at_the_first_occurrence_a_second_later
    w reg now root snap r a :
  registry_ok w reg = true -> valid_datetime now = true -> (year now < MAXYEAR)%Z ->
  r ∈ _scheduled_actions reg -> objs w !! r = Some a -> is_due now a = true ->
  exists w' a' next reference,
    dispatch_scheduled reg now root snap w = (Ok tt, w') /\
    objs w' !! r = Some a' /\ next_run_at a' = Some next /\
    datetime_add now (timedelta_new 0 0 0 1) = Ok reference /\
    occurrence (trigger a) reference next /\
    (to_micro now + 1000000 < to_micro next)%Z /\
    forall d, valid_datetime d = true -> occurrence (trigger a) reference d ->
      (to_micro now + 1000000 < to_micro d)%Z -> datetime_le next d = true.
Proof.
  intros Hok Hnow Hy Hr Ha Hdue.
  destruct (dispatch_scheduled_run w reg now root snap Hok Hnow Hy)
    as (w' & tr & Hrun & _ & _ & Hin & _).
  destruct (Hin r a Hr Ha) as (a' & Ha' & Hstep).
  destruct Hstep as (_ & _ & _ & _ & _ & (next & Hnext & _) & Hcase).
  rewrite Hdue in Hcase. destruct Hcase as (_ & reference & Hadd & Hcomp).
  rewrite Hnext in Hcomp.
  destruct (one_second_later now Hnow Hy) as (reference' & Hadd' & Hvr & Hmicro & _).
  rewrite Hadd in Hadd'. injection Hadd' as <-.
  apply (scheduled_actions_spec _ _ _ Hok) in Hr as (_ & a0 & Ha0 & _ & Haok).
  rewrite Ha in Ha0. injection Ha0 as <-.
  apply action_ok_spec in Haok as [Hv _].
  destruct (next_run_first_after _ _ _ Hv Hvr Hcomp) as (Hvn & Hocc & Hlt & _ & Hleast).
  exists w', a', next, reference.
  split; [exact Hrun|]. split; [exact Ha'|]. split; [exact Hnext|].
  split; [exact Hadd|]. split; [exact Hocc|]. split; [lia|].
  intros d Hd Hoccd Hltd. apply datetime_le_micro; [assumption..|].
  apply Hleast; [assumption..| lia].
Qed.

(** X19.  A time-triggered action without due time is scheduled, not fired:
    [dispatch_scheduled] sets its due time to what [_compute_next_run] gives
    at [now], which is after [now], does not enter its callback, and keeps
    its baseline. *)
Theorem action_without_due_time_is_scheduled_not_fired w reg now root snap r a :
  registry_ok w reg = true -> valid_datetime now = true -> (year now < MAXYEAR)%Z ->
  r ∈ _scheduled_actions reg -> objs w !! r = Some a -> next_run_at a = None ->
  exists w' tr next,
    dispatch_scheduled reg now root snap w = (Ok tt, w') /\
    trace w' = trace w ++ tr /\
    (forall c, (r, c) ∉ invocations tr) /\
    _compute_next_run (trigger a) now = Ok (Some next) /\
    datetime_lt now next = true /\
    objs w' !! r
    = Some (mk_action (name a) (callback a) (options a) (trigger a) (Some next)
              (previous_snapshot a)).
Proof.
  intros Hok Hnow Hy Hr Ha Hnone.
  destruct (dispatch_scheduled_run w reg now root snap Hok Hnow Hy)
    as (w' & tr & Hrun & _ & _ & Hin & _ & Htr & Hinv).
  destruct (Hin r a Hr Ha) as (a' & Ha' & Hstep).
  destruct Hstep as (Hn & Hc & Ho & Ht & _ & (next & Hnext & Hlt) & Hcase).
  assert (Hdue : is_due now a = false) by (unfold is_due; now rewrite Hnone).
  rewrite Hdue, Hnone in Hcase. destruct Hcase as [Hprev Hcomp].
  rewrite Hnext in Hcomp.
  exists w', tr, next. split; [exact Hrun|]. split; [exact Htr|]. split.
  - intros c Hc'. rewrite Hinv in Hc'. apply numbered_elem_of in Hc' as (i & Hi & _).
    apply list_elem_of_lookup_2, list_elem_of_In, filter_In in Hi as [_ Hi].
    unfold due_ref in Hi. rewrite Ha, Hdue in Hi. discriminate.
  - split; [exact Hcomp|]. split; [exact Hlt|].
    rewrite Ha'. f_equal. destruct a'. cbn in *. congruence.
Qed.

End DispatchFacts.

(** ** The scanner *)

Section ScanFacts.

Import Py Datetime Events Monitor Actions Spec.

Variable fnmatch : string -> string -> bool.

Lemma scan_step_lookup config results e p :
  scan_step fnmatch config results e !! p
  = if bool_decide (entry_path e = p) && is_file e
       && _matches_patterns fnmatch (entry_path e)
            (include_patterns config) (exclude_patterns config)
       && bool_decide (is_Some (stat e))
    then stat e else results !! p.
Proof.
  unfold scan_step.
  destruct (is_file e); cbn [negb andb]; [| now rewrite andb_false_r].
  destruct (_matches_patterns _ _ _ _); cbn [negb andb]; [| now rewrite andb_false_r].
  destruct (stat e) as [[m s] |] eqn:Hst.
  - rewrite (bool_decide_eq_true_2 (is_Some (Some (m, s)))) by eauto.
    rewrite !andb_true_r.
    destruct (bool_decide (entry_path e = p)) eqn:Hp.
    + apply bool_decide_eq_true in Hp. subst p. apply lookup_insert_eq.
    + apply bool_decide_eq_false in Hp. now apply lookup_insert_ne.
  - rewrite (bool_decide_eq_false_2 (is_Some None)) by (intros [? [=]]).
    now rewrite andb_false_r.
Qed.

Lemma scan_fold_sound config l p v : forall results,
  foldl (scan_step fnmatch config) results l !! p = Some v ->
  results !! p = Some v \/
  exists e, e ∈ l /\ entry_path e = p /\ is_file e = true /\
    _matches_patterns fnmatch p (include_patterns config) (exclude_patterns config) = true /\
    stat e = Some v.
Proof.
  induction l as [| e l IH]; intros results; cbn [foldl]; [auto|].
  intros H. apply IH in H as [H | (e' & He' & Hrest)].
  - rewrite scan_step_lookup in H.
    destruct (_ && _) eqn:Hc; [| auto].
    right. exists e. boolp.
    repeat match goal with H : bool_decide _ = true |- _ => apply bool_decide_eq_true in H end.
    subst p. split; [left|]. auto.
  - right. exists e'. split; [now right | exact Hrest].
Qed.

Lemma scan_fold_other config l p : forall results,
  (forall e, e ∈ l -> entry_path e <> p) ->
  foldl (scan_step fnmatch config) results l !! p = results !! p.
Proof.
  induction l as [| e l IH]; intros results Hl; cbn [foldl]; [reflexivity|].
  rewrite IH by (intros e' He'; apply Hl; now right).
  rewrite scan_step_lookup.
  rewrite (bool_decide_eq_false_2 (entry_path e = p)) by (apply Hl; left).
  reflexivity.
Qed.

Lemma scan_fold_complete config l e v :
  NoDup (entry_path <$> l) -> e ∈ l -> is_file e = true ->
  _matches_patterns fnmatch (entry_path e)
    (include_patterns config) (exclude_patterns config) = true ->
  stat e = Some v ->
  forall results, foldl (scan_step fnmatch config) results l !! entry_path e = Some v.
Proof.
  intros Hnd He Hf Hm Hs. induction l as [| e' l IH]; intros results; [inversion He|].
  cbn [fmap list_fmap] in Hnd. apply NoDup_cons in Hnd as [Hfresh Hnd].
  cbn [foldl]. apply elem_of_cons in He as [<- | He].
  - rewrite scan_fold_other.
    + rewrite scan_step_lookup, Hf, Hm, Hs.
      rewrite (bool_decide_eq_true_2 (entry_path e = entry_path e)) by reflexivity.
      rewrite (bool_decide_eq_true_2 (is_Some (Some v))) by eauto. reflexivity.
    + intros e' He' Heq. apply Hfresh. rewrite <- Heq.
      apply list_elem_of_fmap. eauto.
  - now apply IH.
Qed.

(** X20.  [_scan] returns the empty snapshot when the root does not exist.
    Every entry of its snapshot is the modification time and size that
    [stat()] gave for a listed regular file that passes the filter; and when
    the listing yields every path once, each such file is in the snapshot with
    these values. *)
Theorem scan_records_the_stat_of_each_accepted_file config fs :
  let listing := _iter_paths fs (recursive config) in
  let accepted e :=
    is_file e = true /\
    _matches_patterns fnmatch (entry_path e)
      (include_patterns config) (exclude_patterns config) = true in
  (root_exists fs = false -> _scan fnmatch config fs = ∅) /\
  (forall p v, _scan fnmatch config fs !! p = Some v ->
     root_exists fs = true /\
     exists e, e ∈ listing /\ entry_path e = p /\ accepted e /\ stat e = Some v) /\
  (NoDup (entry_path <$> listing) -> root_exists fs = true ->
   forall e v, e ∈ listing -> accepted e -> stat e = Some v ->
     _scan fnmatch config fs !! entry_path e = Some v).
Proof.
  intros listing accepted. unfold _scan. split; [| split].
  - intros ->. reflexivity.
  - intros p v. destruct (root_exists fs); cbn [negb].
    + intros H. split; [reflexivity|].
      apply scan_fold_sound in H as [H | (e & He & <- & Hf & Hm & Hs)].
      * rewrite lookup_empty in H. discriminate.
      * exists e. unfold accepted. auto.
    + rewrite lookup_empty. discriminate.
  - intros Hnd -> e v He [Hf Hm] Hs. cbn [negb].
    now apply scan_fold_complete.
Qed.

End ScanFacts.

(** ** The polling loop *)

Section LoopFacts.

Import Py Datetime Events Monitor Actions Spec RegistryProps Loop LoopProps.

Variable fnmatch : string -> string -> bool.

Lemma listener_calls_nil n events : listener_calls [] n events = [].
Proof. revert n. induction events as [| ev events IH]; intros n; cbn; auto. Qed.

Lemma listener_calls_fst listeners events : forall n r,
  r ∈ (listener_calls listeners n events).*1 -> r ∈ listeners.
Proof.
  induction events as [| ev events IH]; intros n r; cbn.
  - intros H. inversion H.
  - rewrite fmap_app, elem_of_app, <- list_fmap_compose. intros [H | H].
    + apply list_elem_of_fmap in H as (r' & -> & Hr'). exact Hr'.
    + eapply IH, H.
Qed.

(** The loop over the change records of one pass. *)
Lemma for_each_dispatch_event reg root snap events : forall w,
  registry_ok w reg = true ->
  exists tr,
    for_each events (fun event => dispatch_event reg event root snap) w
    = (Ok tt,
       mk_world (objs w)
         (contexts w ++
          if bool_decide (_event_actions reg = []) then []
          else (fun ev => mk_context root snap (Some ev) []) <$> events)
         (trace w ++ tr)) /\
    invocations tr = listener_calls (_event_actions reg) (length (contexts w)) events.
Proof.
  induction events as [| ev events IH]; intros w Hok.
  - exists []. cbn. unfold ret. destruct w.
    destruct (bool_decide _); cbn; rewrite !app_nil_r; auto.
  - destruct (dispatch_event_run w reg ev root snap Hok) as (tr1 & Hrun1 & Hinv1).
    set (w1 := mk_world (objs w) _ (trace w ++ tr1)) in Hrun1.
    destruct (IH w1) as (tr2 & Hrun2 & Hinv2).
    { rewrite <- Hok. now apply registry_ok_same_objs. }
    exists (tr1 ++ tr2). cbn [for_each]. unfold mbind at 1. rewrite Hrun1, Hrun2.
    split.
    + f_equal. unfold w1. cbn [objs contexts trace]. f_equal.
      * destruct (bool_decide (_event_actions reg = [])); cbn.
        { now rewrite !app_nil_r. }
        now rewrite <- app_assoc.
      * now rewrite app_assoc.
    + rewrite invocations_app, Hinv1, Hinv2. cbn [listener_calls]. f_equal.
      unfold w1. cbn [contexts].
      destruct (bool_decide (_event_actions reg = [])) eqn:He.
      * apply bool_decide_eq_true in He. rewrite He, !listener_calls_nil. reflexivity.
      * rewrite length_app. cbn. now rewrite Nat.add_1_r.
Qed.

(** One pass of the loop. *)
Lemma cycle_run self t w :
  registry_ok w (_actions self) = true ->
  valid_datetime (now t) = true -> (year (now t) < MAXYEAR)%Z ->
  let new_snapshot := _scan fnmatch (_config self) (seen t) in
  let events := Monitor._diff_snapshots (_snapshot self) new_snapshot in
  let root := Monitor.root_path (_config self) in
  let due := List.filter (due_ref (now t) w) (_scheduled_actions (_actions self)) in
  let noted :=
    if bool_decide (_event_actions (_actions self) = []) then []
    else (fun ev => mk_context root new_snapshot (Some ev) []) <$> events in
  exists w' tr,
    cycle fnmatch self t w
    = (Ok (mk_monitor (_config self) (_actions self) new_snapshot
             (mk_stats (cycles (_stats self) + 1)
                (events_emitted (_stats self) + Z.of_nat (length events)))), w') /\
    registry_ok w' (_actions self) = true /\
    length (objs w') = length (objs w) /\
    (forall r, r ∉ _scheduled_actions (_actions self) -> objs w' !! r = objs w !! r) /\
    contexts w'
    = contexts w ++ noted ++ (context_for root new_snapshot w <$> due) /\
    trace w' = trace w ++ tr /\
    invocations tr
    = listener_calls (_event_actions (_actions self)) (length (contexts w)) events
      ++ numbered (length (contexts w) + length noted) due.
Proof.
  intros Hok Hnow Hy new_snapshot events root due noted.
  destruct (for_each_dispatch_event (_actions self) root new_snapshot events w Hok)
    as (tr1 & Hrun1 & Hinv1).
  fold noted in Hrun1.
  set (w1 := mk_world (objs w) (contexts w ++ noted) (trace w ++ tr1)) in Hrun1.
  assert (Hok1 : registry_ok w1 (_actions self) = true).
  { rewrite <- Hok. now apply registry_ok_same_objs. }
  destruct (dispatch_scheduled_run w1 (_actions self) (now t) root new_snapshot Hok1 Hnow Hy)
    as (w2 & tr2 & Hrun2 & Hlen & Hout & _ & Hctx & Htr & Hinv2).
  exists w2, (tr1 ++ tr2).
  split.
  { unfold cycle, _detect_changes. cbv zeta.
    fold new_snapshot. fold events. fold root.
    unfold mbind at 1. rewrite Hrun1. unfold mbind at 1. rewrite Hrun2. reflexivity. }
  split.
  { eapply dispatch_scheduled_keeps_registry_ok; eassumption. }
  split; [exact Hlen|]. split; [exact Hout|].
  split; [rewrite Hctx; unfold w1; cbn [contexts]; now rewrite <- app_assoc|].
  split; [rewrite Htr; unfold w1; cbn [trace]; now rewrite <- app_assoc|].
  rewrite invocations_app, Hinv1, Hinv2. unfold w1. cbn [contexts].
  now rewrite length_app.
Qed.

Lemma times_called_app r l1 l2 :
  times_called r (l1 ++ l2) = times_called r l1 + times_called r l2.
Proof. unfold times_called. now rewrite filter_app, length_app. Qed.

Lemma times_called_out r calls : r ∉ calls.*1 -> times_called r calls = 0.
Proof.
  unfold times_called. induction calls as [| [r' c] calls IH]; intros Hr; [reflexivity|].
  cbn in Hr. apply not_elem_of_cons in Hr as [Hne Hr].
  rewrite filter_cons_False by (cbn; congruence). auto.
Qed.

Lemma times_called_once r n listeners :
  NoDup listeners -> r ∈ listeners ->
  times_called r ((fun r' => (r', n)) <$> listeners) = 1.
Proof.
  unfold times_called. induction listeners as [| r' l IH]; intros Hnd Hr; [inversion Hr|].
  apply NoDup_cons in Hnd as [Hr' Hnd]. cbn [fmap list_fmap].
  destruct (decide (r' = r)) as [-> | Hne].
  - rewrite filter_cons_True by reflexivity. cbn. f_equal.
    apply (times_called_out r). rewrite <- list_fmap_compose.
    intros Hin. apply list_elem_of_fmap in Hin as (x & -> & Hx). contradiction.
  - rewrite filter_cons_False by (cbn; congruence).
    apply IH; [assumption|]. apply elem_of_cons in Hr as [-> | Hr]; [congruence | assumption].
Qed.

Lemma times_called_listener r listeners events : forall n,
  NoDup listeners -> r ∈ listeners ->
  times_called r (listener_calls listeners n events) = length events.
Proof.
  induction events as [| ev events IH]; intros n Hnd Hr; [reflexivity|].
  cbn [listener_calls length]. rewrite times_called_app, times_called_once, IH by assumption.
  reflexivity.
Qed.

Lemma event_actions_NoDup w reg :
  registry_ok w reg = true -> NoDup (_event_actions reg).
Proof.
  intros Hok. destruct (registry_ok_spec _ _ Hok) as (Hnd & _ & -> & _).
  now apply NoDup_ListNoDup, List.NoDup_filter, NoDup_ListNoDup.
Qed.

Lemma timely_cons t ticks :
  timely (t :: ticks) = true ->
  valid_datetime (now t) = true /\ (year (now t) < MAXYEAR)%Z /\ timely ticks = true.
Proof.
  unfold timely. cbn [forallb]. intros H. boolp. auto.
Qed.

(** The passes of the loop. *)
Lemma loop_run ticks : forall self w,
  registry_ok w (_actions self) = true -> timely ticks = true ->
  let changes := changes_seen fnmatch (_config self) (_snapshot self) ticks in
  exists w' tr,
    loop fnmatch self ticks w
    = (Ok tt,
       mk_monitor (_config self) (_actions self)
         (last_scan fnmatch (_config self) (_snapshot self) ticks)
         (mk_stats (cycles (_stats self) + Z.of_nat (length ticks))
            (events_emitted (_stats self) + Z.of_nat (length (concat changes)))),
       w') /\
    registry_ok w' (_actions self) = true /\
    trace w' = trace w ++ tr /\
    (forall r, r ∈ _event_actions (_actions self) ->
       times_called r (invocations tr) = length (concat changes)) /\
    (forall r c, (r, c) ∈ invocations tr ->
       (r ∈ _event_actions (_actions self) /\ concat changes <> []) \/
       r ∈ _scheduled_actions (_actions self)).
Proof.
  induction ticks as [| t ticks IH]; intros self w Hok Htimely changes.
  - exists w, []. cbn. rewrite !Z.add_0_r, app_nil_r. destruct self as [c a s [cy ev]].
    repeat split; try assumption. intros r c0 H. inversion H.
  - apply timely_cons in Htimely as (Hnow & Hy & Htimely).
    destruct (cycle_run self t w Hok Hnow Hy)
      as (w1 & tr1 & Hrun1 & Hok1 & _ & _ & _ & Htr1 & Hinv1).
    cbv zeta in Hrun1, Hinv1.
    set (new_snapshot := _scan fnmatch (_config self) (seen t)) in *.
    set (events := Monitor._diff_snapshots (_snapshot self) new_snapshot) in *.
    set (self1 := mk_monitor _ _ _ _) in Hrun1.
    destruct (IH self1 w1 Hok1 Htimely) as (w2 & tr2 & Hrun2 & Hok2 & Htr2 & Hcount & Honly).
    cbv zeta in Hrun2, Hcount, Honly. cbn [self1 _config _actions _snapshot _stats cycles events_emitted] in *.
    exists w2, (tr1 ++ tr2).
    assert (Hch : changes
                  = events :: changes_seen fnmatch (_config self) new_snapshot ticks)
      by reflexivity.
    split.
    { cbn [loop]. rewrite Hrun1, Hrun2. f_equal. f_equal. f_equal.
      rewrite Hch. cbn [concat length]. rewrite length_app. f_equal; lia. }
    split; [exact Hok2|].
    split; [rewrite Htr2, Htr1; now rewrite app_assoc|].
    pose proof (event_actions_NoDup _ _ Hok) as Hnde.
    split.
    + intros r Hr. rewrite invocations_app, times_called_app, (Hcount r Hr), Hinv1.
      rewrite times_called_app, times_called_listener by assumption.
      rewrite times_called_out.
      * rewrite Hch. cbn [concat]. rewrite length_app. lia.
      * rewrite numbered_fst. intros Hd.
        apply list_elem_of_In, filter_In in Hd as [Hd _]. apply list_elem_of_In in Hd.
        now apply (event_not_scheduled _ _ _ Hok Hr).
    + intros r c. rewrite invocations_app, elem_of_app. intros [H1 | H2].
      * rewrite Hinv1 in H1. apply elem_of_app in H1 as [Hl | Hs].
        { left. split.
          - eapply listener_calls_fst. apply list_elem_of_fmap. exists (r, c). split; [reflexivity | exact Hl].
          - rewrite Hch. cbn [concat]. destruct events; [inversion Hl | discriminate]. }
        { right. apply numbered_elem_of in Hs as (i & Hi & _).
          apply list_elem_of_lookup_2, list_elem_of_In, filter_In in Hi as [Hi _].
          now apply list_elem_of_In. }
      * destruct (Honly r c H2) as [[Hr Hne] | Hs]; [left | right; exact Hs].
        split; [exact Hr|]. rewrite Hch. cbn [concat]. intros Hnil.
        apply app_eq_nil in Hnil as [_ Hnil]. contradiction.
Qed.

Lemma run_from_new config reg startup ticks w :
  registry_ok w reg = true -> timely ticks = true ->
  let first := _scan fnmatch config startup in
  let changes := changes_seen fnmatch config first ticks in
  exists w' tr,
    run fnmatch (new_monitor config reg) startup ticks w
    = (Ok tt,
       mk_monitor config reg (last_scan fnmatch config first ticks)
         (mk_stats (Z.of_nat (length ticks)) (Z.of_nat (length (concat changes)))),
       w') /\
    registry_ok w' reg = true /\
    trace w' = trace w ++ tr /\
    (forall r, r ∈ _event_actions reg ->
       times_called r (invocations tr) = length (concat changes)) /\
    (forall r c, (r, c) ∈ invocations tr ->
       (r ∈ _event_actions reg /\ concat changes <> []) \/ r ∈ _scheduled_actions reg).
Proof.
  intros Hok Htimely first changes.
  destruct (prime_run w reg first Hok) as (w1 & Hprime & _ & Ht1 & _ & Hok1 & _).
  set (self := mk_monitor config reg first (mk_stats 0 0)).
  destruct (loop_run ticks self w1 Hok1 Htimely)
    as (w2 & tr & Hloop & Hok2 & Htr & Hcount & Honly).
  exists w2, tr. split.
  { unfold run, new_monitor. cbn [_config Loop._actions _snapshot _stats].
    fold first. rewrite Hprime. exact Hloop. }
  split; [exact Hok2|]. split; [congruence|]. split; [exact Hcount | exact Honly].
Qed.

Lemma changes_seen_quiet config previous ticks :
  Forall (fun t => _scan fnmatch config (seen t) = previous) ticks ->
  concat (changes_seen fnmatch config previous ticks) = [] /\
  last_scan fnmatch config previous ticks = previous.
Proof.
  unfold last_scan. induction 1 as [| t ticks Ht _ IH]; [auto|].
  cbn [changes_seen concat foldl]. rewrite Ht, monitor_diff_eq, diff_self. exact IH.
Qed.


(** X22.  During [run] every event-triggered action is entered once for every
    change record: the number of its calls is the number of change records
    between successive scans; and only actions of the registry are
    entered. *)
Theorem every_change_reaches_every_listener_once config reg startup ticks w :
  registry_ok w reg = true -> timely ticks = true ->
  let changes := changes_seen fnmatch config (_scan fnmatch config startup) ticks in
  exists self' w' tr,
    run fnmatch (new_monitor config reg) startup ticks w = (Ok tt, self', w') /\
    trace w' = trace w ++ tr /\
    (forall r, r ∈ _event_actions reg ->
       times_called r (invocations tr) = length (concat changes)) /\
    (forall r c, (r, c) ∈ invocations tr ->
       r ∈ _event_actions reg \/ r ∈ _scheduled_actions reg).
Proof.
  intros Hok Htimely changes.
  destruct (run_from_new config reg startup ticks w Hok Htimely)
    as (w' & tr & Hrun & _ & Htr & Hcount & Honly).
  eexists _, w', tr. split; [exact Hrun|]. split; [exact Htr|]. split; [exact Hcount|].
  intros r c Hrc. destruct (Honly r c Hrc) as [[? _] | ?]; auto.
Qed.

(** X23.  A tree that does not change wakes no listener: when every scan finds
    what the startup scan found, [events_emitted] stays 0 and only
    time-triggered actions are entered.  In particular the files that exist
    when the monitor starts are not reported as created. *)
Theorem unchanged_tree_wakes_no_listener config reg startup ticks w :
  registry_ok w reg = true -> timely ticks = true ->
  Forall (fun t => _scan fnmatch config (seen t) = _scan fnmatch config startup) ticks ->
  exists self' w' tr,
    run fnmatch (new_monitor config reg) startup ticks w = (Ok tt, self', w') /\
    events_emitted (_stats self') = 0%Z /\
    _snapshot self' = _scan fnmatch config startup /\
    trace w' = trace w ++ tr /\
    forall r c, (r, c) ∈ invocations tr -> r ∈ _scheduled_actions reg.
Proof.
  intros Hok Htimely Hquiet.
  destruct (run_from_new config reg startup ticks w Hok Htimely)
    as (w' & tr & Hrun & _ & Htr & _ & Honly).
  destruct (changes_seen_quiet config _ ticks Hquiet) as [Hnone Hlast].
  cbv zeta in Hrun, Honly. rewrite Hnone, Hlast in Hrun.
  eexists _, w', tr. split; [exact Hrun|]. cbn.
  split; [reflexivity|]. split; [reflexivity|]. split; [exact Htr|].
  intros r c Hrc. destruct (Honly r c Hrc) as [[_ Hne] | ?]; [| assumption].
  rewrite Hnone in Hne. contradiction.
Qed.

End LoopFacts.

(** ** Replaying change records *)

Section ReplayFacts.

Import Py Events Spec Replay.

Lemma replay_other events p : forall s,
  p ∉ path <$> events -> replay s events !! p = s !! p.
Proof.
  unfold replay. induction events as [| e events IH]; intros s Hp; [reflexivity|].
  cbn [fmap list_fmap] in Hp. apply not_elem_of_cons in Hp as [Hne Hp].
  cbn [foldl]. rewrite IH by assumption.
  unfold apply_event.
  destruct (event_type e); try reflexivity;
    try (destruct (mtime e), (size e); try reflexivity; now apply lookup_insert_ne).
  now apply lookup_delete_ne.
Qed.

Lemma replay_hit events e : forall s,
  NoDup (path <$> events) -> e ∈ events ->
  replay s events !! path e = apply_event s e !! path e.
Proof.
  induction events as [| e' events IH]; intros s Hnd He; [inversion He|].
  cbn [fmap list_fmap] in Hnd. apply NoDup_cons in Hnd as [Hfresh Hnd].
  apply elem_of_cons in He as [<- | He].
  - unfold replay. cbn [foldl]. apply replay_other. exact Hfresh.
  - unfold replay. cbn [foldl]. fold (replay (apply_event s e') events).
    rewrite IH by assumption.
    assert (Hne : path e' <> path e).
    { intros Heq. apply Hfresh. rewrite Heq. apply list_elem_of_fmap. eauto. }
    unfold apply_event at 1 3.
    destruct (event_type e).
    + destruct (mtime e), (size e); try (now rewrite !lookup_insert_eq).
      all: unfold apply_event; destruct (event_type e'); try reflexivity;
        try (destruct (mtime e'), (size e'); try reflexivity; now apply lookup_insert_ne);
        now apply lookup_delete_ne.
    + destruct (mtime e), (size e); try (now rewrite !lookup_insert_eq).
      all: unfold apply_event; destruct (event_type e'); try reflexivity;
        try (destruct (mtime e'), (size e'); try reflexivity; now apply lookup_insert_ne);
        now apply lookup_delete_ne.
    + now rewrite !lookup_delete_eq.
    + unfold apply_event; destruct (event_type e'); try reflexivity;
        try (destruct (mtime e'), (size e'); try reflexivity; now apply lookup_insert_ne);
        now apply lookup_delete_ne.
Qed.

(** Where the snapshots differ there is a change record. *)
Lemma change_at old new p :
  old !! p <> new !! p ->
  exists e, is_change old new e /\ path e = p.
Proof.
  intros Hne.
  destruct (old !! p) as [[m' s'] |] eqn:Ho, (new !! p) as [[m s] |] eqn:Hn.
  - eexists. split; [eapply (change_modified old new p m s m' s'); try eassumption|].
    + congruence.
    + reflexivity.
  - eexists. split; [eapply (change_deleted old new p m' s'); eassumption | reflexivity].
  - eexists. split; [eapply (change_created old new p m s); eassumption | reflexivity].
  - contradiction.
Qed.

(** X24.  Replaying the records of [_diff_snapshots old new] on [old] (put the
    recorded modification time and size for a created or modified file, remove
    a deleted one) gives [new]: the records lose nothing.  For both
    implementations. *)
Theorem replaying_the_diff_rebuilds_the_new_snapshot (old new : Snapshot) :
  replay old (Actions._diff_snapshots old new) = new /\
  replay old (Monitor._diff_snapshots old new) = new.
Proof.
  rewrite monitor_diff_eq. split; [| ]; apply map_eq; intros p.
  all: destruct (decide (old !! p = new !! p)) as [Heq | Hne].
  all: try (rewrite replay_other; [exact Heq|];
            intros Hin; apply list_elem_of_fmap in Hin as (e & -> & He);
            apply diff_elem_of in He; destruct He; cbn in *; congruence).
  all: destruct (change_at old new p Hne) as (e & Hch & <-);
       rewrite replay_hit by (first [apply diff_paths_NoDup | now apply diff_elem_of]);
       destruct Hch; cbn; unfold apply_event; cbn;
       rewrite ?lookup_insert_eq, ?lookup_delete_eq; congruence.
Qed.

(** X25.  [_diff_snapshots old new] is empty exactly when [old] and [new] are
    equal.  For both implementations. *)
Theorem diff_is_empty_only_for_equal_snapshots (old new : Snapshot) :
  (Actions._diff_snapshots old new = [] <-> old = new) /\
  (Monitor._diff_snapshots old new = [] <-> old = new).
Proof.
  rewrite monitor_diff_eq.
  assert (H : Actions._diff_snapshots old new = [] <-> old = new); [| tauto].
  split.
  - intros Hnil. apply map_eq. intros p.
    destruct (decide (old !! p = new !! p)) as [| Hne]; [assumption|].
    destruct (change_at old new p Hne) as (e & Hch & _).
    apply diff_elem_of in Hch. rewrite Hnil in Hch. inversion Hch.
  - intros ->. apply diff_self.
Qed.

End ReplayFacts.

(** ** More worked instances *)

Section OccurrenceInstances.

Import Py Datetime Config Scheduler Spec Occurrences Samples Fixtures.
Local Open Scope Z_scope.

Lemma next_run_is_the_first_occurrence_witness :
  validated_trigger hourly_at_30 = true /\
  valid_datetime quarter_to_eleven = true /\
  _compute_next_run hourly_at_30 quarter_to_eleven
  = Ok (Some (mk_datetime 2024 5 6 11 30 0 0)) /\
  occurrence hourly_at_30 quarter_to_eleven (mk_datetime 2024 5 6 11 30 0 0) /\
  datetime_lt quarter_to_eleven (mk_datetime 2024 5 6 11 30 0 0) = true /\
  forall d, valid_datetime d = true -> occurrence hourly_at_30 quarter_to_eleven d ->
    datetime_lt quarter_to_eleven d = true ->
    datetime_le (mk_datetime 2024 5 6 11 30 0 0) d = true.
Proof.
  split; [reflexivity|]. split; [reflexivity|]. split; [vm_compute; reflexivity|].
  apply (next_run_is_the_first_occurrence hourly_at_30 quarter_to_eleven);
    vm_compute; reflexivity.
Defined.

Lemma next_run_within_one_period_witness :
  validated_trigger monthly_on_31 = true /\
  valid_datetime end_of_january = true /\
  _compute_next_run monthly_on_31 end_of_january
  = Ok (Some (mk_datetime 2023 2 28 9 0 0 0)) /\
  0 < to_micro (mk_datetime 2023 2 28 9 0 0 0) - to_micro end_of_january
    <= period_micro (Config.type monthly_on_31).
Proof.
  split; [reflexivity|]. split; [reflexivity|]. split; [vm_compute; reflexivity|].
  apply (next_run_within_one_period monthly_on_31 end_of_january);
    vm_compute; reflexivity.
Defined.

Lemma next_run_is_stable_until_due_witness :
  validated_trigger monthly_on_31 = true /\
  self_contained monthly_on_31 = true /\
  valid_datetime end_of_january = true /\
  valid_datetime mid_february = true /\
  year mid_february < MAXYEAR /\
  _compute_next_run monthly_on_31 end_of_january
  = Ok (Some (mk_datetime 2023 2 28 9 0 0 0)) /\
  datetime_le end_of_january mid_february = true /\
  datetime_lt mid_february (mk_datetime 2023 2 28 9 0 0 0) = true /\
  _compute_next_run monthly_on_31 mid_february
  = Ok (Some (mk_datetime 2023 2 28 9 0 0 0)).
Proof.
  split; [reflexivity|]. split; [reflexivity|]. split; [reflexivity|].
  split; [reflexivity|]. split; [reflexivity|]. split; [vm_compute; reflexivity|].
  split; [reflexivity|]. split; [reflexivity|].
  apply (next_run_is_stable_until_due monthly_on_31 end_of_january);
    vm_compute; reflexivity.
Defined.

End OccurrenceInstances.

Section MoreInstances.

Import Py Datetime Config Scheduler Events Monitor Actions Spec Samples.
Import Occurrences Loader RegistryProps Loop LoopProps Replay Fixtures.
Local Open Scope string_scope.

Lemma next_run_is_monotone_witness :
  validated_trigger wednesday_morning = true /\
  self_contained wednesday_morning = true /\
  valid_datetime wednesday_night = true /\ valid_datetime a_week_later = true /\
  datetime_le wednesday_night a_week_later = true /\
  _compute_next_run wednesday_morning wednesday_night = Ok (Some a_week_later) /\
  _compute_next_run wednesday_morning a_week_later
  = Ok (Some (mk_datetime 2024 5 22 9 0 0 0)) /\
  datetime_le a_week_later (mk_datetime 2024 5 22 9 0 0 0) = true.
Proof.
  split; [reflexivity|]. split; [reflexivity|]. split; [reflexivity|].
  split; [reflexivity|]. split; [reflexivity|].
  split; [vm_compute; reflexivity|]. split; [vm_compute; reflexivity|].
  apply (next_run_is_monotone wednesday_morning wednesday_night a_week_later);
    vm_compute; reflexivity.
Defined.

Lemma accepted_time_is_a_time_of_day_witness :
  _parse_time_field int_decimal (YStr "09:30") "trigger.time" = Valid (mk_time 9 30 0) /\
  valid_time (mk_time 9 30 0) = true /\
  exists s, YStr "09:30" = YStr s /\
    ((length (split ":" s) = 2%nat /\ t_second (mk_time 9 30 0) = 0%Z) \/
     length (split ":" s) = 3%nat).
Proof.
  split; [vm_compute; reflexivity|].
  apply (accepted_time_is_a_time_of_day int_decimal (YStr "09:30") "trigger.time").
  vm_compute. reflexivity.
Defined.

Lemma accepted_trigger_is_validated_witness :
  _parse_action_trigger int_decimal strip_blanks lower_ascii weekly_yaml 0
  = Valid weekly_at_half_past_nine /\
  validated_trigger weekly_at_half_past_nine = true /\
  self_contained weekly_at_half_past_nine = true.
Proof.
  split; [vm_compute; reflexivity|].
  apply (accepted_trigger_is_validated int_decimal strip_blanks lower_ascii weekly_yaml 0).
  vm_compute. reflexivity.
Defined.

Lemma accepted_trigger_has_the_fields_of_its_type_witness :
  let t := weekly_at_half_past_nine in
  _parse_action_trigger int_decimal strip_blanks lower_ascii weekly_yaml 0 = Valid t /\
  (Config.type t = EVENT -> Config.time t = None) /\
  (Config.type t = DAILY \/ Config.type t = WEEKLY \/ Config.type t = MONTHLY ->
     is_Some (Config.time t)) /\
  (is_Some (Config.weekday t) <-> Config.type t = WEEKLY) /\
  (is_Some (Config.day t) <-> Config.type t = MONTHLY) /\
  (is_Some (Config.minute t) <-> Config.type t = HOURLY) /\
  (forall tod m, Config.time t = Some tod -> Config.minute t = Some m ->
     t_minute tod = m).
Proof.
  split; [vm_compute; reflexivity|].
  apply (accepted_trigger_has_the_fields_of_its_type
           int_decimal strip_blanks lower_ascii weekly_yaml 0).
  vm_compute. reflexivity.
Defined.

Lemma accepted_trigger_can_be_scheduled_witness :
  let t := weekly_at_half_past_nine in
  _parse_action_trigger int_decimal strip_blanks lower_ascii weekly_yaml 0 = Valid t /\
  valid_datetime wednesday_night = true /\ (year wednesday_night < MAXYEAR)%Z /\
  if decide (Config.type t = EVENT)
  then _compute_next_run t wednesday_night = Ok None
  else exists c,
         _compute_next_run t wednesday_night = Ok (Some c) /\
         valid_datetime c = true /\ datetime_lt wednesday_night c = true /\
         occurrence t wednesday_night c.
Proof.
  split; [vm_compute; reflexivity|]. split; [reflexivity|]. split; [reflexivity|].
  apply (accepted_trigger_can_be_scheduled
           int_decimal strip_blanks lower_ascii weekly_yaml 0);
    vm_compute; reflexivity.
Defined.

Lemma constructor_builds_one_action_per_configuration_witness :
  Forall (fun cfg => validated_trigger (cfg_trigger cfg) = true) listeners_and_timer /\
  valid_datetime (default an_evening (Some an_evening)) = true /\
  __init__ sample_modules listeners_and_timer (Some an_evening) an_evening empty_world
  = (Ok listeners_registry, listeners_world) /\
  registry_ok listeners_world listeners_registry = true /\
  contexts listeners_world = contexts empty_world /\
  trace listeners_world = trace empty_world /\
  Actions._actions listeners_registry
  = seq (length (objs empty_world)) (length listeners_and_timer) /\
  listeners_unscheduled listeners_world listeners_registry = true /\
  exists acts,
    objs listeners_world = (objs empty_world ++ acts)%list /\
    Forall2 (built_from sample_modules (default an_evening (Some an_evening)))
      listeners_and_timer acts.
Proof.
  split; [repeat constructor|]. split; [reflexivity|].
  split; [vm_compute; reflexivity|].
  apply (constructor_builds_one_action_per_configuration
           sample_modules listeners_and_timer (Some an_evening) an_evening empty_world).
  - repeat constructor.
  - reflexivity.
  - vm_compute. reflexivity.
Defined.


Lemma priming_sets_each_missing_baseline_once_witness :
  registry_ok (timers_world eleven_pm) timers_registry = true /\
  exists w',
    prime_scheduled_snapshots timers_registry sample_snapshot (timers_world eleven_pm)
    = (Ok tt, w') /\
    contexts w' = contexts (timers_world eleven_pm) /\
    trace w' = trace (timers_world eleven_pm) /\
    length (objs w') = length (objs (timers_world eleven_pm)) /\
    (forall r, r ∉ _scheduled_actions timers_registry ->
       objs w' !! r = objs (timers_world eleven_pm) !! r) /\
    (forall r a, r ∈ _scheduled_actions timers_registry ->
       objs (timers_world eleven_pm) !! r = Some a ->
       objs w' !! r
       = Some (mk_action (name a) (callback a) (options a) (trigger a) (next_run_at a)
                 (Some (default sample_snapshot (previous_snapshot a))))) /\
    forall snap', prime_scheduled_snapshots timers_registry snap' w' = (Ok tt, w').
Proof.
  split; [vm_compute; reflexivity|].
  apply (priming_sets_each_missing_baseline_once (timers_world eleven_pm) timers_registry).
  vm_compute. reflexivity.
Defined.

Lemma scheduled_dispatch_gives_each_due_action_its_own_context_witness :
  let w := timers_world eleven_pm in
  registry_ok w timers_registry = true /\
  valid_datetime eleven_pm = true /\ (year eleven_pm < MAXYEAR)%Z /\
  exists w' tr,
    dispatch_scheduled timers_registry eleven_pm sample_root sample_snapshot w = (Ok tt, w') /\
    trace w' = (trace w ++ tr)%list /\
    length (contexts w') = length (contexts w) + length (invocations tr) /\
    NoDup (invocations tr).*1 /\ NoDup (invocations tr).*2 /\
    (forall r c, (r, c) ∈ invocations tr ->
       length (contexts w) <= c /\
       exists a, r ∈ _scheduled_actions timers_registry /\ objs w !! r = Some a /\
         is_event_trigger a = false /\ is_due eleven_pm a = true /\
         contexts w' !! c
         = Some (mk_context sample_root sample_snapshot None
                   match previous_snapshot a with
                   | Some previous => Actions._diff_snapshots previous sample_snapshot
                   | None => []
                   end)) /\
    (forall r a, r ∈ _scheduled_actions timers_registry -> objs w !! r = Some a ->
       is_due eleven_pm a = true -> exists c, (r, c) ∈ invocations tr).
Proof.
  split; [vm_compute; reflexivity|]. split; [reflexivity|]. split; [reflexivity|].
  apply (scheduled_dispatch_gives_each_due_action_its_own_context
           (timers_world eleven_pm) timers_registry eleven_pm);
    vm_compute; reflexivity.
Defined.

Lemma scheduled_dispatch_before_every_due_time_does_nothing_witness :
  all_waiting an_evening (timers_world eleven_pm) timers_registry = true /\
  dispatch_scheduled timers_registry an_evening sample_root sample_snapshot
    (timers_world eleven_pm)
  = (Ok tt, timers_world eleven_pm).
Proof.
  split; [vm_compute; reflexivity|].
  apply (scheduled_dispatch_before_every_due_time_does_nothing
           (timers_world eleven_pm) timers_registry an_evening).
  vm_compute. reflexivity.
Defined.

Lemma dispatch_keeps_the_registry_well_formed_witness :
  let w := listeners_world in
  let reg := listeners_registry in
  registry_ok w reg = true /\
  (forall ev root snap w',
     dispatch_event reg ev root snap w = (Ok tt, w') -> registry_ok w' reg = true) /\
  (forall now root snap w',
     valid_datetime now = true -> (year now < MAXYEAR)%Z ->
     dispatch_scheduled reg now root snap w = (Ok tt, w') -> registry_ok w' reg = true) /\
  (forall snap w',
     prime_scheduled_snapshots reg snap w = (Ok tt, w') -> registry_ok w' reg = true).
Proof.
  split; [vm_compute; reflexivity|].
  apply (dispatch_keeps_the_registry_well_formed listeners_world listeners_registry).
  vm_compute. reflexivity.
Defined.

Lemma event_triggered_actions_never_get_a_due_time_witness :
  let w := listeners_world in
  let reg := listeners_registry in
  registry_ok w reg = true /\ listeners_unscheduled w reg = true /\
  (forall ev root snap w',
     dispatch_event reg ev root snap w = (Ok tt, w') ->
     listeners_unscheduled w' reg = true) /\
  (forall now root snap w',
     valid_datetime now = true -> (year now < MAXYEAR)%Z ->
     dispatch_scheduled reg now root snap w = (Ok tt, w') ->
     listeners_unscheduled w' reg = true /\
     exists tr, trace w' = (trace w ++ tr)%list /\
       forall r c, (r, c) ∈ invocations tr -> r ∉ _event_actions reg) /\
  (forall snap w',
     prime_scheduled_snapshots reg snap w = (Ok tt, w') ->
     listeners_unscheduled w' reg = true).
Proof.
  split; [vm_compute; reflexivity|]. split; [vm_compute; reflexivity|].
  apply (event_triggered_actions_never_get_a_due_time listeners_world listeners_registry);
    vm_compute; reflexivity.
Defined.

Lemma first_firing_reports_the_changes_since_priming_witness :
  let w := timers_world eleven_pm in
  let a := timer "first" failing eleven_pm in
  registry_ok w timers_registry = true /\
  valid_datetime eleven_pm = true /\ (year eleven_pm < MAXYEAR)%Z /\
  0 ∈ _scheduled_actions timers_registry /\ objs w !! 0 = Some a /\
  previous_snapshot a = None /\ is_due eleven_pm a = true /\
  (exists w1 w2 tr c,
     prime_scheduled_snapshots timers_registry ∅ w = (Ok tt, w1) /\
     dispatch_scheduled timers_registry eleven_pm sample_root sample_snapshot w1
     = (Ok tt, w2) /\
     trace w2 = (trace w ++ tr)%list /\ (0, c) ∈ invocations tr /\
     contexts w2 !! c
     = Some (mk_context sample_root sample_snapshot None
               (Actions._diff_snapshots ∅ sample_snapshot)) /\
     forall e, e ∈ Actions._diff_snapshots ∅ sample_snapshot
               <-> is_change ∅ sample_snapshot e) /\
  (exists w2 tr c,
     dispatch_scheduled timers_registry eleven_pm sample_root sample_snapshot w
     = (Ok tt, w2) /\
     trace w2 = (trace w ++ tr)%list /\ (0, c) ∈ invocations tr /\
     contexts w2 !! c = Some (mk_context sample_root sample_snapshot None [])).
Proof.
  split; [vm_compute; reflexivity|]. split; [reflexivity|]. split; [reflexivity|].
  split; [left|]. split; [reflexivity|]. split; [reflexivity|].
  split; [vm_compute; reflexivity|].
  apply (first_firing_reports_the_changes_since_priming
           (timers_world eleven_pm) timers_registry eleven_pm sample_root ∅ sample_snapshot
           0 (timer "first" failing eleven_pm));
    first [left | vm_compute; reflexivity].
Defined.

Lemma fired_action_is_due_again_at_the_first_occurrence_a_second_later_witness :
  let w := timers_world eleven_pm in
  let a := timer "first" failing eleven_pm in
  registry_ok w timers_registry = true /\
  valid_datetime eleven_pm = true /\ (year eleven_pm < MAXYEAR)%Z /\
  0 ∈ _scheduled_actions timers_registry /\ objs w !! 0 = Some a /\
  is_due eleven_pm a = true /\
  exists w' a' next reference,
    dispatch_scheduled timers_registry eleven_pm sample_root sample_snapshot w
    = (Ok tt, w') /\
    objs w' !! 0 = Some a' /\ next_run_at a' = Some next /\
    datetime_add eleven_pm (timedelta_new 0 0 0 1) = Ok reference /\
    occurrence (trigger a) reference next /\
    (to_micro eleven_pm + 1000000 < to_micro next)%Z /\
    forall d, valid_datetime d = true -> occurrence (trigger a) reference d ->
      (to_micro eleven_pm + 1000000 < to_micro d)%Z -> datetime_le next d = true.
Proof.
  split; [vm_compute; reflexivity|]. split; [reflexivity|]. split; [reflexivity|].
  split; [left|]. split; [reflexivity|]. split; [vm_compute; reflexivity|].
  apply (fired_action_is_due_again_at_the_first_occurrence_a_second_later
           (timers_world eleven_pm) timers_registry eleven_pm sample_root sample_snapshot
           0 (timer "first" failing eleven_pm));
    first [left | vm_compute; reflexivity].
Defined.

Lemma action_without_due_time_is_scheduled_not_fired_witness :
  let w := unscheduled_world in
  let a := mk_action "tick" quiet ∅ every_minute None None in
  registry_ok w tick_registry = true /\
  valid_datetime an_evening = true /\ (year an_evening < MAXYEAR)%Z /\
  0 ∈ _scheduled_actions tick_registry /\ objs w !! 0 = Some a /\
  next_run_at a = None /\
  exists w' tr next,
    dispatch_scheduled tick_registry an_evening sample_root sample_snapshot w
    = (Ok tt, w') /\
    trace w' = (trace w ++ tr)%list /\
    (forall c, (0, c) ∉ invocations tr) /\
    _compute_next_run (trigger a) an_evening = Ok (Some next) /\
    datetime_lt an_evening next = true /\
    objs w' !! 0
    = Some (mk_action (name a) (callback a) (options a) (trigger a) (Some next)
              (previous_snapshot a)).
Proof.
  split; [vm_compute; reflexivity|]. split; [reflexivity|]. split; [reflexivity|].
  split; [left|]. split; [reflexivity|]. split; [reflexivity|].
  apply (action_without_due_time_is_scheduled_not_fired
           unscheduled_world tick_registry an_evening sample_root sample_snapshot
           0 (mk_action "tick" quiet ∅ every_minute None None));
    first [left | vm_compute; reflexivity].
Defined.


Lemma every_change_reaches_every_listener_once_witness :
  let changes :=
    changes_seen fnmatchcase text_files_only
      (_scan fnmatchcase text_files_only one_file) busy_passes in
  registry_ok listeners_world listeners_registry = true /\
  timely busy_passes = true /\
  length (concat changes) = 2 /\
  exists self' w' tr,
    run fnmatchcase (new_monitor text_files_only listeners_registry) one_file busy_passes
      listeners_world = (Ok tt, self', w') /\
    trace w' = (trace listeners_world ++ tr)%list /\
    (forall r, r ∈ _event_actions listeners_registry ->
       times_called r (invocations tr) = length (concat changes)) /\
    (forall r c, (r, c) ∈ invocations tr ->
       r ∈ _event_actions listeners_registry \/ r ∈ _scheduled_actions listeners_registry).
Proof.
  split; [vm_compute; reflexivity|]. split; [reflexivity|].
  split; [vm_compute; reflexivity|].
  apply (every_change_reaches_every_listener_once fnmatchcase text_files_only
           listeners_registry one_file busy_passes listeners_world);
    vm_compute; reflexivity.
Defined.

Lemma unchanged_tree_wakes_no_listener_witness :
  registry_ok listeners_world listeners_registry = true /\
  timely quiet_passes = true /\
  Forall (fun t => _scan fnmatchcase text_files_only (seen t)
                   = _scan fnmatchcase text_files_only one_file) quiet_passes /\
  _scan fnmatchcase text_files_only one_file = {[ ["data"; "a.txt"] := (100, 10)%Z ]} /\
  exists self' w' tr,
    run fnmatchcase (new_monitor text_files_only listeners_registry) one_file quiet_passes
      listeners_world = (Ok tt, self', w') /\
    events_emitted (_stats self') = 0%Z /\
    _snapshot self' = _scan fnmatchcase text_files_only one_file /\
    trace w' = (trace listeners_world ++ tr)%list /\
    forall r c, (r, c) ∈ invocations tr -> r ∈ _scheduled_actions listeners_registry.
Proof.
  split; [vm_compute; reflexivity|]. split; [reflexivity|].
  split; [repeat constructor|]. split; [vm_compute; reflexivity|].
  apply (unchanged_tree_wakes_no_listener fnmatchcase text_files_only
           listeners_registry one_file quiet_passes listeners_world).
  - vm_compute. reflexivity.
  - reflexivity.
  - repeat constructor.
Defined.

End MoreInstances.
